(** * TinderPromptBot: a shallow embedding of the orchestration core

    The development follows [tinder_api.py]: the login codec of
    [TinderApi] (hand-written protobuf framing), its login call, its
    header builder and its request loop with retries, and the timing
    engine, ban classifier, request-pattern executor, single-request
    check, session orchestrator and queue batch processor of
    [EnhancedTinderBot].

    Conventions.
    - A Python [int] is a [Z]; a Python [bytes] is a [list byte]; a Python
      [str] is a [string] holding its UTF-8 encoding, so [encode('utf-8')]
      is the identity on the representation and [decode('utf-8')] is a
      validity check.
    - A Python [float] is an exact rational ([Q]); the random draws of
      [random.random()] and [random.uniform] are inputs of the model.
    - Collaborators outside the core (the remote service, the clock, the
      stop signal) are oracles: functions of the number of events emitted
      so far.  Everything observable that the code does (wire calls, sleeps,
      log lines, database writes) is recorded in the state. *)

From Stdlib Require Import ZArith QArith Lia Lqa Strings.Byte Ascii String List Bool.
From stdpp Require Import gmap strings list.

Local Open Scope Z_scope.

(** ** Outcomes of a Python computation *)

(** A computation returns a value, raises an exception, or (in the model
    only) runs out of the fuel that bounds its [while] loops. *)
Inductive outcome (A : Type) : Type :=
| Returns (a : A)
| Raises
| OutOfFuel.
Arguments Returns {A} a.
Arguments Raises {A}.
Arguments OutOfFuel {A}.

#[global] Instance outcome_ret : MRet outcome := fun _ a => Returns a.

#[global] Instance outcome_bind : MBind outcome := fun _ _ k m =>
  match m with
  | Returns a => k a
  | Raises => Raises
  | OutOfFuel => OutOfFuel
  end.

(** [try: m except Exception: handler] *)
Definition try_except {A} (m : outcome A) (handler : outcome A) : outcome A :=
  match m with
  | Raises => handler
  | _ => m
  end.

(** An optional value that Python would index without a check. *)
Definition of_option {A} (o : option A) : outcome A :=
  match o with
  | Some a => Returns a
  | None => Raises
  end.

(** ** Bytes and strings *)

Module PyBytes.

Definition bytes := list byte.

Definition byte_val (b : byte) : Z := Z.of_N (Byte.to_N b).

(** [bytes([n])] for [0 <= n < 256]. *)
Definition byte_of_Z (n : Z) : byte :=
  match Byte.of_N (Z.to_N n) with
  | Some b => b
  | None => x00
  end.

Definition len (data : bytes) : Z := Z.of_nat (length data).

(** [data[pos]]: an [IndexError] is [None]. *)
Definition getitem (data : bytes) (pos : Z) : option byte :=
  if pos <? 0 then None else data !! Z.to_nat pos.

(** [data[lo:hi]] for [0 <= lo]: slices are clamped, never raise. *)
Definition slice (data : bytes) (lo hi : Z) : bytes :=
  take (Z.to_nat (hi - lo)) (drop (Z.to_nat lo) data).

Definition in_range (lo hi : Z) (b : byte) : bool :=
  (lo <=? byte_val b) && (byte_val b <=? hi).

Definition continuation : byte -> bool := in_range 0x80 0xBF.

(** Strict UTF-8 (RFC 3629), as [bytes.decode('utf-8')] checks it: no
    overlong forms, no surrogates, nothing above U+10FFFF. *)
Fixpoint utf8_valid (bs : bytes) : bool :=
  match bs with
  | [] => true
  | b0 :: r0 =>
      if in_range 0x00 0x7F b0 then utf8_valid r0
      else if in_range 0xC2 0xDF b0 then
        match r0 with
        | b1 :: r1 => continuation b1 && utf8_valid r1
        | _ => false
        end
      else if in_range 0xE0 0xEF b0 then
        match r0 with
        | b1 :: b2 :: r2 =>
            (if byte_val b0 =? 0xE0 then in_range 0xA0 0xBF b1
             else if byte_val b0 =? 0xED then in_range 0x80 0x9F b1
             else continuation b1)
            && continuation b2 && utf8_valid r2
        | _ => false
        end
      else if in_range 0xF0 0xF4 b0 then
        match r0 with
        | b1 :: b2 :: b3 :: r3 =>
            (if byte_val b0 =? 0xF0 then in_range 0x90 0xBF b1
             else if byte_val b0 =? 0xF4 then in_range 0x80 0x8F b1
             else continuation b1)
            && continuation b2 && continuation b3 && utf8_valid r3
        | _ => false
        end
      else false
  end.

(** [s.encode('utf-8')] *)
Definition encode_utf8 (s : string) : bytes := list_byte_of_string s.

(** [bs.decode('utf-8')]: [None] is a [UnicodeDecodeError]. *)
Definition decode_utf8 (bs : bytes) : option string :=
  if utf8_valid bs then Some (string_of_list_byte bs) else None.

End PyBytes.

(** ** Login codec ([TinderApi], the refresh-token handshake) *)

Module LoginCodec.
Import PyBytes.

(** [_encode_varint]: the [while value >= 0x80] loop shifts seven bits out
    at each turn; [fuel] bounds the number of turns. *)
Fixpoint encode_varint_loop (fuel : nat) (value : Z) : option bytes :=
  match fuel with
  | O => None
  | S fuel' =>
      if 0x80 <=? value then
        option_map (cons (byte_of_Z (Z.lor (Z.land value 0x7F) 0x80)))
                   (encode_varint_loop fuel' (Z.shiftr value 7))
      else Some [byte_of_Z (Z.land value 0x7F)]
  end.

(** A value of [n] bits leaves the loop after at most [n / 7] turns. *)
Definition varint_fuel (value : Z) : nat := S (Z.to_nat (Z.log2 value)).

Definition _encode_varint (value : Z) : bytes :=
  default [] (encode_varint_loop (varint_fuel value) value).

(** [_decode_varint]: the loop reads [data] from [pos] on; it is written
    by recursion on the bytes that are left. *)
Fixpoint decode_varint_from (rest : bytes) (pos result shift : Z) : Z * Z :=
  match rest with
  | [] => (result, pos)
  | b :: rest' =>
      let result := Z.lor result (Z.shiftl (Z.land (byte_val b) 0x7F) shift) in
      if Z.land (byte_val b) 0x80 =? 0 then (result, pos + 1)
      else decode_varint_from rest' (pos + 1) result (shift + 7)
  end.

Definition _decode_varint (data : bytes) (pos : Z) : Z * Z :=
  decode_varint_from (drop (Z.to_nat pos) data) pos 0 0.

(** [_encode_refresh_auth_protobuf] *)
Definition _encode_refresh_auth_protobuf (refresh_token : string) : bytes :=
  let refresh_token_bytes := encode_utf8 refresh_token in
  let refresh_token_field :=
    [x0a] ++ _encode_varint (len refresh_token_bytes) ++ refresh_token_bytes in
  let refresh_auth_field :=
    [x52] ++ _encode_varint (len refresh_token_field) ++ refresh_token_field in
  refresh_auth_field.

(** The dictionary under construction: [auth_token], [refresh_token] and
    [user_id] start as [None]. *)
Record LoginFields := {
  auth_token : option string;
  refresh_token : option string;
  user_id : option string;
}.

Definition no_fields : LoginFields :=
  {| auth_token := None; refresh_token := None; user_id := None |}.

(** The dictionary that [_parse_auth_response_manual] returns. *)
Inductive AuthResult :=
| LoginOk (fields : LoginFields)
    (** [{"success": True, "auth_token": .., "refresh_token": .., "user_id": ..}] *)
| LoginError (error : string)
    (** [{"success": False, "error": error}], from field 7 *)
| ParseFailure.
    (** [{"success": False, "error": str(e)}], from the [except] clause; the
        text of the exception is not modelled *)

(** Read a length-prefixed string at [pos]: the length, the slice decoded
    as UTF-8, and the position after it. *)
Definition read_string (data : bytes) (pos : Z) : outcome (string * Z) :=
  let '(str_len, pos) := _decode_varint data pos in
  s ← of_option (decode_utf8 (slice data pos (pos + str_len)));
  mret (s, pos + str_len).

(** The [while lr_pos < len(login_data)] loop of field 8. *)
Fixpoint login_result_loop (fuel : nat) (login_data : bytes) (lr_pos : Z)
    (result : LoginFields) : outcome LoginFields :=
  match fuel with
  | O => OutOfFuel
  | S fuel' =>
      if lr_pos <? len login_data then
        lr_key ← of_option (getitem login_data lr_pos);
        let lr_pos := lr_pos + 1 in
        let lr_field_num := Z.shiftr (byte_val lr_key) 3 in
        if lr_field_num =? 1 then
          '(s, lr_pos) ← read_string login_data lr_pos;
          login_result_loop fuel' login_data lr_pos
            {| auth_token := auth_token result; refresh_token := Some s;
               user_id := user_id result |}
        else if lr_field_num =? 2 then
          '(s, lr_pos) ← read_string login_data lr_pos;
          login_result_loop fuel' login_data lr_pos
            {| auth_token := Some s; refresh_token := refresh_token result;
               user_id := user_id result |}
        else if lr_field_num =? 4 then
          '(s, lr_pos) ← read_string login_data lr_pos;
          login_result_loop fuel' login_data lr_pos
            {| auth_token := auth_token result;
               refresh_token := refresh_token result; user_id := Some s |}
        else if Z.land (byte_val lr_key) 0x7 =? 2 then
          let '(skip_len, lr_pos) := _decode_varint login_data lr_pos in
          login_result_loop fuel' login_data (lr_pos + skip_len) result
        else if Z.land (byte_val lr_key) 0x7 =? 0 then
          let '(_, lr_pos) := _decode_varint login_data lr_pos in
          login_result_loop fuel' login_data lr_pos result
        else
          login_result_loop fuel' login_data (lr_pos + 1) result
      else mret result
  end.

(** The [while error_pos < len(error_data)] loop of field 7. *)
Fixpoint error_loop (fuel : nat) (error_data : bytes) (error_pos : Z)
    (error_message : string) : outcome string :=
  match fuel with
  | O => OutOfFuel
  | S fuel' =>
      if error_pos <? len error_data then
        error_key ← of_option (getitem error_data error_pos);
        let error_pos := error_pos + 1 in
        let error_field_num := Z.shiftr (byte_val error_key) 3 in
        if error_field_num =? 1 then
          '(s, error_pos) ← read_string error_data error_pos;
          error_loop fuel' error_data error_pos s
        else if Z.land (byte_val error_key) 0x7 =? 2 then
          let '(skip_len, error_pos) := _decode_varint error_data error_pos in
          error_loop fuel' error_data (error_pos + skip_len) error_message
        else
          error_loop fuel' error_data (error_pos + 1) error_message
      else mret error_message
  end.

(** Every turn of a loop over [data] moves its position forward by one
    byte at least, so [length data] turns and the last test are enough. *)
Definition loop_fuel (data : bytes) : nat := S (length data).

(** The outer [while pos < len(response_data)] loop. *)
Fixpoint response_loop (fuel : nat) (response_data : bytes) (pos : Z)
    (result : LoginFields) : outcome AuthResult :=
  match fuel with
  | O => OutOfFuel
  | S fuel' =>
      if pos <? len response_data then
        field_key ← of_option (getitem response_data pos);
        let pos := pos + 1 in
        let field_num := Z.shiftr (byte_val field_key) 3 in
        if field_num =? 8 then
          let '(length, pos) := _decode_varint response_data pos in
          let login_data := slice response_data pos (pos + length) in
          let pos := pos + length in
          result ← login_result_loop (loop_fuel login_data) login_data 0 result;
          response_loop fuel' response_data pos result
        else if field_num =? 7 then
          let '(length, pos) := _decode_varint response_data pos in
          let error_data := slice response_data pos (pos + length) in
          error_message ← error_loop (loop_fuel error_data) error_data 0 "";
          mret (LoginError error_message)
        else
          let wire_type := Z.land (byte_val field_key) 0x7 in
          if wire_type =? 2 then
            let '(skip_len, pos) := _decode_varint response_data pos in
            response_loop fuel' response_data (pos + skip_len) result
          else if wire_type =? 0 then
            let '(_, pos) := _decode_varint response_data pos in
            response_loop fuel' response_data pos result
          else
            response_loop fuel' response_data (pos + 1) result
      else mret (LoginOk result)
  end.

(** [_parse_auth_response_manual]: the loop inside [try], the [except]
    clause turning any exception into a failure dictionary. *)
Definition _parse_auth_response_manual (response_data : bytes) : outcome AuthResult :=
  try_except
    (response_loop (loop_fuel response_data) response_data 0 no_fields)
    (mret ParseFailure).

(** What is left of the fuel covers what is left of the data. *)
Definition covers (fuel : nat) (data : bytes) (pos : Z) : Prop :=
  (length data + 1 <= fuel + Nat.min (Z.to_nat pos) (length data))%nat.

(** *** Messages built by hand, to state what the decoder does *)

(** The field of the login result that a sub-field number sets. *)
Definition set_field (n : Z) (s : string) (result : LoginFields) : LoginFields :=
  if n =? 1 then
    {| auth_token := auth_token result; refresh_token := Some s;
       user_id := user_id result |}
  else if n =? 2 then
    {| auth_token := Some s; refresh_token := refresh_token result;
       user_id := user_id result |}
  else
    {| auth_token := auth_token result; refresh_token := refresh_token result;
       user_id := Some s |}.


(** A length-delimited field: the tag byte (wire type 2), the length as a
    varint, the payload. *)
Definition length_delimited (field_number : Z) (payload : bytes) : bytes :=
  [byte_of_Z (Z.lor (Z.shiftl field_number 3) 2)]
  ++ _encode_varint (len payload) ++ payload.

(** The response of the round-trip test: field 8 with the sub-fields 2, 1
    and 4, in this order. *)
Definition login_response (auth refresh uid : string) : bytes :=
  length_delimited 8
    (length_delimited 2 (encode_utf8 auth)
     ++ length_delimited 1 (encode_utf8 refresh)
     ++ length_delimited 4 (encode_utf8 uid)).

(** An error: field 7 with the message as its sub-field 1. *)
Definition error_response (message : string) : bytes :=
  length_delimited 7 (length_delimited 1 (encode_utf8 message)).

Definition field_number (key : byte) : Z := Z.shiftr (byte_val key) 3.

Definition wire_type (key : byte) : Z := Z.land (byte_val key) 0x7.

(** A complete field that the outer loop passes without returning: a
    field other than 7 and 8, skipped by its length, as a varint or by one
    byte according to its wire type; or a login result whose strings
    decode. *)
Inductive passed_field : bytes -> Prop :=
| passed_length_delimited (key : byte) (payload : bytes) :
    field_number key ≠ 7 → field_number key ≠ 8 → wire_type key = 2 →
    passed_field ([key] ++ _encode_varint (len payload) ++ payload)
| passed_varint (key : byte) (n : Z) :
    field_number key ≠ 7 → field_number key ≠ 8 → wire_type key = 0 → 0 <= n →
    passed_field ([key] ++ _encode_varint n)
| passed_other (key b : byte) :
    field_number key ≠ 7 → field_number key ≠ 8 →
    wire_type key ≠ 2 → wire_type key ≠ 0 →
    passed_field [key; b]
| passed_login_result (key : byte) (payload : bytes) :
    field_number key = 8 →
    (∀ result, ∃ result',
       login_result_loop (loop_fuel payload) payload 0 result = Returns result') →
    passed_field ([key] ++ _encode_varint (len payload) ++ payload).

(** A complete sub-field of an error that the inner loop passes without
    touching the message: a sub-field other than 1, skipped by its length
    when it is length-delimited and by one byte otherwise. *)
Inductive skipped_sub_field : bytes -> Prop :=
| skipped_length_delimited (key : byte) (payload : bytes) :
    field_number key ≠ 1 → wire_type key = 2 →
    skipped_sub_field ([key] ++ _encode_varint (len payload) ++ payload)
| skipped_other (key b : byte) :
    field_number key ≠ 1 → wire_type key ≠ 2 →
    skipped_sub_field [key; b].

(** An error: field 7 with the message as its sub-field 1, between the
    sub-fields [before] and [after]. *)
Definition error_field (before : list bytes) (message : string) (after : list bytes)
    : bytes :=
  length_delimited 7
    (concat before ++ length_delimited 1 (encode_utf8 message) ++ concat after).

End LoginCodec.

(** ** Request headers ([TinderApi.headers]) *)

Module Headers.

(** The attributes of a [TinderApi] object that [headers] reads. *)
Record TinderApi := {
  auth_token : option string;
  os_version : string;
  device_ram : string;
  persistent_device_id : string;
  install_id : string;
  appsflyer_id : string;
  advertising_id : string;
  app_session_id : string;
  user_session_id : string;
  hubble_network_id : string;
  funnel_session_id : string;
  x_request_id : string;
  x_hubble_entity_id : string;
}.

(** What one call draws from outside: the elapsed time as printed by
    [str], a fresh UUID, and [str(random.randint(50, 1000))]. *)
Record Ambient := {
  elapsed_time : string;
  correlation_id : string;
  connection_speed : string;
}.

(** Truth value of [self.auth_token]: [None] and [""] are false. *)
Definition truthy (o : option string) : bool :=
  match o with
  | Some s => negb (String.eqb s "")
  | None => false
  end.

(** [d.update({k1: v1, ...})] *)
Definition update (kvs : list (string * string)) (d : gmap string string)
    : gmap string string :=
  foldl (fun d kv => <[kv.1 := kv.2]> d) d kvs.

Definition headers (self : TinderApi) (amb : Ambient) (endpoint_type : string)
    (include_correlation : bool) : gmap string string :=
  let base_headers : gmap string string :=
    update [("User-Agent", "Tinder Android Version 16.11.0");
            ("os-version", os_version self);
            ("app-version", "4732");
            ("platform", "android");
            ("platform-variant", "Google-Play");
            ("x-supported-image-formats", "webp");
            ("accept-language", "en-US");
            ("tinder-version", "16.11.0");
            ("store-variant", "Play-Store");
            ("x-device-ram", device_ram self);
            ("persistent-device-id", persistent_device_id self);
            ("app-session-id", app_session_id self);
            ("app-session-time-elapsed", elapsed_time amb);
            ("install-id", install_id self);
            ("accept-encoding", "gzip")] ∅ in
  let base_headers :=
    if truthy (auth_token self)
       && negb (bool_decide (endpoint_type ∈ ["auth"; "healthcheck"; "buckets_initial"]))
    then <["x-auth-token" := default "" (auth_token self)]> base_headers
    else base_headers in
  let base_headers :=
    if negb (bool_decide (endpoint_type ∈ ["auth"; "healthcheck"; "buckets_initial"]))
    then update [("user-session-id", user_session_id self);
                 ("user-session-time-elapsed", elapsed_time amb)] base_headers
    else base_headers in
  let base_headers :=
    if include_correlation
       && negb (bool_decide (endpoint_type ∈ ["healthcheck"; "auth"]))
    then <["x-correlation-id" := correlation_id amb]> base_headers
    else base_headers in
  if String.eqb endpoint_type "auth" then
    let base_headers :=
      update [("appsflyer-id", appsflyer_id self);
              ("advertising-id", advertising_id self);
              ("funnel-session-id", funnel_session_id self);
              ("Content-Type", "application/x-protobuf")] base_headers in
    delete "user-session-time-elapsed"
      (delete "user-session-id" (delete "x-auth-token" base_headers))
  else if String.eqb endpoint_type "profile" then
    <["support-short-video" := "1"]> base_headers
  else if String.eqb endpoint_type "recs" then
    update [("support-short-video", "1");
            ("connection-speed", connection_speed amb);
            ("x-request-id", x_request_id self);
            ("x-hubble-entity-id", x_hubble_entity_id self)] base_headers
  else if String.eqb endpoint_type "like" then
    <["x-hubble-network-id" := hubble_network_id self]> base_headers
  else if String.eqb endpoint_type "json_post" then
    <["Content-Type" := "application/json; charset=UTF-8"]> base_headers
  else base_headers.

End Headers.

(** ** The parts of [str] that the ban classifier uses *)

Module PyStr.

Definition is_upper (c : ascii) : bool :=
  (65 <=? nat_of_ascii c)%nat && (nat_of_ascii c <=? 90)%nat.

Definition lower_char (c : ascii) : ascii :=
  if is_upper c then ascii_of_nat (nat_of_ascii c + 32) else c.

(** [s.lower()], on the ASCII letters: the bytes of the other characters
    are left as they are. *)
Fixpoint lower (s : string) : string :=
  match s with
  | EmptyString => EmptyString
  | String c s' => String (lower_char c) (lower s')
  end.

Fixpoint startswith (prefix s : string) : bool :=
  match prefix, s with
  | EmptyString, _ => true
  | String a prefix', String b s' => Ascii.eqb a b && startswith prefix' s'
  | String _ _, EmptyString => false
  end.

(** [needle in haystack] *)
Fixpoint contains (needle haystack : string) : bool :=
  startswith needle haystack ||
  match haystack with
  | EmptyString => false
  | String _ rest => contains needle rest
  end.

End PyStr.

(** ** Timing engine ([EnhancedTinderBot.adaptive_delay], the arithmetic) *)

Module Timing.
Local Open Scope Q_scope.

(** [self.BASE_DELAYS] *)
Definition BASE_DELAYS : gmap string (Q * Q) :=
  list_to_map
    [("micro", (0.1, 0.5));
     ("short", (0.5, 2.0));
     ("medium", (2.0, 5.0));
     ("long", (5.0, 15.0));
     ("break", (30.0, 120.0));
     ("session_gap", (300, 900))].

(** The part of [self.current_session] that the timing engine reads. *)
Record Pace := {
  error_count : Z;
  actions_count : Z;
}.

(** The three random numbers of one call, each in [0, 1]: the two calls
    of [random.random()] and the one inside [random.uniform]. *)
Record Draws := {
  draw_min : Q;
  draw_max : Q;
  draw_uniform : Q;
}.

(** [max(a, b)] returns [b] only when it is larger. *)
Definition py_max (a b : Q) : Q := if Qle_bool b a then a else b.

(** [random.uniform(a, b)] is [a + (b - a) * random.random()]. *)
Definition uniform (a b u : Q) : Q := a + (b - a) * u.

Record Delay := {
  slept : Q;          (** the duration passed to [time.sleep], also returned *)
  logged_factor : Q;  (** [factor] as the debug line prints it *)
}.

(** [if delay_type not in self.BASE_DELAYS: delay_type = 'short'] *)
Definition effective_type (delay_type : string) : string :=
  if bool_decide (delay_type ∈ dom BASE_DELAYS) then delay_type else "short"%string.

(** [self.BASE_DELAYS[delay_type]], after that replacement. *)
Definition base_range (delay_type : string) : Q * Q :=
  default (0.5, 2.0) (BASE_DELAYS !! effective_type delay_type).

(** [adaptive_delay], without its effects.  [variance] is
    [self.config.get('realistic_timing_variance', 0.3)]. *)
Definition adaptive_delay (variance : option Q) (session : Pace)
    (delay_type : string) (factor : Q) (d : Draws) : Delay :=
  let '(base_min, base_max) := base_range delay_type in
  let variance := default 0.3 variance in
  let min_delay := base_min * factor * (1 - variance + draw_min d * variance * 2) in
  let max_delay := base_max * factor * (1 - variance + draw_max d * variance * 2) in
  let min_delay := py_max 0.05 min_delay in
  let max_delay := py_max (min_delay + 0.1) max_delay in
  let factor :=
    if (0 <? error_count session)%Z
    then factor * (1 + inject_Z (error_count session) * 0.2) else factor in
  let factor :=
    if (50 <? actions_count session)%Z then factor * 1.3 else factor in
  let delay := uniform min_delay max_delay (draw_uniform d) in
  {| slept := delay; logged_factor := factor |}.

End Timing.

(** ** The bot: state, events and the outside world *)

Module Bot.

Inductive SessionPhase :=
| STARTUP | PROFILE_UPDATE | BROWSING | LIKING | MAINTENANCE | COOLDOWN.

#[global] Instance SessionPhase_eq_dec : EqDecision SessionPhase.
Proof. solve_decision. Defined.

(** [SessionPhase.value] *)
Definition value (p : SessionPhase) : string :=
  match p with
  | STARTUP => "startup"
  | PROFILE_UPDATE => "profile_update"
  | BROWSING => "browsing"
  | LIKING => "liking"
  | MAINTENANCE => "maintenance"
  | COOLDOWN => "cooldown"
  end.

(** [@dataclass RequestPattern] *)
Record RequestPattern := {
  endpoint : string;
  method : string;
  repeat_count : Z;
  delay_range : Q * Q;
  critical : bool;
}.

(** The generated [__eq__]: field by field, floats compared by value. *)
Definition pattern_eqb (p q : RequestPattern) : bool :=
  String.eqb (endpoint p) (endpoint q)
  && String.eqb (method p) (method q)
  && (repeat_count p =? repeat_count q)
  && Qeq_bool (delay_range p).1 (delay_range q).1
  && Qeq_bool (delay_range p).2 (delay_range q).2
  && Bool.eqb (critical p) (critical q).

(** [RequestPattern(endpoint, method, repeat_count, delay_range)], with
    [critical] left at its default. *)
Definition pattern (endpoint method : string) (repeat_count : Z)
    (delay_type : string) : RequestPattern :=
  {| endpoint := endpoint; method := method; repeat_count := repeat_count;
     delay_range := default (0.5, 2.0)%Q (Timing.BASE_DELAYS !! delay_type);
     critical := true |}.

(** [self.REQUEST_PATTERNS] as [__init__] fills it. *)
Definition REQUEST_PATTERNS : gmap string (list RequestPattern) :=
  list_to_map
    [("startup",
      [pattern "healthcheck_auth" "GET" 1 "micro";
       pattern "buckets" "POST" 1 "short";
       pattern "device_check" "GET" 1 "micro";
       pattern "profile_consents" "POST" 1 "medium";
       pattern "device_check" "GET" 1 "micro";
       pattern "profile" "GET" 1 "short";
       pattern "inbox_messages" "GET" 1 "micro";
       pattern "matches" "GET" 1 "micro";
       pattern "fast_match_count" "GET" 1 "short";
       pattern "user_language_preferences" "POST" 1 "medium";
       pattern "updates" "POST" 1 "short";
       pattern "profile_meter" "GET" 1 "micro";
       pattern "campaigns" "GET" 1 "short";
       pattern "push_devices" "POST" 2 "micro";
       pattern "meta_post" "POST" 1 "medium"]);
     ("profile_check",
      [pattern "fast_match_count" "GET" 1 "micro";
       pattern "profile_feature_access" "GET" 1 "micro";
       pattern "payment_methods" "GET" 1 "micro";
       pattern "my_likes" "GET" 1 "short";
       pattern "duos" "GET" 1 "micro";
       pattern "recommendations" "GET" 3 "short";
       pattern "campaigns_extended" "GET" 1 "micro";
       pattern "subscription_features" "GET" 2 "micro"]);
     ("liked_me_processing",
      [pattern "fast_match_count" "GET" 3 "micro";
       pattern "fast_match_newcount" "GET" 1 "micro";
       pattern "liked_me_batch" "GET" 1 "short";
       pattern "fast_match_teaser" "GET" 1 "micro"]);
     ("maintenance",
      [pattern "updates" "POST" 1 "short";
       pattern "received_messages" "GET" 1 "micro";
       pattern "subscription_features" "GET" 2 "micro";
       pattern "profile_meter" "GET" 1 "micro";
       pattern "recommendations" "GET" 1 "short"])].

(** [self.BAN_INDICATORS] *)
Definition BAN_INDICATORS : list string :=
  ["rate_limited_until"; "APPEAL_BAN"; "account_disabled";
   "temporarily_unavailable"; "too_many_requests"].

(** [self.config]: a key read with [.get(key, default)] is optional, a
    key read with [self.config[key]] is always there. *)
Record Config := {
  realistic_timing_variance : option Q;
  detailed_logging : option bool;
  log_request_timings : option bool;
  ban_detection_sensitivity : option Q;
  liked_me_count_per_request : option Z;
  delay_after_page_fetch : option Q;
  delay_between_likes : option Q;
  process_all_liked_me : option bool;
  session_duration_min : option Z;
  session_duration_max : option Z;
  max_likes_per_session : Z;
  user_traveling_in_likes : bool;
  like_users_who_liked_me : bool;
}.

(** [self.current_session] *)
Record CurrentSession := {
  phase : SessionPhase;
  start_time : option Z;
  actions_count : Z;
  last_break : option Z;
  request_count : Z;
  error_count : Z;
}.

Definition pace (cs : CurrentSession) : Timing.Pace :=
  {| Timing.error_count := error_count cs;
     Timing.actions_count := actions_count cs |}.

(** One entry of a page of the inbound queue: [user_data["user"]["_id"]]
    and the fields sent along with a like. *)
Record UserData := {
  user_id : option string;
  photo_id : option string;
  content_hash : option string;
  s_number : option Z;
}.

(** What [api.like_user] returns: [False], [True] or ["match"]. *)
Inductive LikeResult := like_False | like_True | like_match.

(** The text of a delay's [context] argument. *)
Inductive Context :=
| ctx_repeat (endpoint : string) (position : Z)   (** ["{endpoint} repeat {n}"] *)
| ctx_after (endpoint : string)                   (** ["after {endpoint}"] *)
| ctx_transition (old_phase new_phase : SessionPhase)
| ctx_text (text : string).

Inductive Level := DEBUG | WARNING | ERROR.

Inductive Message :=
| msg_adaptive_delay (context : Context) (delay_type : string)
| msg_unknown_pattern (pattern_name : string)
| msg_critical_failed (endpoint : string)
| msg_noncritical_failed (endpoint : string)
| msg_ban_indicators
| msg_database_error (operation : string)
| msg_liked_me_error
| msg_liked_user_error (user_id : string)
| msg_processing_error (account_id : Z).

(** A row of [enhanced_activity]. *)
Record Activity := {
  activity_type : string;
  target_user_id : option string;
  activity_success : bool;
  timing_ms : Z;
  request_pattern : string;
  activity_phase : string;
}.

(** Calls on the wire client made outside the request patterns. *)
Inductive ApiCall :=
| call_initialize
| call_profile
| call_liked_me_count
| call_liked_me (count : Z) (page_token : option string)
| call_like_user (target : UserData) (user_traveling : bool)
| call_get_updates.

(** Everything the bot does that can be observed, in the order it happens. *)
Inductive Event :=
| EvRequest (endpoint method : string)    (** [_execute_single_request] *)
| EvCall (call : ApiCall)
| EvDelay (delay_type : string) (context : Context) (duration : Q)
                                          (** the sleep of [adaptive_delay] *)
| EvSleep (duration : Q)                  (** a bare [time.sleep] *)
| EvLog (level : Level) (message : Message)
| EvTiming (account_id session_id : Z) (request_type : string)
    (response_time_ms : Z) (ok is_triple : bool) (position : Z)
                                          (** a row of [request_timing] *)
| EvActivity (account_id session_id : Z) (activity : Activity)
| EvHelper (name : string).               (** a helper that keeps to itself *)

(** *** The database *)

(** A row of [enhanced_sessions]. *)
Record SessionRow := {
  row_account_id : Z;
  row_session_start : Z;
  row_session_end : option Z;
  row_session_phase : string;
  row_duration_seconds : option Z;
  row_requests_made : Z;
  row_likes_sent : Z;
  row_passes_sent : Z;
  row_matches_gained : Z;
  row_errors_encountered : Z;
  row_session_quality_score : option Q;
}.

(** A row of [account_status]. *)
Record StatusRow := {
  status_last_session_start : option Z;
  status_last_session_end : option Z;
  status_current_session_phase : string;
  status_session_likes_count : Z;
  status_total_session_actions : Z;
  status_request_burst_count : Z;
  status_liked_me_count : Z;
  status_last_liked_me_check : option Z;
  status_last_liked_me_check_count : Z;
}.

(** A row of [accounts]. *)
Record AccountRow := {
  acct_status : string;
  acct_ban_score : Q;
  acct_session_count : Z;
  acct_total_requests : Z;
  acct_total_likes : Z;
}.

(** The three tables the orchestration core writes.  [enhanced_sessions]
    is keyed by its [AUTOINCREMENT] primary key, whose last value is
    [sessions_sequence]. *)
Record Db := {
  enhanced_sessions : gmap Z SessionRow;
  sessions_sequence : Z;
  account_status : gmap Z StatusRow;
  accounts : gmap Z AccountRow;
}.

Definition with_sessions (f : gmap Z SessionRow -> gmap Z SessionRow) (d : Db) : Db :=
  {| enhanced_sessions := f (enhanced_sessions d);
     sessions_sequence := sessions_sequence d;
     account_status := account_status d; accounts := accounts d |}.

Definition with_status (f : gmap Z StatusRow -> gmap Z StatusRow) (d : Db) : Db :=
  {| enhanced_sessions := enhanced_sessions d;
     sessions_sequence := sessions_sequence d;
     account_status := f (account_status d); accounts := accounts d |}.

Definition with_accounts (f : gmap Z AccountRow -> gmap Z AccountRow) (d : Db) : Db :=
  {| enhanced_sessions := enhanced_sessions d;
     sessions_sequence := sessions_sequence d;
     account_status := account_status d; accounts := f (accounts d) |}.

(** *** The state of a run *)

Record World := {
  trace : list Event;
  current_session : CurrentSession;
  db : Db;
}.

(** The number of events so far: the time at which the outside is asked. *)
Definition now (w : World) : nat := length (trace w).

Definition emit (e : Event) (w : World) : World :=
  {| trace := trace w ++ [e]; current_session := current_session w; db := db w |}.

Definition with_session (f : CurrentSession -> CurrentSession) (w : World) : World :=
  {| trace := trace w; current_session := f (current_session w); db := db w |}.

Definition with_db (f : Db -> Db) (w : World) : World :=
  {| trace := trace w; current_session := current_session w; db := f (db w) |}.

(** What a collaborator answers: a value, or an exception. *)
Inductive reply (A : Type) : Type :=
| answers (a : A)
| throws.
Arguments answers {A} a.
Arguments throws {A}.

Definition of_reply {A} (r : reply A) : outcome A :=
  match r with
  | answers a => Returns a
  | throws => Raises
  end.

(** What [check_gold_status] computes from a profile. *)
Record ProfileData := {
  is_gold : bool;
  gold_expires_at : option string;
}.

(** The account dictionary handed to the orchestrator; a database [NULL]
    is [None]. *)
Record Account := {
  id : Z;
  device_id : string;
  assigned_city : option string;
  assigned_username : option string;
  liked_me_count : option Z;
}.

(** The outside world.  Each oracle is asked at the current time, the
    number of events emitted so far; a call on a collaborator is itself an
    event, so the next call is asked at a later time. *)
Record Env := {
  running_at : nat -> bool;      (** [self.running]: the stop flag is [false] *)
  clock : nat -> Z;              (** [datetime.now()], in seconds *)
  draws_at : nat -> Timing.Draws;
  db_available : nat -> bool;    (** whether a [sqlite3] transaction goes through *)
  request_ok : nat -> string -> string -> bool;
                                 (** [_execute_single_request] *)
  response_ms : nat -> Z;
  randint : nat -> Z -> Z -> Z;  (** [random.randint(a, b)] *)
  initialize_api : nat -> bool;  (** [_initialize_api] gives an object *)
  profile : nat -> reply (option ProfileData);           (** [api.profile()] *)
  liked_me_count_reply : nat -> reply (option Z);        (** [api.liked_me_count()] *)
  liked_me : nat -> reply (option (list UserData));      (** [api.liked_me(..)] *)
  like_user : nat -> UserData -> reply LikeResult;       (** [api.like_user(..)] *)
  get_updates : nat -> reply unit;                       (** [api.get_updates(..)] *)
  should_check_likes_for_account : nat -> bool;
  _profile_needs_update : nat -> bool;
  smart_update_profile_enhanced : nat -> reply bool;
}.

(** *** A state and exception monad *)

Definition M (S A : Type) : Type := S -> S * outcome A.

#[global] Instance M_ret {S} : MRet (M S) := fun _ a s => (s, Returns a).

#[global] Instance M_bind {S} : MBind (M S) := fun _ _ k m s =>
  match m s with
  | (s', Returns a) => k a s'
  | (s', Raises) => (s', Raises)
  | (s', OutOfFuel) => (s', OutOfFuel)
  end.

Definition modify {S} (f : S -> S) : M S unit := fun s => (f s, Returns tt).

Definition gets {S A} (f : S -> A) : M S A := fun s => (s, Returns (f s)).

Definition raise {S A} : M S A := fun s => (s, Raises).

(** [try: m except Exception: handler]; the state reached when the
    exception was raised is kept. *)
Definition catch {S A} (m : M S A) (handler : M S A) : M S A := fun s =>
  match m s with
  | (s', Raises) => handler s'
  | r => r
  end.

(** *** Ban classifier ([_check_ban_indicators]) *)

(** What the classifier looks at in a response dictionary: [str(response)]
    and whether the dictionary is empty. *)
Record Response := {
  str : string;
  is_empty : bool;
}.

(** The response [{}]. *)
Definition empty_response : Response := {| str := "{}"; is_empty := true |}.

Definition severity (indicator : string) : Q :=
  if bool_decide (indicator ∈ ["APPEAL_BAN"; "account_disabled"]) then 1.0%Q else 0.7%Q.

(** One turn of [for indicator in self.BAN_INDICATORS]. *)
Definition check_indicator (response_str : string)
    (acc : Q * list (string * Q)) (indicator : string) : Q * list (string * Q) :=
  if PyStr.contains (PyStr.lower indicator) response_str
  then ((acc.1 + severity indicator)%Q, acc.2 ++ [(indicator, severity indicator)])
  else acc.

(** The score and the list of indicators after the three checks. *)
Definition ban_indicators (response : Response) : Q * list (string * Q) :=
  let response_str := PyStr.lower (str response) in
  let '(ban_score, indicators) :=
    foldl (check_indicator response_str) (0.0%Q, []) BAN_INDICATORS in
  let '(ban_score, indicators) :=
    if PyStr.contains "rate_limited_until" response_str
       || PyStr.contains "too_many_requests" response_str
    then ((ban_score + 0.5)%Q, indicators ++ [("rate_limiting", 0.5%Q)])
    else (ban_score, indicators) in
  if is_empty response
  then ((ban_score + 0.2)%Q, indicators ++ [("empty_response", 0.2%Q)])
  else (ban_score, indicators).

Definition _check_ban_indicators (config : Config) (response : Response)
    (w : World) : World * Q :=
  let '(ban_score, indicators) := ban_indicators response in
  let w :=
    if negb (bool_decide (indicators = []))
       && Qle_bool (default 0.8%Q (ban_detection_sensitivity config)) ban_score
    then emit (EvLog WARNING msg_ban_indicators) w
    else w in
  (w, ban_score).

(** *** Timing engine ([adaptive_delay], with its effects) *)

(** Truth value of the [context] string: only [""] is false. *)
Definition context_given (context : Context) : bool :=
  match context with
  | ctx_text text => negb (String.eqb text "")
  | _ => true
  end.

Definition adaptive_delay (env : Env) (config : Config) (delay_type : string)
    (context : Context) (factor : Q) (w : World) : World :=
  let d := Timing.adaptive_delay (realistic_timing_variance config)
             (pace (current_session w)) delay_type factor (draws_at env (now w)) in
  let w :=
    if context_given context && default false (detailed_logging config)
    then emit (EvLog DEBUG (msg_adaptive_delay context (Timing.effective_type delay_type))) w
    else w in
  emit (EvDelay (Timing.effective_type delay_type) context (Timing.slept d)) w.

(** *** Request-pattern executor ([execute_request_pattern]) *)

(** The [results] dictionary. *)
Record Results := {
  success : bool;
  requests_made : Z;
  errors : Z;
  timings : list Z;
}.

(** [_log_request_timing]: a row of [request_timing], or an error line
    when the database refuses it. *)
Definition _log_request_timing (env : Env) (account_id session_id : Z)
    (request_type : string) (response_time_ms : Z) (ok is_triple : bool)
    (position : Z) (w : World) : World :=
  if db_available env (now w)
  then emit (EvTiming account_id session_id request_type response_time_ms
               ok is_triple position) w
  else emit (EvLog ERROR (msg_database_error "request_timing")) w.

(** One turn of [for repeat in range(pattern.repeat_count)], after the
    stop flag was read.  Of [_execute_single_request] the answer is kept:
    what it writes to the table [accounts] on a 403, on a 401 or on a ban
    score of 0.8 and more is not in [db]. *)
Definition repeat_body (env : Env) (config : Config) (pattern : RequestPattern)
    (account_id session_id : Z) (repeat : Z) (st : World * Results)
    : World * Results :=
  let '(w, results) := st in
  let request_success := request_ok env (now w) (endpoint pattern) (method pattern) in
  let response_time_ms := response_ms env (now w) in
  let w := emit (EvRequest (endpoint pattern) (method pattern)) w in
  let w :=
    if default false (log_request_timings config)
    then _log_request_timing env account_id session_id (endpoint pattern)
           response_time_ms request_success (1 <? repeat_count pattern) (repeat + 1) w
    else w in
  let results :=
    {| success := success results; requests_made := requests_made results + 1;
       errors := errors results;
       timings := timings results ++ [response_time_ms] |} in
  let '(w, results) :=
    if negb request_success then
      (emit (if critical pattern
             then EvLog WARNING (msg_critical_failed (endpoint pattern))
             else EvLog DEBUG (msg_noncritical_failed (endpoint pattern))) w,
       {| success := success results; requests_made := requests_made results;
          errors := errors results + 1; timings := timings results |})
    else (w, results) in
  let w :=
    if repeat <? repeat_count pattern - 1
    then adaptive_delay env config "micro"
           (ctx_repeat (endpoint pattern) (repeat + 1)) 1 w
    else w in
  (w, results).

(** [for repeat in range(pattern.repeat_count)], [todo] turns being left. *)
Fixpoint repeat_loop (env : Env) (config : Config) (pattern : RequestPattern)
    (account_id session_id : Z) (todo : nat) (repeat : Z)
    (st : World * Results) : World * Results :=
  match todo with
  | O => st
  | S todo' =>
      if negb (running_at env (now st.1)) then st
      else repeat_loop env config pattern account_id session_id todo' (repeat + 1)
             (repeat_body env config pattern account_id session_id repeat st)
  end.

(** The body of [for pattern in patterns], after the stop flag was read.
    Nothing in it raises: the wire call, the timing row and the delay keep
    their exceptions to themselves, so the [except] clause stays unused. *)
Definition pattern_body (env : Env) (config : Config)
    (patterns : list RequestPattern) (pattern : RequestPattern)
    (account_id session_id : Z) (st : World * Results) : World * Results :=
  let '(w, results) :=
    repeat_loop env config pattern account_id session_id
      (Z.to_nat (repeat_count pattern)) 0 st in
  let w :=
    if negb (pattern_eqb pattern (default pattern (last patterns)))
    then adaptive_delay env config (if critical pattern then "short" else "micro")
           (ctx_after (endpoint pattern)) 1 w
    else w in
  (w, results).

(** [for pattern in patterns] *)
Fixpoint pattern_loop (env : Env) (config : Config)
    (patterns todo : list RequestPattern) (account_id session_id : Z)
    (st : World * Results) : World * Results :=
  match todo with
  | [] => st
  | pattern :: todo' =>
      if negb (running_at env (now st.1)) then st
      else pattern_loop env config patterns todo' account_id session_id
             (pattern_body env config patterns pattern account_id session_id st)
  end.

(** What [execute_request_pattern] returns: the dictionary of an unknown
    pattern has no counters. *)
Inductive PatternResult :=
| unknown_pattern
| pattern_results (results : Results).

Definition execute_request_pattern (env : Env) (config : Config)
    (REQUEST_PATTERNS : gmap string (list RequestPattern))
    (pattern_name : string) (account_id session_id : Z) (w : World)
    : World * PatternResult :=
  match REQUEST_PATTERNS !! pattern_name with
  | None => (emit (EvLog WARNING (msg_unknown_pattern pattern_name)) w, unknown_pattern)
  | Some patterns =>
      let '(w, results) :=
        pattern_loop env config patterns patterns account_id session_id
          (w, {| success := true; requests_made := 0; errors := 0; timings := [] |}) in
      let w :=
        with_session (fun cs =>
          {| phase := phase cs; start_time := start_time cs;
             actions_count := actions_count cs; last_break := last_break cs;
             request_count := request_count cs + requests_made results;
             error_count := error_count cs + errors results |}) w in
      (w, pattern_results results)
  end.

(** *** Session records ([start_enhanced_session], [end_enhanced_session]) *)

(** The dictionary of counters that the batch processor fills (["stats"])
    and the one the orchestrator keeps (["session_stats"]); a key that one
    of the two dictionaries lacks stays at its initial value. *)
Record Stats := {
  users_processed : Z;
  likes_sent : Z;
  passes_sent : Z;
  matches_gained : Z;
  api_calls_made : Z;
  cycles_completed : Z;
  total_available : Z;
  phases_completed : list string;
}.

Definition no_stats : Stats :=
  {| users_processed := 0; likes_sent := 0; passes_sent := 0;
     matches_gained := 0; api_calls_made := 0; cycles_completed := 0;
     total_available := 0; phases_completed := [] |}.

Definition py_min (a b : Q) : Q := if Qle_bool a b then a else b.

(** [_calculate_session_quality], at time [t]. *)
Definition _calculate_session_quality (config : Config) (cs : CurrentSession)
    (started t : Z) (stats : Stats) : Q :=
  let score := 1.0%Q in
  let score :=
    if 0 <? error_count cs then
      let error_rate :=
        (inject_Z (error_count cs) / inject_Z (Z.max (request_count cs) 1))%Q in
      (score - error_rate * 0.5)%Q
    else score in
  let score :=
    if likes_sent stats =? 0 then (score - 0.3)%Q
    else if max_likes_per_session config <? likes_sent stats then (score - 0.2)%Q
    else score in
  let score :=
    if 0 <? matches_gained stats
    then (score + py_min (inject_Z (matches_gained stats) * 0.1) 0.3)%Q
    else score in
  let session_duration := t - started in
  let score :=
    if session_duration <? 300 then (score - 0.2)%Q
    else if 3600 <? session_duration then (score - 0.1)%Q
    else score in
  Timing.py_max 0.0 (py_min 1.0 score).

(** [start_enhanced_session]: the session state is reset first; the three
    statements of the transaction go through together or not at all, and
    a failure gives the identifier 0. *)
Definition start_enhanced_session (env : Env) (account_id : Z) (w : World)
    : World * Z :=
  let session_start := clock env (now w) in
  let w :=
    with_session (fun _ =>
      {| phase := STARTUP; start_time := Some session_start;
         actions_count := 0; last_break := None;
         request_count := 0; error_count := 0 |}) w in
  if db_available env (now w) then
    let session_id := sessions_sequence (db w) + 1 in
    let row :=
      {| row_account_id := account_id; row_session_start := session_start;
         row_session_end := None; row_session_phase := value STARTUP;
         row_duration_seconds := None; row_requests_made := 0;
         row_likes_sent := 0; row_passes_sent := 0; row_matches_gained := 0;
         row_errors_encountered := 0; row_session_quality_score := None |} in
    let w :=
      with_db (fun d =>
        {| enhanced_sessions := <[session_id := row]> (enhanced_sessions d);
           sessions_sequence := session_id;
           account_status :=
             alter (fun r =>
               {| status_last_session_start := Some session_start;
                  status_last_session_end := status_last_session_end r;
                  status_current_session_phase := value STARTUP;
                  status_session_likes_count := 0;
                  status_total_session_actions := 0;
                  status_request_burst_count := 0;
                  status_liked_me_count := status_liked_me_count r;
                  status_last_liked_me_check := status_last_liked_me_check r;
                  status_last_liked_me_check_count := status_last_liked_me_check_count r |})
               account_id (account_status d);
           accounts :=
             alter (fun r =>
               {| acct_status := acct_status r; acct_ban_score := acct_ban_score r;
                  acct_session_count := acct_session_count r + 1;
                  acct_total_requests := acct_total_requests r;
                  acct_total_likes := acct_total_likes r |})
               account_id (accounts d) |}) w in
    (w, session_id)
  else (emit (EvLog ERROR (msg_database_error "start_enhanced_session")) w, 0).

(** The [UPDATE enhanced_sessions .. WHERE id = ?] of [end_enhanced_session]. *)
Definition close_row (session_end duration : Z) (cs : CurrentSession)
    (stats : Stats) (quality_score : Q) (r : SessionRow) : SessionRow :=
  {| row_account_id := row_account_id r;
     row_session_start := row_session_start r;
     row_session_end := Some session_end;
     row_session_phase := row_session_phase r;
     row_duration_seconds := Some duration;
     row_requests_made := request_count cs;
     row_likes_sent := likes_sent stats;
     row_passes_sent := passes_sent stats;
     row_matches_gained := matches_gained stats;
     row_errors_encountered := error_count cs;
     row_session_quality_score := Some quality_score |}.

(** [end_enhanced_session]: a session that has no start time, or a
    transaction that fails, leaves an error line and nothing else. *)
Definition end_enhanced_session (env : Env) (config : Config)
    (account_id session_id : Z) (stats : Stats) (w : World) : World :=
  let session_end := clock env (now w) in
  match start_time (current_session w) with
  | None => emit (EvLog ERROR (msg_database_error "end_enhanced_session")) w
  | Some started =>
      let duration := session_end - started in
      let cs := current_session w in
      let quality_score :=
        _calculate_session_quality config cs started (clock env (now w)) stats in
      if db_available env (now w) then
        with_db (fun d =>
          {| enhanced_sessions :=
               alter (close_row session_end duration cs stats quality_score)
                 session_id (enhanced_sessions d);
             sessions_sequence := sessions_sequence d;
             account_status :=
               alter (fun r =>
                 {| status_last_session_start := status_last_session_start r;
                    status_last_session_end := Some session_end;
                    status_current_session_phase := "cooldown";
                    status_session_likes_count := status_session_likes_count r;
                    status_total_session_actions := status_total_session_actions r;
                    status_request_burst_count := status_request_burst_count r;
                    status_liked_me_count := status_liked_me_count r;
                    status_last_liked_me_check := status_last_liked_me_check r;
                    status_last_liked_me_check_count := status_last_liked_me_check_count r |})
                 account_id (account_status d);
             accounts :=
               alter (fun r =>
                 {| acct_status := acct_status r; acct_ban_score := acct_ban_score r;
                    acct_session_count := acct_session_count r;
                    acct_total_requests := acct_total_requests r + request_count cs;
                    acct_total_likes := acct_total_likes r + likes_sent stats |})
                 account_id (accounts d) |}) w
      else emit (EvLog ERROR (msg_database_error "end_enhanced_session")) w
  end.

Definition set_liked_me_count (count : Z) (r : StatusRow) : StatusRow :=
  {| status_last_session_start := status_last_session_start r;
     status_last_session_end := status_last_session_end r;
     status_current_session_phase := status_current_session_phase r;
     status_session_likes_count := status_session_likes_count r;
     status_total_session_actions := status_total_session_actions r;
     status_request_burst_count := status_request_burst_count r;
     status_liked_me_count := count;
     status_last_liked_me_check := status_last_liked_me_check r;
     status_last_liked_me_check_count := status_last_liked_me_check_count r |}.

(** [_update_cached_liked_count] *)
Definition _update_cached_liked_count (env : Env) (account_id count : Z)
    (w : World) : World :=
  if db_available env (now w)
  then with_db (with_status (alter (set_liked_me_count count) account_id)) w
  else emit (EvLog ERROR (msg_database_error "_update_cached_liked_count")) w.

(** [update_liked_me_check] *)
Definition update_liked_me_check (env : Env) (account_id count : Z)
    (w : World) : World :=
  if db_available env (now w)
  then with_db (with_status (alter (fun r =>
         {| status_last_session_start := status_last_session_start r;
            status_last_session_end := status_last_session_end r;
            status_current_session_phase := status_current_session_phase r;
            status_session_likes_count := status_session_likes_count r;
            status_total_session_actions := status_total_session_actions r;
            status_request_burst_count := status_request_burst_count r;
            status_liked_me_count := count;
            status_last_liked_me_check := Some (clock env (now w));
            status_last_liked_me_check_count := count |}) account_id)) w
  else emit (EvLog ERROR (msg_database_error "update_liked_me_check")) w.

(** [_mark_account_banned]: the status change; the token files it also
    moves are outside the core. *)
Definition _mark_account_banned (env : Env) (account_id : Z) (w : World) : World :=
  let w :=
    if db_available env (now w)
    then with_db (with_accounts (alter (fun r =>
           {| acct_status := "banned"; acct_ban_score := 1.0%Q;
              acct_session_count := acct_session_count r;
              acct_total_requests := acct_total_requests r;
              acct_total_likes := acct_total_likes r |}) account_id)) w
    else emit (EvLog ERROR (msg_database_error "_mark_account_banned")) w in
  emit (EvHelper "_mark_account_banned") w.

(** [log_enhanced_activity] *)
Definition log_enhanced_activity (env : Env) (account_id session_id : Z)
    (activity : Activity) (w : World) : World :=
  if db_available env (now w)
  then emit (EvActivity account_id session_id activity) w
  else emit (EvLog ERROR (msg_database_error "log_enhanced_activity")) w.

(** [transition_delays.get((old_phase, new_phase), 'short')] *)
Definition transition_delay (old_phase new_phase : SessionPhase) : string :=
  match old_phase, new_phase with
  | STARTUP, PROFILE_UPDATE => "medium"
  | PROFILE_UPDATE, BROWSING => "long"
  | BROWSING, LIKING => "medium"
  | LIKING, MAINTENANCE => "short"
  | MAINTENANCE, LIKING => "medium"
  | LIKING, COOLDOWN => "long"
  | _, _ => "short"
  end.

(** [transition_session_phase] *)
Definition transition_session_phase (env : Env) (config : Config)
    (new_phase : SessionPhase) (account_id : Z) (w : World) : World :=
  let old_phase := phase (current_session w) in
  if bool_decide (old_phase = new_phase) then w
  else
    let w :=
      with_session (fun cs =>
        {| phase := new_phase; start_time := start_time cs;
           actions_count := actions_count cs; last_break := last_break cs;
           request_count := request_count cs; error_count := error_count cs |}) w in
    let w :=
      if db_available env (now w)
      then with_db (with_status (alter (fun r =>
             {| status_last_session_start := status_last_session_start r;
                status_last_session_end := status_last_session_end r;
                status_current_session_phase := value new_phase;
                status_session_likes_count := status_session_likes_count r;
                status_total_session_actions := status_total_session_actions r;
                status_request_burst_count := status_request_burst_count r;
                status_liked_me_count := status_liked_me_count r;
                status_last_liked_me_check := status_last_liked_me_check r;
                status_last_liked_me_check_count := status_last_liked_me_check_count r |})
             account_id)) w
      else emit (EvLog ERROR (msg_database_error "transition_session_phase")) w in
    adaptive_delay env config (transition_delay old_phase new_phase)
      (ctx_transition old_phase new_phase) 1 w.

(** *** Queue batch processor ([process_all_liked_me_enhanced]) *)

Definition with_users_processed (f : Z -> Z) (st : Stats) : Stats :=
  {| users_processed := f (users_processed st); likes_sent := likes_sent st;
     passes_sent := passes_sent st; matches_gained := matches_gained st;
     api_calls_made := api_calls_made st; cycles_completed := cycles_completed st;
     total_available := total_available st;
     phases_completed := phases_completed st |}.

Definition with_api_calls_made (f : Z -> Z) (st : Stats) : Stats :=
  {| users_processed := users_processed st; likes_sent := likes_sent st;
     passes_sent := passes_sent st; matches_gained := matches_gained st;
     api_calls_made := f (api_calls_made st); cycles_completed := cycles_completed st;
     total_available := total_available st;
     phases_completed := phases_completed st |}.

Definition with_total_available (f : Z -> Z) (st : Stats) : Stats :=
  {| users_processed := users_processed st; likes_sent := likes_sent st;
     passes_sent := passes_sent st; matches_gained := matches_gained st;
     api_calls_made := api_calls_made st; cycles_completed := cycles_completed st;
     total_available := f (total_available st);
     phases_completed := phases_completed st |}.

Definition with_phases_completed (f : list string -> list string) (st : Stats) : Stats :=
  {| users_processed := users_processed st; likes_sent := likes_sent st;
     passes_sent := passes_sent st; matches_gained := matches_gained st;
     api_calls_made := api_calls_made st; cycles_completed := cycles_completed st;
     total_available := total_available st;
     phases_completed := f (phases_completed st) |}.

(** The counters of one page: [batch_likes], [batch_passes], [batch_matches]. *)
Record Batch := {
  batch_likes : Z;
  batch_passes : Z;
  batch_matches : Z;
}.

(** The [# Update stats] block at the end of a page. *)
Definition add_batch (b : Batch) (st : Stats) : Stats :=
  {| users_processed := users_processed st;
     likes_sent := likes_sent st + batch_likes b;
     passes_sent := passes_sent st + batch_passes b;
     matches_gained := matches_gained st + batch_matches b;
     api_calls_made := api_calls_made st;
     cycles_completed := cycles_completed st + 1;
     total_available := total_available st;
     phases_completed := phases_completed st |}.

(** The dictionary that [_process_single_liked_user] returns. *)
Record LikeOutcome := {
  action : option string;
  matched : bool;
  like_success : bool;
}.

Definition add_action (cs : CurrentSession) : CurrentSession :=
  {| phase := phase cs; start_time := start_time cs;
     actions_count := actions_count cs + 1; last_break := last_break cs;
     request_count := request_count cs; error_count := error_count cs |}.

(** Truth value of an identifier: [None] and [""] are false. *)
Definition given (o : option string) : option string :=
  match o with
  | Some s => if String.eqb s "" then None else Some s
  | None => None
  end.

(** [_process_single_liked_user]: every user is liked; an exception of
    the wire client leaves the result as it was when it was raised. *)
Definition _process_single_liked_user (env : Env) (config : Config)
    (account_id session_id : Z) (user_data : UserData) (position total : Z)
    (w : World) : World * LikeOutcome :=
  let result := {| action := None; matched := false; like_success := false |} in
  match given (user_id user_data) with
  | None => (w, result)
  | Some uid =>
      let answer := like_user env (now w) user_data in
      let response_time := response_ms env (now w) in
      let w := emit (EvCall (call_like_user user_data (user_traveling_in_likes config))) w in
      match answer with
      | throws => (emit (EvLog ERROR (msg_liked_user_error uid)) w, result)
      | answers success =>
          let matched := match success with like_match => true | _ => false end in
          let actual_success := match success with like_False => false | _ => true end in
          let result :=
            {| action := Some "like"; matched := matched;
               like_success := actual_success |} in
          let w :=
            log_enhanced_activity env account_id session_id
              {| activity_type := "like"; target_user_id := Some uid;
                 activity_success := actual_success; timing_ms := response_time;
                 request_pattern := "liked_me_processing";
                 activity_phase := value (phase (current_session w)) |} w in
          if matched then
            let answer := get_updates env (now w) in
            let w := emit (EvCall call_get_updates) w in
            match answer with
            | throws => (emit (EvLog ERROR (msg_liked_user_error uid)) w, result)
            | answers _ => (with_session add_action w, result)
            end
          else (with_session add_action w, result)
      end
  end.

(** The counters of the page after one user. *)
Definition count_action (result : LikeOutcome) (b : Batch) : Batch :=
  if bool_decide (action result = Some "like") then
    {| batch_likes := batch_likes b + 1; batch_passes := batch_passes b;
       batch_matches := if matched result then batch_matches b + 1 else batch_matches b |}
  else if bool_decide (action result = Some "pass") then
    {| batch_likes := batch_likes b; batch_passes := batch_passes b + 1;
       batch_matches := batch_matches b |}
  else b.

(** [for i, user_data in enumerate(new_users, 1)].  [time.sleep] raises on
    a negative duration and [EvSleep] does not: the model follows the
    source where the configured delays are not negative. *)
Fixpoint like_loop (env : Env) (config : Config) (account_id session_id : Z)
    (session_end_time total : Z) (todo : list UserData) (i : Z)
    (st : World * Stats * Batch) : World * Stats * Batch :=
  match todo with
  | [] => st
  | user_data :: todo' =>
      let '(w, stats, batch) := st in
      if (session_end_time <=? clock env (now w)) || negb (running_at env (now w))
      then st
      else
        let '(w, result) :=
          _process_single_liked_user env config account_id session_id
            user_data i total w in
        let batch := count_action result batch in
        let stats := with_users_processed (Z.add 1) stats in
        if max_likes_per_session config <=? likes_sent stats + batch_likes batch
        then (w, stats, batch)
        else
          let w :=
            if bool_decide (action result ∈ [Some "like"; Some "pass"])
            then emit (EvSleep (default 0.1%Q (delay_between_likes config))) w
            else w in
          like_loop env config account_id session_id session_end_time total
            todo' (i + 1) (w, stats, batch)
  end.

(** The filter of a page: the users that have an identifier not seen in
    this run, and the set of identifiers seen after the page. *)
Fixpoint new_users_of (liked_users : list UserData)
    (processed_user_ids : gset string) : list UserData * gset string :=
  match liked_users with
  | [] => ([], processed_user_ids)
  | user_data :: rest =>
      match given (user_id user_data) with
      | Some uid =>
          if bool_decide (uid ∈ processed_user_ids)
          then new_users_of rest processed_user_ids
          else
            let '(new_users, seen) :=
              new_users_of rest ({[uid]} ∪ processed_user_ids) in
            (user_data :: new_users, seen)
      | None => new_users_of rest processed_user_ids
      end
  end.

Section Batch.
Context (env : Env) (config : Config) (account_id session_id : Z)
        (session_end_time : Z).

Definition on_world (f : World -> World) : M (World * Stats) unit :=
  modify (fun s => (f s.1, s.2)).

Definition on_stats (f : Stats -> Stats) : M (World * Stats) unit :=
  modify (fun s => (s.1, f s.2)).

(** A call on a collaborator: the answer of the oracle at this time, and
    the event of the call. *)
Definition ask {A} (oracle : nat -> reply A) (e : Event) : M (World * Stats) A :=
  fun s => ((emit e s.1, s.2), of_reply (oracle (now s.1))).

Definition call {A} (oracle : nat -> reply A) (c : ApiCall) : M (World * Stats) A :=
  ask oracle (EvCall c).

(** [for i in range(random.randint(1, 3))]: the count is read, and the
    last answer that is not [None] is kept. *)
Fixpoint count_loop (todo : nat) : M (World * Stats) unit :=
  match todo with
  | O => mret tt
  | S todo' =>
      liked_me_count ← call (liked_me_count_reply env) call_liked_me_count;
      on_stats (with_api_calls_made (Z.add 1));;
      match liked_me_count with
      | Some count => on_stats (with_total_available (fun _ => count))
      | None => mret tt
      end;;
      count_loop todo'
  end.

(** One page: what follows the fetch and its delay.  The result tells
    whether the [while] loop goes on. *)
Definition page_body (cycle_number : Z) (liked_users : option (list UserData))
    (batch_time : Z) (processed_user_ids : gset string)
    : M (World * Stats) (option (gset string)) :=
  match liked_users with
  | None | Some [] => mret None
  | Some liked_users =>
      let '(new_users, processed_user_ids) :=
        new_users_of liked_users processed_user_ids in
      match new_users with
      | [] => mret None
      | _ =>
          fun s =>
          let '(w, stats) := s in
          let w :=
            log_enhanced_activity env account_id session_id
              {| activity_type := "liked_me_batch"; target_user_id := None;
                 activity_success := true; timing_ms := batch_time;
                 request_pattern := "liked_me_fetch";
                 activity_phase := value (phase (current_session w)) |} w in
          let '(w, stats, batch) :=
            like_loop env config account_id session_id session_end_time
              (Z.of_nat (length new_users)) new_users 1
              (w, stats, {| batch_likes := 0; batch_passes := 0; batch_matches := 0 |}) in
          let stats := add_batch batch stats in
          if max_likes_per_session config <=? likes_sent stats
          then ((w, stats), Returns None)
          else if negb (default true (process_all_liked_me config))
          then ((w, stats), Returns None)
          else if total_available stats - users_processed stats <=? 0
          then ((w, stats), Returns None)
          else ((w, stats), Returns (Some processed_user_ids))
      end
  end.

(** [while datetime.now() < session_end_time and self.running]; the page
    token is never set, so every fetch asks for the first page. *)
Fixpoint page_loop (fuel : nat) (cycle_number : Z)
    (processed_user_ids : gset string) : M (World * Stats) unit :=
  match fuel with
  | O => fun s => (s, OutOfFuel)
  | S fuel' => fun s =>
      if (clock env (now s.1) <? session_end_time) && running_at env (now s.1)
      then
        (let cycle_number := cycle_number + 1 in
         batch_time ← gets (fun s => response_ms env (now s.1));
         liked_users ←
           call (liked_me env)
             (call_liked_me (default 100 (liked_me_count_per_request config)) None);
         on_stats (with_api_calls_made (Z.add 1));;
         on_world (emit (EvSleep (default 0.5%Q (delay_after_page_fetch config))));;
         continue ← page_body cycle_number liked_users batch_time processed_user_ids;
         match continue with
         | None => mret tt
         | Some processed_user_ids => page_loop fuel' cycle_number processed_user_ids
         end) s
      else (s, Returns tt)
  end.

(** The body of the [try] block. *)
Definition liked_me_run (fuel : nat) : M (World * Stats) unit :=
  todo ← gets (fun s => Z.to_nat (randint env (now s.1) 1 3));
  count_loop todo;;
  stats ← gets snd;
  if total_available stats =? 0 then
    on_world (_update_cached_liked_count env account_id 0)
  else
    page_loop fuel 0 ∅;;
    stats ← gets snd;
    let remaining_count := total_available stats - users_processed stats in
    on_world (_update_cached_liked_count env account_id (Z.max 0 remaining_count)).

(** [process_all_liked_me_enhanced]: [stats] is returned on every path,
    as the [except] clause finds it. *)
Definition process_all_liked_me_enhanced (fuel : nat) (w : World)
    : World * outcome Stats :=
  match catch (liked_me_run fuel)
              (on_world (emit (EvLog ERROR msg_liked_me_error))) (w, no_stats) with
  | ((w, stats), Returns _) => (w, Returns stats)
  | ((w, stats), Raises) => (w, Returns stats)
  | ((w, stats), OutOfFuel) => (w, OutOfFuel)
  end.

End Batch.

(** *** Session orchestrator ([process_single_account_enhanced]) *)

Section Orchestrator.
Context (env : Env) (config : Config)
        (REQUEST_PATTERNS : gmap string (list RequestPattern)).

(** The [# Merge stats] block. *)
Definition merge_stats (like_stats session_stats : Stats) : Stats :=
  {| users_processed := users_processed session_stats + users_processed like_stats;
     likes_sent := likes_sent session_stats + likes_sent like_stats;
     passes_sent := passes_sent session_stats + passes_sent like_stats;
     matches_gained := matches_gained session_stats + matches_gained like_stats;
     api_calls_made := api_calls_made session_stats + api_calls_made like_stats;
     cycles_completed := cycles_completed session_stats;
     total_available := total_available session_stats;
     phases_completed := phases_completed session_stats ++ ["liking"] |}.

(** [self.end_enhanced_session(account_id, session_id, session_stats)] *)
Definition finish (account_id session_id : Z) : M (World * Stats) unit :=
  modify (fun s => (end_enhanced_session env config account_id session_id s.2 s.1, s.2)).

(** Profile-update phase: the transition, the update, the delay. *)
Definition profile_update_phase (account_id : Z) : M (World * Stats) unit :=
  on_world (transition_session_phase env config PROFILE_UPDATE account_id);;
  profile_updated ←
    ask (smart_update_profile_enhanced env) (EvHelper "smart_update_profile_enhanced");
  (if profile_updated : bool
   then on_world (adaptive_delay env config "long" (ctx_text "after profile update") 1.5%Q)
   else mret tt);;
  on_stats (with_phases_completed (fun l => l ++ ["profile_update"])).

(** Liking phase: the transition and the queue batch processor. *)
Definition liking_phase (fuel : nat) (account_id session_id session_end_time : Z)
    : M (World * Stats) unit :=
  on_world (transition_session_phase env config LIKING account_id);;
  like_stats ←
    (fun s =>
       let '(w, r) :=
         process_all_liked_me_enhanced env config account_id session_id
           session_end_time fuel s.1 in
       ((w, s.2), r));
  on_stats (merge_stats like_stats).

(** From [# PHASE 2] to the end of the [try] block; [liked_me_count] may be
    [None], and comparing [None] with [0] raises a [TypeError]. *)
Definition update_and_like (fuel : nat) (account : Account)
    (session_id session_end_time : Z) (liked_me_count : option Z)
    : M (World * Stats) unit :=
  needs_update ←
    ask (fun t => answers (_profile_needs_update env t)) (EvHelper "_profile_needs_update");
  (if needs_update : bool then profile_update_phase (id account) else mret tt);;
  (if like_users_who_liked_me config then
     match liked_me_count with
     | None => raise
     | Some count =>
         if 0 <? count
         then liking_phase fuel (id account) session_id session_end_time
         else mret tt
     end
   else mret tt);;
  session_stats ← gets snd;
  if (0 <? users_processed session_stats)
     && match given (assigned_username account), given (assigned_city account) with
        | Some username, Some city =>
            negb (String.eqb username "Unknown") && negb (String.eqb city "Unknown")
        | _, _ => false
        end
  then on_world (emit (EvHelper "track_username_usage"));;
       on_world (emit (EvHelper "check_username_completion"))
  else mret tt.

(** The [try] block. *)
Definition session_body (fuel : nat) (account : Account)
    (session_id session_end_time : Z) : M (World * Stats) unit :=
  let account_id := id account in
  on_world (transition_session_phase env config STARTUP account_id);;
  startup_result ←
    (fun s =>
       let '(w, r) :=
         execute_request_pattern env config REQUEST_PATTERNS "startup"
           account_id session_id s.1 in
       ((w, s.2), Returns r));
  match startup_result with
  | unknown_pattern => raise
  | pattern_results startup_result =>
      on_stats (with_api_calls_made (Z.add (requests_made startup_result)));;
      on_stats (with_phases_completed (fun l => l ++ ["startup"]));;
      if negb (success startup_result) || (2 <? errors startup_result)
      then mret tt
      else
        profile_data ← call (profile env) call_profile;
        match profile_data with
        | None => finish account_id session_id
        | Some profile_data =>
            if negb (is_gold profile_data) then
              on_world (_mark_account_banned env account_id);;
              finish account_id session_id
            else
              fresh_count ← call (liked_me_count_reply env) call_liked_me_count;
              liked_me_count ←
                match fresh_count with
                | Some count =>
                    if negb (bool_decide (Some count = liked_me_count account))
                    then on_world (_update_cached_liked_count env account_id count);;
                         mret (Some count)
                    else mret (liked_me_count account)
                | None => mret (liked_me_count account)
                end;
              if bool_decide (liked_me_count = Some 0) then
                should_check ← gets (fun s => should_check_likes_for_account env (now s.1));
                if should_check : bool then
                  liked_me_count ← call (liked_me_count_reply env) call_liked_me_count;
                  match liked_me_count with
                  | Some count => on_world (update_liked_me_check env account_id count)
                  | None => mret tt
                  end;;
                  update_and_like fuel account session_id session_end_time liked_me_count
                else
                  profile_update_phase account_id;;
                  finish account_id session_id
              else
                update_and_like fuel account session_id session_end_time liked_me_count
        end
  end.

(** The state in which the [try] block is entered, for a session that
    started and an API object that was built. *)
Definition session_entry (account : Account) (w : World) : World * Stats :=
  (emit (EvCall call_initialize) (start_enhanced_session env (id account) w).1,
   no_stats).

(** [session_end_time], fixed before the API object is built.
    [random.randint] raises when its lower bound lies above the upper one
    and [randint] does not: the model follows the source where the
    configured bounds are in order. *)
Definition end_time_of (account : Account) (w : World) : Z :=
  let w := (start_enhanced_session env (id account) w).1 in
  clock env (now w)
  + randint env (now w) (default 600 (session_duration_min config))
      (default 1800 (session_duration_max config)).

(** [process_single_account_enhanced]: [except] logs, [finally] ends the
    session. *)
Definition process_single_account_enhanced (fuel : nat) (account : Account)
    (w : World) : World * outcome unit :=
  let account_id := id account in
  let '(w1, session_id) := start_enhanced_session env account_id w in
  if session_id =? 0 then (w1, Returns tt)
  else
    let session_end_time := end_time_of account w in
    let api := initialize_api env (now w1) in
    if negb api then
      (end_enhanced_session env config account_id session_id no_stats
         (emit (EvCall call_initialize) w1), Returns tt)
    else
      let '((w2, session_stats), r) :=
        catch (session_body fuel account session_id session_end_time)
              (on_world (emit (EvLog ERROR (msg_processing_error account_id))))
              (session_entry account w) in
      (end_enhanced_session env config account_id session_id session_stats w2,
       match r with OutOfFuel => OutOfFuel | _ => Returns tt end).

End Orchestrator.

End Bot.

(** ** The request schedule, as the specification words it *)

Module Schedule.
Import Bot.

(** What the executor does on the wire and on the clock. *)
Inductive Step :=
| wire_call (endpoint method : string)
| pause (delay_type : string) (context : Context).

Definition observe (e : Event) : option Step :=
  match e with
  | EvRequest endpoint method => Some (wire_call endpoint method)
  | EvDelay delay_type context _ => Some (pause delay_type context)
  | _ => None
  end.

(** The log lines of failed requests. *)
Definition failure_line (e : Event) : bool :=
  match e with
  | EvLog WARNING (msg_critical_failed _) => true
  | EvLog DEBUG (msg_noncritical_failed _) => true
  | _ => false
  end.

Definition is_wire_call (s : Step) : bool :=
  match s with wire_call _ _ => true | _ => false end.

Definition is_micro_pause (s : Step) : bool :=
  match s with pause delay_type _ => String.eqb delay_type "micro" | _ => false end.

(** The calls of one step as the specification has them: [todo] calls,
    numbered from [repeat], and a micro delay between two of them. *)
Fixpoint burst_from (p : RequestPattern) (todo : nat) (repeat : Z) : list Step :=
  match todo with
  | O => []
  | S todo' =>
      wire_call (endpoint p) (method p)
      :: match todo' with
         | O => []
         | S _ => [pause "micro" (ctx_repeat (endpoint p) (repeat + 1))]
         end
      ++ burst_from p todo' (repeat + 1)
  end.

Definition burst (p : RequestPattern) : list Step :=
  burst_from p (Z.to_nat (repeat_count p)) 0.

(** The delay after a step: none after a step equal to the last one. *)
Definition after_step (patterns : list RequestPattern) (p : RequestPattern)
    : list Step :=
  if negb (pattern_eqb p (default p (last patterns)))
  then [pause (if critical p then "short" else "micro") (ctx_after (endpoint p))]
  else [].

Definition schedule (patterns : list RequestPattern) : list Step :=
  flat_map (fun p => burst p ++ after_step patterns p) patterns.

Definition calls_of (patterns : list RequestPattern) : Z :=
  foldr (fun p n => Z.of_nat (Z.to_nat (repeat_count p)) + n) 0 patterns.

(** How a piece of the run extends the trace and the counters. *)
Definition extends (st st' : World * Results) (steps : list Step) (calls : Z) : Prop :=
  ∃ evs, trace st'.1 = trace st.1 ++ evs
       ∧ omap observe evs = steps
       ∧ requests_made st'.2 = requests_made st.2 + calls
       ∧ errors st'.2 = errors st.2 + Z.of_nat (length (filter failure_line evs))
       ∧ success st'.2 = success st.2.

End Schedule.

(** ** What the batch processor and the orchestrator leave behind *)

Module Observed.
Import Bot.

(** The user of a like call. *)
Definition liked_user (e : Event) : option UserData :=
  match e with
  | EvCall (call_like_user target _) => Some target
  | _ => None
  end.



(** A page that brings nothing new: every identifier in it was seen. *)
Definition all_seen (page : list UserData) (processed_user_ids : gset string) : Prop :=
  Forall (fun user_data =>
            ∀ uid, given (user_id user_data) = Some uid → uid ∈ processed_user_ids)
         page.




(** The configured bounds of the session duration as [random.randint] and
    [timedelta] take them: not negative, in order, and a day at most. *)
Definition usable_durations (config : Config) : Prop :=
  0 <= default 600 (session_duration_min config)
  ∧ default 600 (session_duration_min config)
    <= default 1800 (session_duration_max config)
  ∧ default 1800 (session_duration_max config) <= 86400.

(** The session [session_id] is on record next to the rows [rows] that
    were there before it, and the session state has a start time. *)
Definition on_record (session_id account_id : Z) (rows : gmap Z SessionRow)
    (w : World) : Prop :=
  is_Some (start_time (current_session w))
  ∧ ∃ row, enhanced_sessions (db w) = <[session_id := row]> rows
           ∧ row_account_id row = account_id.

(** A step of the run keeps a property of the state. *)
Definition stable (P : World → Prop) (f : World → World) : Prop :=
  ∀ w, P w → P (f w).

(** A computation keeps a property of the state, however it ends. *)
Definition keeps {A} (P : World → Prop) (m : M (World * Stats) A) : Prop :=
  ∀ s, P s.1 → P (m s).1.1.

End Observed.

(** ** Sample inputs *)

Module Sample.
Import Bot.

(** The configuration that the defaults of [__init__] give. *)
Definition config : Config :=
  {| realistic_timing_variance := None; detailed_logging := None;
     log_request_timings := None; ban_detection_sensitivity := None;
     liked_me_count_per_request := None; delay_after_page_fetch := None;
     delay_between_likes := None; process_all_liked_me := None;
     session_duration_min := None; session_duration_max := None;
     max_likes_per_session := 10; user_traveling_in_likes := true;
     like_users_who_liked_me := true |}.

Definition status_row : StatusRow :=
  {| status_last_session_start := None; status_last_session_end := None;
     status_current_session_phase := "cooldown";
     status_session_likes_count := 0; status_total_session_actions := 0;
     status_request_burst_count := 0; status_liked_me_count := 25;
     status_last_liked_me_check := None;
     status_last_liked_me_check_count := 0 |}.

Definition account_row : AccountRow :=
  {| acct_status := "active"; acct_ban_score := 0%Q; acct_session_count := 0;
     acct_total_requests := 0; acct_total_likes := 0 |}.

(** A database with account 1 and no session yet. *)
Definition database : Db :=
  {| enhanced_sessions := ∅; sessions_sequence := 0;
     account_status := {[ 1 := status_row ]};
     accounts := {[ 1 := account_row ]} |}.

(** The state that [__init__] leaves. *)
Definition world : World :=
  {| trace := [];
     current_session :=
       {| phase := STARTUP; start_time := None; actions_count := 0;
          last_break := None; request_count := 0; error_count := 0 |};
     db := database |}.

Definition account : Account :=
  {| id := 1; device_id := "device-0001"; assigned_city := Some "Lyon";
     assigned_username := Some "sam"; liked_me_count := Some 25 |}.

(** A queue entry whose identifier is the character of code [65 + k]. *)
Definition user (k : nat) : UserData :=
  {| user_id := Some (String (ascii_of_nat (65 + k)) "");
     photo_id := None; content_hash := None; s_number := None |}.

(** A queue of 25 users, all different. *)
Definition queue : list UserData := user <$> seq 0 25.

Definition draws : Timing.Draws :=
  {| Timing.draw_min := 1 # 2; Timing.draw_max := 1 # 2;
     Timing.draw_uniform := 1 # 2 |}.

(** A quiet run: no stop signal, a clock that stays at 0, a database that
    works, every request and every like a success, a queue of 25. *)
Definition env : Env :=
  {| running_at := fun _ => true;
     clock := fun _ => 0;
     draws_at := fun _ => draws;
     db_available := fun _ => true;
     request_ok := fun _ _ _ => true;
     response_ms := fun _ => 120;
     randint := fun _ a _ => a;
     initialize_api := fun _ => true;
     profile := fun _ => answers (Some {| is_gold := true; gold_expires_at := None |});
     liked_me_count_reply := fun _ => answers (Some 25);
     liked_me := fun _ => answers (Some queue);
     like_user := fun _ _ => answers like_True;
     get_updates := fun _ => answers tt;
     should_check_likes_for_account := fun _ => true;
     _profile_needs_update := fun _ => true;
     smart_update_profile_enhanced := fun _ => answers true |}.

(** The same run, but the profile update raises. *)
Definition env_update_raises : Env :=
  {| running_at := running_at env; clock := clock env; draws_at := draws_at env;
     db_available := db_available env; request_ok := request_ok env;
     response_ms := response_ms env; randint := randint env;
     initialize_api := initialize_api env; profile := profile env;
     liked_me_count_reply := liked_me_count_reply env; liked_me := liked_me env;
     like_user := like_user env; get_updates := get_updates env;
     should_check_likes_for_account := should_check_likes_for_account env;
     _profile_needs_update := _profile_needs_update env;
     smart_update_profile_enhanced := fun _ => throws |}.

(** The identifiers of the queue. *)
Definition seen : gset string :=
  list_to_set (omap (fun user_data => given (user_id user_data)) queue).

(** A patient configuration: up to 100 likes in a session. *)
Definition patient_config : Config :=
  {| realistic_timing_variance := None; detailed_logging := None;
     log_request_timings := None; ban_detection_sensitivity := None;
     liked_me_count_per_request := None; delay_after_page_fetch := None;
     delay_between_likes := None; process_all_liked_me := None;
     session_duration_min := None; session_duration_max := None;
     max_likes_per_session := 100; user_traveling_in_likes := true;
     like_users_who_liked_me := true |}.

(** The remote count says 25, but every fetch returns the same two users. *)
Definition env_two_users : Env :=
  {| running_at := running_at env; clock := clock env; draws_at := draws_at env;
     db_available := db_available env; request_ok := request_ok env;
     response_ms := response_ms env; randint := randint env;
     initialize_api := initialize_api env; profile := profile env;
     liked_me_count_reply := liked_me_count_reply env;
     liked_me := fun _ => answers (Some [user 0; user 1]);
     like_user := like_user env; get_updates := get_updates env;
     should_check_likes_for_account := should_check_likes_for_account env;
     _profile_needs_update := _profile_needs_update env;
     smart_update_profile_enhanced := smart_update_profile_enhanced env |}.



(** A response that names the reason. *)
Definition disabled_response : Response :=
  {| str := "{'error': 'account_disabled'}"; is_empty := false |}.

End Sample.

(** ** The keys of the request headers *)

Module HeaderKeys.

(** The keys that the part of [headers] after the base dictionary may set
    or delete. *)
Definition later_keys : list string :=
  ["x-auth-token"; "user-session-id"; "user-session-time-elapsed";
   "x-correlation-id"; "appsflyer-id"; "advertising-id"; "funnel-session-id";
   "Content-Type"; "support-short-video"; "connection-speed"; "x-request-id";
   "x-hubble-entity-id"; "x-hubble-network-id"].

End HeaderKeys.

(** ** The login call ([TinderApi.auth_login]) *)

Module Login.
Import PyBytes LoginCodec.

(** What [requests_go.post] is called with. *)
Record PostRequest := {
  url : string;
  post_headers : gmap string string;
  data : bytes;
}.

(** What it gives back: [response.status_code] and [response.content]. *)
Record PostResponse := {
  status_code : Z;
  content : bytes;
}.

(** The client: the attributes that [headers] reads, and the refresh
    token, which the account row may leave at [None]. *)
Record Client := {
  api : Headers.TinderApi;
  refresh_token : option string;
}.

(** [self.auth_token = token] *)
Definition set_auth_token (token : string) (a : Headers.TinderApi) : Headers.TinderApi :=
  {| Headers.auth_token := Some token;
     Headers.os_version := Headers.os_version a;
     Headers.device_ram := Headers.device_ram a;
     Headers.persistent_device_id := Headers.persistent_device_id a;
     Headers.install_id := Headers.install_id a;
     Headers.appsflyer_id := Headers.appsflyer_id a;
     Headers.advertising_id := Headers.advertising_id a;
     Headers.app_session_id := Headers.app_session_id a;
     Headers.user_session_id := Headers.user_session_id a;
     Headers.hubble_network_id := Headers.hubble_network_id a;
     Headers.funnel_session_id := Headers.funnel_session_id a;
     Headers.x_request_id := Headers.x_request_id a;
     Headers.x_hubble_entity_id := Headers.x_hubble_entity_id a |}.

(** What one call leaves: the client, the dictionary returned ([None]
    when the login failed) and the request that went out, if any. *)
Record LoginRun := {
  client : Client;
  returned : option LoginFields;
  sent : option PostRequest;
}.

(** The body of the [try] block once the response is there. *)
Definition on_response (self : Client) (request : PostRequest)
    (response : PostResponse) : outcome LoginRun :=
  if status_code response =? 200 then
    result ← _parse_auth_response_manual (content response);
    match result with
    | LoginOk fields =>
        match auth_token fields with
        | Some token =>
            if negb (String.eqb token "") then
              let self :=
                {| api := set_auth_token token (api self);
                   refresh_token :=
                     if Headers.truthy (LoginCodec.refresh_token fields)
                     then LoginCodec.refresh_token fields
                     else refresh_token self |} in
              mret {| client := self; returned := Some fields; sent := Some request |}
            else mret {| client := self; returned := None; sent := Some request |}
        | None => mret {| client := self; returned := None; sent := Some request |}
        end
    | _ => mret {| client := self; returned := None; sent := Some request |}
    end
  else mret {| client := self; returned := None; sent := Some request |}.

(** The request of a login with the refresh token [token]. *)
Definition login_request (amb : Headers.Ambient) (self : Client) (token : string)
    : PostRequest :=
  {| url := "https://api.gotinder.com/v3/auth/login";
     post_headers := Headers.headers (api self) amb "auth" true;
     data := _encode_refresh_auth_protobuf token |}.

(** [auth_login]: the headers are built before the [try] block; encoding a
    refresh token that is [None] raises, as the call on the wire may, and
    the [except] clause answers [None]. *)
Definition auth_login (post : PostRequest → Bot.reply PostResponse)
    (amb : Headers.Ambient) (self : Client) : outcome LoginRun :=
  match refresh_token self with
  | None => mret {| client := self; returned := None; sent := None |}
  | Some token =>
      let request := login_request amb self token in
      match post request with
      | Bot.throws => mret {| client := self; returned := None; sent := Some request |}
      | Bot.answers response =>
          try_except (on_response self request response)
            (mret {| client := self; returned := None; sent := Some request |})
      end
  end.

End Login.

(** ** One request of a pattern ([_execute_single_request]) *)

Module SingleRequest.
Import Bot.

(** The keys of [endpoint_map]. *)
Definition endpoint_map : list string :=
  ["healthcheck_auth"; "buckets"; "device_check"; "profile_consents"; "profile";
   "inbox_messages"; "matches"; "fast_match_count"; "user_language_preferences";
   "updates"; "profile_meter"; "campaigns"; "push_devices"; "meta_post";
   "profile_feature_access"; "payment_methods"; "my_likes"; "duos";
   "recommendations"; "campaigns_extended"; "subscription_features";
   "fast_match_newcount"; "liked_me_batch"; "fast_match_teaser";
   "received_messages"].

(** What a method of the wire client gives back: [None], a dictionary, or
    a value of another type (a list, [True], [False]), of which only the
    truth value is looked at. *)
Inductive ApiResult :=
| result_None
| result_dict (response : Response)
| result_other (truth : bool).

(** The calls that [_execute_single_request] makes on the client and on
    the bot, in the order it makes them. *)
Inductive Effect :=
| api_call (endpoint : string)
| mark_banned (account_id : Z)         (** [_mark_account_banned] *)
| mark_dead (account_id : Z)           (** [_mark_account_dead_from_id] *)
| check_ban (response : Response).     (** [_check_ban_indicators] *)

(** Truth value of [account_info.get('id')]: [None] and [0] are false. *)
Definition known_account (account_id : option Z) : option Z :=
  match account_id with
  | Some n => if n =? 0 then None else Some n
  | None => None
  end.

(** [result and isinstance(result, dict)] *)
Definition full_dict (result : ApiResult) : option Response :=
  match result with
  | result_dict response => if is_empty response then None else Some response
  | _ => None
  end.

(** [_execute_single_request].  [answer] is what the method of the client
    does when called; [status] is [api._last_response_status] after the
    call, [None] when the attribute is not there; [account_id] is the [id]
    of [self._current_account].  The result is what is returned and the
    calls made. *)
Definition _execute_single_request (answer : reply ApiResult)
    (status : option (option Z)) (account_id : option Z) (endpoint : string)
    : bool * list Effect :=
  if negb (bool_decide (endpoint ∈ endpoint_map)) then (false, [])
  else
    match answer with
    | throws => (false, [api_call endpoint])
    | answers result =>
        if bool_decide (status = Some (Some 403)) then
          (false,
           api_call endpoint
           :: match known_account account_id with
              | Some account_id => [mark_banned account_id]
              | None => []
              end)
        else if bool_decide (status = Some (Some 401)) then
          (false,
           api_call endpoint
           :: match known_account account_id with
              | Some account_id => [mark_dead account_id]
              | None => []
              end)
        else
          match full_dict result with
          | Some response =>
              if Qle_bool 0.8 (ban_indicators response).1 then
                (false,
                 api_call endpoint :: check_ban response
                 :: match known_account account_id with
                    | Some account_id => [mark_banned account_id]
                    | None => []
                    end)
              else (true, [api_call endpoint; check_ban response])
          | None =>
              (match result with result_None => false | _ => true end,
               [api_call endpoint])
          end
    end.

End SingleRequest.

(** ** What a batch run keeps, page after page *)

Module Tally.
Import Bot Observed.

(** The identifiers of the users of the like calls among [evs]. *)
Definition liked_ids (evs : list Event) : list string :=
  omap (fun e => u ← liked_user e; given (user_id u)) evs.

(** The identifiers of a list of users. *)
Definition ids_of (users : list UserData) : list string :=
  omap (fun u => given (user_id u)) users.

(** The test that ends the loops of the batch processor, at time [t]: the
    end of the session is reached or the stop flag is set. *)
Definition stop_at (env : Env) (session_end_time : Z) (t : nat) : bool :=
  (session_end_time <=? clock env t) || negb (running_at env t).

(** What the counters of a batch run satisfy at the end of each page. *)
Definition in_bounds (config : Config) (stats : Stats) : Prop :=
  passes_sent stats = 0
  ∧ 0 <= matches_gained stats <= likes_sent stats
  ∧ likes_sent stats <= users_processed stats
  ∧ likes_sent stats <= Z.max 1 (max_likes_per_session config).

(** The state of a batch run since the trace [t0]: no user identifier was
    liked twice, the identifiers liked are among [processed], and the
    counters are consistent, with at most [bound] likes. *)
Definition tidy (t0 : list Event) (processed : gset string) (bound : Z)
    (s : World * Stats) : Prop :=
  (∃ evs, trace s.1 = t0 ++ evs
          ∧ NoDup (liked_ids evs)
          ∧ length (liked_ids evs) = length (omap liked_user evs)
          ∧ ∀ id, id ∈ liked_ids evs → id ∈ processed)
  ∧ passes_sent s.2 = 0
  ∧ 0 <= matches_gained s.2 <= likes_sent s.2
  ∧ likes_sent s.2 <= users_processed s.2
  ∧ likes_sent s.2 <= bound.

(** What one page does to the state. *)
Record page_effect (env : Env) (config : Config) (session_end_time : Z)
    (processed : gset string) (w : World) (stats : Stats)
    (w' : World) (stats' : Stats) (continue : option (gset string)) : Prop := {
  page_trace : ∃ evs,
    trace w' = trace w ++ evs
    ∧ NoDup (liked_ids evs)
    ∧ length (liked_ids evs) = length (omap liked_user evs)
    ∧ (∀ id, id ∈ liked_ids evs → id ∉ processed)
    ∧ (∀ processed', continue = Some processed' →
         ∀ id, id ∈ processed ∨ id ∈ liked_ids evs → id ∈ processed');
  page_db : db w' = db w;
  page_passes : passes_sent stats' = passes_sent stats;
  page_total : total_available stats' = total_available stats;
  page_counts :
    0 <= matches_gained stats' - matches_gained stats
      <= likes_sent stats' - likes_sent stats
    ∧ likes_sent stats' - likes_sent stats
      <= users_processed stats' - users_processed stats;
  page_bound :
    likes_sent stats <= Z.max 0 (max_likes_per_session config - 1) → likes_sent stats' <= Z.max 1 (max_likes_per_session config);
  page_goes_on :
    is_Some continue →
    likes_sent stats' < max_likes_per_session config
    ∧ 0 < total_available stats' - users_processed stats'
    ∧ (users_processed stats' = users_processed stats →
       stop_at env session_end_time (now w') = true);
}.

End Tally.

(** ** What the executor keeps *)

Module Quiet.
Import Bot Observed.

(** The wire requests among [evs]. *)
Definition requests_of (evs : list Event) : list (string * string) :=
  omap (fun e => match e with
                 | EvRequest endpoint method => Some (endpoint, method)
                 | _ => None
                 end) evs.

(** A step that only adds to the trace, and neither a like call nor a wire
    request: the database and the session state stay as they are. *)
Definition only_logs (f : World → World) : Prop :=
  ∀ w, db (f w) = db w
       ∧ current_session (f w) = current_session w
       ∧ ∃ evs, trace (f w) = trace w ++ evs
                ∧ omap liked_user evs = [] ∧ requests_of evs = [].

(** What a piece of the executor does to the state and to [results]: the
    records stay, and the counters follow the wire requests; [quiet] says
    that every request of the environment succeeds. *)
Definition counted (quiet : Prop) (st st' : World * Results) : Prop :=
  db st'.1 = db st.1
  ∧ current_session st'.1 = current_session st.1
  ∧ success st'.2 = success st.2
  ∧ (∃ evs, trace st'.1 = trace st.1 ++ evs
            ∧ omap liked_user evs = []
            ∧ requests_made st'.2
              = requests_made st.2 + Z.of_nat (length (requests_of evs))
            ∧ length (timings st'.2)
              = (length (timings st.2) + length (requests_of evs))%nat
            ∧ 0 <= errors st'.2 - errors st.2 <= Z.of_nat (length (requests_of evs)))
  ∧ (quiet → errors st'.2 = errors st.2).

End Quiet.

(** ** More sample inputs *)

Module Scenario.
Import Bot.

(** The quiet run of [Sample.env], but the profile is that of a free
    account. *)
Definition env_free_account : Env :=
  {| running_at := running_at Sample.env; clock := clock Sample.env;
     draws_at := draws_at Sample.env; db_available := db_available Sample.env;
     request_ok := request_ok Sample.env; response_ms := response_ms Sample.env;
     randint := randint Sample.env; initialize_api := initialize_api Sample.env;
     profile := fun _ => answers (Some {| is_gold := false; gold_expires_at := None |});
     liked_me_count_reply := liked_me_count_reply Sample.env;
     liked_me := liked_me Sample.env; like_user := like_user Sample.env;
     get_updates := get_updates Sample.env;
     should_check_likes_for_account := should_check_likes_for_account Sample.env;
     _profile_needs_update := _profile_needs_update Sample.env;
     smart_update_profile_enhanced := smart_update_profile_enhanced Sample.env |}.

(** The quiet run, but the service leaves every count unanswered. *)
Definition env_count_unanswered : Env :=
  {| running_at := running_at Sample.env; clock := clock Sample.env;
     draws_at := draws_at Sample.env; db_available := db_available Sample.env;
     request_ok := request_ok Sample.env; response_ms := response_ms Sample.env;
     randint := randint Sample.env; initialize_api := initialize_api Sample.env;
     profile := profile Sample.env;
     liked_me_count_reply := fun _ => answers None;
     liked_me := liked_me Sample.env; like_user := like_user Sample.env;
     get_updates := get_updates Sample.env;
     should_check_likes_for_account := should_check_likes_for_account Sample.env;
     _profile_needs_update := _profile_needs_update Sample.env;
     smart_update_profile_enhanced := smart_update_profile_enhanced Sample.env |}.

(** The quiet run, but the database cannot be reached. *)
Definition env_database_down : Env :=
  {| running_at := running_at Sample.env; clock := clock Sample.env;
     draws_at := draws_at Sample.env; db_available := fun _ => false;
     request_ok := request_ok Sample.env; response_ms := response_ms Sample.env;
     randint := randint Sample.env; initialize_api := initialize_api Sample.env;
     profile := profile Sample.env;
     liked_me_count_reply := liked_me_count_reply Sample.env;
     liked_me := liked_me Sample.env; like_user := like_user Sample.env;
     get_updates := get_updates Sample.env;
     should_check_likes_for_account := should_check_likes_for_account Sample.env;
     _profile_needs_update := _profile_needs_update Sample.env;
     smart_update_profile_enhanced := smart_update_profile_enhanced Sample.env |}.

(** A client with an expired token and a refresh token. *)
Definition client : Login.Client :=
  {| Login.api :=
       {| Headers.auth_token := Some "old-token";
          Headers.os_version := "13"; Headers.device_ram := "8";
          Headers.persistent_device_id := "pd-1"; Headers.install_id := "in-1";
          Headers.appsflyer_id := "af-1"; Headers.advertising_id := "ad-1";
          Headers.app_session_id := "as-1"; Headers.user_session_id := "us-1";
          Headers.hubble_network_id := "hn-1"; Headers.funnel_session_id := "fs-1";
          Headers.x_request_id := "xr-1"; Headers.x_hubble_entity_id := "he-1" |};
     Login.refresh_token := Some "refresh-1" |}.

Definition ambient : Headers.Ambient :=
  {| Headers.elapsed_time := "1.5"; Headers.correlation_id := "c-1";
     Headers.connection_speed := "250" |}.

(** A service that answers every login with a new token and no new
    refresh token. *)
Definition login_answer : Login.PostResponse :=
  {| Login.status_code := 200;
     Login.content := LoginCodec.login_response "new-token" "" "u-1" |}.

Definition post (request : Login.PostRequest) : reply Login.PostResponse :=
  answers login_answer.

(** A dictionary that tells of a rate limit. *)
Definition rate_limit_response : Response :=
  {| str := "{'error': 'too_many_requests'}"; is_empty := false |}.

End Scenario.

(** ** The wire client ([TinderApi._make_request]) *)

Module Wire.

(** What [_make_request] looks at in a response: its truth value, its
    status, and two of its headers.  [retry_after] is [None] when the
    header is not there, [Some None] when [int] raises on its value. *)
Record HttpResponse := {
  truth : bool;
  status_code : Z;
  last_modified : option string;
  retry_after : option (option Z);
}.

(** What [requests_go.request] does when called. *)
Inductive Sent :=
| raises_Timeout                      (** [requests.exceptions.Timeout] *)
| raises_Exception                    (** another exception *)
| gives (response : option HttpResponse).

(** The attributes of the client that [_make_request] reads and writes.
    [_last_response_status] is [None] as long as the attribute is not set,
    [Some None] when it holds [None]. *)
Record Client := {
  last_request_time : Q;
  min_request_interval : Q;
  last_modified_cache : gmap string string;
  consecutive_errors : Z;
  max_consecutive_errors : Z;
  _last_response_status : option (option Z);
}.

(** What is seen from outside: the calls of [requests_go.request], with
    the [If-Modified-Since] header that [_make_request] set, and the calls
    of [time.sleep].  Log lines are left out. *)
Inductive Event :=
| EvSend (method url : string) (if_modified_since : option string)
| EvSleep (seconds : Q).

(** The outside world at the time [n], the number of events so far. *)
Record Env := {
  time : nat → Q;           (** [time.time()] *)
  transport : nat → Sent;
}.

Definition State : Type := Client * list Event.

Definition with_last_request_time (t : Q) (self : Client) : Client :=
  {| last_request_time := t; min_request_interval := min_request_interval self;
     last_modified_cache := last_modified_cache self;
     consecutive_errors := consecutive_errors self;
     max_consecutive_errors := max_consecutive_errors self;
     _last_response_status := _last_response_status self |}.

Definition with_cache (f : gmap string string → gmap string string) (self : Client)
    : Client :=
  {| last_request_time := last_request_time self;
     min_request_interval := min_request_interval self;
     last_modified_cache := f (last_modified_cache self);
     consecutive_errors := consecutive_errors self;
     max_consecutive_errors := max_consecutive_errors self;
     _last_response_status := _last_response_status self |}.

Definition with_consecutive_errors (n : Z) (self : Client) : Client :=
  {| last_request_time := last_request_time self;
     min_request_interval := min_request_interval self;
     last_modified_cache := last_modified_cache self;
     consecutive_errors := n;
     max_consecutive_errors := max_consecutive_errors self;
     _last_response_status := _last_response_status self |}.

Definition with_status (status : option Z) (self : Client) : Client :=
  {| last_request_time := last_request_time self;
     min_request_interval := min_request_interval self;
     last_modified_cache := last_modified_cache self;
     consecutive_errors := consecutive_errors self;
     max_consecutive_errors := max_consecutive_errors self;
     _last_response_status := Some status |}.

(** The client that [__init__] leaves. *)
Definition new_client : Client :=
  {| last_request_time := 0; min_request_interval := 0.1;
     last_modified_cache := ∅; consecutive_errors := 0;
     max_consecutive_errors := 5; _last_response_status := None |}.

Definition sleep (seconds : Q) (st : State) : State := (st.1, st.2 ++ [EvSleep seconds]).

(** [_enforce_rate_limit] *)
Definition _enforce_rate_limit (env : Env) (st : State) : State :=
  let current_time := time env (length st.2) in
  let time_since_last := (current_time - last_request_time st.1)%Q in
  let st :=
    if negb (Qle_bool (min_request_interval st.1) time_since_last)
    then sleep (min_request_interval st.1 - time_since_last)%Q st
    else st in
  (with_last_request_time (time env (length st.2)) st.1, st.2).

Definition is_lower (c : ascii) : bool :=
  (97 <=? nat_of_ascii c)%nat && (nat_of_ascii c <=? 122)%nat.

Definition upper_char (c : ascii) : ascii :=
  if is_lower c then ascii_of_nat (nat_of_ascii c - 32) else c.

(** [s.upper()], on the ASCII letters; no other character becomes one of
    the letters of ["GET"]. *)
Fixpoint upper (s : string) : string :=
  match s with
  | EmptyString => EmptyString
  | String c s' => String (upper_char c) (upper s')
  end.

(** What one turn of the loop ends in: a [return], or the next turn. *)
Inductive Turn :=
| returns_None
| returns_response (response : HttpResponse)
| next_attempt.

(** [if attempt < max_retries - 1: time.sleep(backoff_factor ** attempt)],
    with [max_retries = 3] and [backoff_factor = 2]. *)
Definition backoff (attempt : Z) (st : State) : State :=
  if attempt <? 3 - 1 then sleep (inject_Z (2 ^ attempt)) st else st.

(** The clause [except Exception]. *)
Definition on_exception (attempt : Z) (st : State) : State * Turn :=
  let self := with_consecutive_errors (consecutive_errors st.1 + 1) st.1 in
  if max_consecutive_errors self <=? consecutive_errors self
  then ((with_status None self, st.2), returns_None)
  else (backoff attempt (self, st.2), next_attempt).

(** The body of [for attempt in range(max_retries)].  A response that is
    [None] has no status: reading it raises.  [time.sleep] raises on a
    negative number. *)
Definition attempt_body (env : Env) (method url : string) (attempt : Z) (st : State)
    : State * Turn :=
  let if_modified_since :=
    if String.eqb (upper method) "GET" then last_modified_cache st.1 !! url else None in
  let sent := transport env (length st.2) in
  let st : State := (st.1, st.2 ++ [EvSend method url if_modified_since]) in
  match sent with
  | raises_Timeout => (backoff attempt st, next_attempt)
  | raises_Exception => on_exception attempt st
  | gives None => on_exception attempt (with_status None st.1, st.2)
  | gives (Some response) =>
      let code := status_code response in
      let st : State :=
        (with_status (if truth response then Some code else None) st.1, st.2) in
      let st : State :=
        match last_modified response with
        | Some value =>
            if code =? 200 then (with_cache <[url := value]> st.1, st.2) else st
        | None => st
        end in
      if code =? 200 then
        ((with_consecutive_errors 0 st.1, st.2), returns_response response)
      else if code =? 304 then (st, returns_response response)
      else if code =? 400 then (st, returns_response response)
      else if code =? 401 then (st, returns_None)
      else if code =? 403 then (st, returns_None)
      else if code =? 429 then
        match retry_after response with
        | None => (sleep 60 st, next_attempt)
        | Some None => on_exception attempt st
        | Some (Some seconds) =>
            if seconds <? 0 then on_exception attempt st
            else (sleep (inject_Z seconds) st, next_attempt)
        end
      else if 500 <=? code then (backoff attempt st, next_attempt)
      else (st, returns_response response)
  end.

(** [for attempt in range(max_retries)], the attempts [todo] being left,
    and the two statements behind the loop. *)
Fixpoint attempt_loop (env : Env) (method url : string) (todo : list Z) (st : State)
    : State * option HttpResponse :=
  match todo with
  | [] => ((with_status None st.1, st.2), None)
  | attempt :: todo' =>
      match attempt_body env method url attempt st with
      | (st, returns_None) => (st, None)
      | (st, returns_response response) => (st, Some response)
      | (st, next_attempt) => attempt_loop env method url todo' st
      end
  end.

(** [_make_request]: the client and the events after the call, and what
    is returned. *)
Definition _make_request (env : Env) (method url : string) (st : State)
    : State * option HttpResponse :=
  attempt_loop env method url [0; 1; 2] (_enforce_rate_limit env st).

(** The requests among the events. *)
Definition sends (evs : list Event) : list (string * string * option string) :=
  omap (fun e => match e with
                 | EvSend method url if_modified_since =>
                     Some (method, url, if_modified_since)
                 | _ => None
                 end) evs.

(** The durations slept among the events. *)
Definition sleeps (evs : list Event) : list Q :=
  omap (fun e => match e with EvSleep seconds => Some seconds | _ => None end) evs.

(** What ends a call with [None]: the status was reset to [None], or the
    last answer was a 401 or a 403 whose status was kept. *)
Definition refused (env : Env) (self : Client) : Prop :=
  _last_response_status self = Some None
  ∨ ∃ n response,
      transport env n = gives (Some response)
      ∧ truth response = true
      ∧ (status_code response = 401 ∨ status_code response = 403)
      ∧ _last_response_status self = Some (Some (status_code response)).

(** What a call that returns [response] leaves. *)
Definition answered (env : Env) (url : string) (self : Client)
    (response : HttpResponse) : Prop :=
  (∃ n, transport env n = gives (Some response))
  ∧ status_code response ≠ 401 ∧ status_code response ≠ 403
  ∧ status_code response ≠ 429 ∧ status_code response < 500
  ∧ _last_response_status self
    = Some (if truth response then Some (status_code response) else None)
  ∧ (status_code response = 200 →
     consecutive_errors self = 0
     ∧ ∀ value, last_modified response = Some value →
         last_modified_cache self !! url = Some value).

(** What a step that sends nothing keeps. *)
Definition idle (st st' : State) : Prop :=
  (∃ evs, st'.2 = st.2 ++ evs ∧ sends evs = [])
  ∧ last_modified_cache st'.1 = last_modified_cache st.1
  ∧ max_consecutive_errors st'.1 = max_consecutive_errors st.1.

(** The [If-Modified-Since] header of a request of the client [self]. *)
Definition if_modified_since_of (self : Client) (method url : string) : option string :=
  if String.eqb (upper method) "GET" then last_modified_cache self !! url else None.

End Wire.

(** ** Sample inputs for the wire client *)

Module WireSamples.
Import Wire.


Definition bad_gateway : HttpResponse :=
  {| truth := true; status_code := 502; last_modified := None; retry_after := None |}.

Definition fresh_profile : HttpResponse :=
  {| truth := true; status_code := 200; last_modified := Some "Tue, 03 Nov 2026";
     retry_after := None |}.


(** A service whose gateway is down. *)
Definition env_server_down : Env :=
  {| time := fun _ => 1000%Q; transport := fun _ => gives (Some bad_gateway) |}.

(** A service that answers every request with a dated profile. *)
Definition env_fresh : Env :=
  {| time := fun _ => 1000%Q; transport := fun _ => gives (Some fresh_profile) |}.

(** A transport that raises on every call. *)
Definition env_broken : Env :=
  {| time := fun _ => 1000%Q; transport := fun _ => raises_Exception |}.

(** A client that has seen four errors in a row. *)
Definition weary_client : Client :=
  with_consecutive_errors 4 new_client.

End WireSamples.

(** * Properties *)

(** ** Request headers *)

Section HeadersFacts.
Import Headers.

(** A string literal is not in a list of other literals. *)
Ltac not_among :=
  let Hin := fresh "Hin" in
  intros Hin;
  repeat (apply elem_of_cons in Hin as [Hin|Hin]; [discriminate Hin|]);
  by apply elem_of_nil in Hin.

(** C10.  Whatever the credentials of the client and whatever
    [include_correlation] is, the headers of an ["auth"] request have the
    protobuf content type and carry neither the authentication token nor
    the two user-session headers. *)
Theorem headers_auth_carries_no_credentials (self : TinderApi) (amb : Ambient)
    (include_correlation : bool) :
  let h := headers self amb "auth" include_correlation in
  h !! "Content-Type" = Some "application/x-protobuf"
  ∧ h !! "x-auth-token" = None
  ∧ h !! "user-session-id" = None
  ∧ h !! "user-session-time-elapsed" = None.
Proof.
  cbv zeta. unfold headers.
  replace (bool_decide ("auth" ∈ ["auth"; "healthcheck"; "buckets_initial"]))
    with true by (symmetry; apply bool_decide_eq_true; set_solver).
  replace (bool_decide ("auth" ∈ ["healthcheck"; "auth"]))
    with true by (symmetry; apply bool_decide_eq_true; set_solver).
  rewrite !andb_false_r. cbn [negb].
  change (("auth" =? "auth")%string) with true. cbv iota.
  unfold update. cbn [foldl fst snd].
  split; [|split; [|split]].
  - rewrite !lookup_delete_ne by done. by rewrite lookup_insert_eq.
  - rewrite !lookup_delete_ne by done. by rewrite lookup_delete_eq.
  - rewrite lookup_delete_ne by done. by rewrite lookup_delete_eq.
  - by rewrite lookup_delete_eq.
Qed.

(** The other endpoint types do carry the token of an authenticated client. *)
Example headers_profile_carries_token (self : TinderApi) (amb : Ambient) token :
  auth_token self = Some token → token ≠ ""%string →
  headers self amb "profile" true !! "x-auth-token" = Some token.
Proof.
  intros Htok Hne. unfold headers, truthy. rewrite Htok.
  apply String.eqb_neq in Hne. rewrite Hne.
  replace (bool_decide ("profile" ∈ ["auth"; "healthcheck"; "buckets_initial"]))
    with false by (symmetry; apply bool_decide_eq_false; not_among).
  replace (bool_decide ("profile" ∈ ["healthcheck"; "auth"]))
    with false by (symmetry; apply bool_decide_eq_false; not_among).
  cbn -[lookup insert update delete].
  unfold update. cbn [foldl fst snd].
  rewrite !lookup_insert_ne by done. by rewrite lookup_insert_eq.
Qed.

End HeadersFacts.

(** ** Ban classifier *)

Section BanFacts.
Import PyStr Bot.

Lemma lower_app a b : lower (a ++ b) = (lower a ++ lower b)%string.
Proof. induction a as [|c a IH]; simpl; [done|]. by rewrite IH. Qed.

Lemma startswith_app needle rest : startswith needle (needle ++ rest) = true.
Proof.
  induction needle as [|c n IH]; simpl; [done|].
  by rewrite Ascii.eqb_refl, IH.
Qed.

Lemma startswith_inv needle s :
  startswith needle s = true → ∃ rest, s = (needle ++ rest)%string.
Proof.
  revert s. induction needle as [|c n IH]; intros s H; simpl in *.
  - by exists s.
  - destruct s as [|d s]; [done|].
    apply andb_true_iff in H as [Hc Hs]. apply Ascii.eqb_eq in Hc as ->.
    destruct (IH _ Hs) as [rest ->]. by exists rest.
Qed.

Lemma contains_startswith needle s :
  startswith needle s = true → contains needle s = true.
Proof. intros H. destruct s; simpl; by rewrite H. Qed.

(** [contains] is the substring test. *)
Lemma contains_spec needle haystack :
  contains needle haystack = true ↔
  ∃ a b, haystack = (a ++ needle ++ b)%string.
Proof.
  split.
  - induction haystack as [|c h IH]; simpl; intros H.
    + rewrite orb_false_r in H. apply startswith_inv in H as [rest ->].
      by exists ""%string, rest.
    + apply orb_true_iff in H as [H|H].
      * apply startswith_inv in H as [rest ->]. by exists ""%string, rest.
      * destruct (IH H) as (a & b & ->). by exists (String c a), b.
  - intros (a & b & ->). induction a as [|c a IH]; simpl.
    + exact (contains_startswith _ _ (startswith_app needle b)).
    + by rewrite IH, orb_true_r.
Qed.

Local Open Scope Q_scope.

(** C6.  A response whose string form contains ["account_disabled"] gets a
    score of at least 0.8, the threshold at which the account is marked as
    banned (the score is even 1 at least); the empty response gets 0.2,
    which is below the threshold. *)
Theorem ban_score_of_account_disabled (config : Config) (response : Response)
    (w : World) (a b : string) :
  str response = (a ++ "account_disabled" ++ b)%string →
  0.8 <= (_check_ban_indicators config response w).2
  ∧ 1 <= (_check_ban_indicators config response w).2
  ∧ (_check_ban_indicators config empty_response w).2 == 0.2
  ∧ (_check_ban_indicators config empty_response w).2 < 0.8.
Proof.
  intros Hstr.
  assert (Hc : contains (lower "account_disabled") (lower (str response)) = true).
  { apply contains_spec. exists (lower a), (lower b).
    by rewrite Hstr, !lower_app. }
  assert (Hone : 1 <= (_check_ban_indicators config response w).2).
  { unfold _check_ban_indicators, ban_indicators, BAN_INDICATORS.
    cbn [foldl]. unfold check_indicator. rewrite Hc.
    repeat match goal with
    | |- context [contains ?n ?h] => destruct (contains n h)
    end; cbn [fst snd orb]; destruct (is_empty response);
    match goal with |- context [if ?c then _ else _] => destruct c end;
    vm_compute; discriminate. }
  split; [|split; [exact Hone|split]].
  - apply Qle_trans with 1; [by vm_compute|exact Hone].
  - by vm_compute.
  - by vm_compute.
Qed.

Lemma ban_score_of_account_disabled_witness :
  0.8 <= (_check_ban_indicators Sample.config Sample.disabled_response Sample.world).2
  ∧ 1 <= (_check_ban_indicators Sample.config Sample.disabled_response Sample.world).2
  ∧ (_check_ban_indicators Sample.config empty_response Sample.world).2 == 0.2
  ∧ (_check_ban_indicators Sample.config empty_response Sample.world).2 < 0.8.
Proof.
  apply (ban_score_of_account_disabled Sample.config Sample.disabled_response
           Sample.world "{'error': '" "'}").
  reflexivity.
Defined.

End BanFacts.

(** ** Timing engine *)

Section TimingFacts.
Import Timing.
Local Open Scope Q_scope.

(** [py_max] is the larger of its arguments. *)
Lemma py_max_spec a b : (b <= a ∧ py_max a b = a) ∨ (a < b ∧ py_max a b = b).
Proof.
  unfold py_max. destruct (Qle_bool b a) eqn:E.
  - left. split; [by apply Qle_bool_iff|done].
  - right. split; [|done]. apply Qnot_le_lt. intros H.
    apply Qle_bool_iff in H. congruence.
Qed.

(** Every delay type, known or not, gets one of the six configured ranges. *)
Lemma base_range_cases delay_type :
  base_range delay_type ∈
    [(0.1, 0.5); (0.5, 2.0); (2.0, 5.0); (5.0, 15.0); (30.0, 120.0); (300, 900)].
Proof.
  unfold base_range, effective_type. case_bool_decide as Hin.
  - unfold BASE_DELAYS in Hin at 1. rewrite dom_list_to_map_L in Hin.
    cbn [fmap list_fmap fst list_to_set] in Hin.
    repeat (apply elem_of_union in Hin as [Hin|Hin];
            [apply elem_of_singleton in Hin as ->; vm_compute;
             repeat (first [by apply list_elem_of_here | apply list_elem_of_further])|]).
    by apply elem_of_empty in Hin.
  - vm_compute. apply list_elem_of_further, list_elem_of_here.
Qed.

(** Each range starts at 0.1 at least and is 0.4 wide at least. *)
Lemma base_range_shape delay_type :
  0.1 <= (base_range delay_type).1
  ∧ (base_range delay_type).1 + 0.4 <= (base_range delay_type).2.
Proof.
  pose proof (base_range_cases delay_type) as H.
  repeat (apply elem_of_cons in H as [->|H]; [by vm_compute|]).
  by apply elem_of_nil in H.
Qed.

Lemma uniform_between a b u : a <= b → 0 <= u <= 1 → a <= uniform a b u <= b.
Proof.
  unfold uniform. intros Hab [H0 H1].
  assert (0 <= (b - a) * u) by (apply Qmult_le_0_compat; lra).
  assert (0 <= (b - a) * (1 - u)) by (apply Qmult_le_0_compat; lra).
  split; lra.
Qed.

Lemma jitter_between a v r :
  0 <= a → 0 <= v → 0 <= r <= 1 →
  a * (1 - v) <= a * (1 - v + r * v * 2) <= a * (1 + v).
Proof.
  intros Ha Hv [H0 H1].
  assert (0 <= a * (r * v)) by (repeat apply Qmult_le_0_compat; lra).
  assert (0 <= a * ((1 - r) * v)) by (repeat apply Qmult_le_0_compat; lra).
  split; lra.
Qed.

(** C5 (amended).  For every delay type, every factor [>= 0], every
    variance [v >= 0] and all draws in [0, 1], the duration slept is at
    least [max(0.05, min * factor * (1 - v))] and at most the larger of
    [max * factor * (1 + v)] and [max(0.05, min * factor * (1 + v)) + 0.1];
    for a factor [>= 1] it lies in
    [[min * factor * (1 - v), max * factor * (1 + v)]] and above the floor
    0.05. *)
Theorem adaptive_delay_bounds (variance : option Q) (session : Pace)
    (delay_type : string) (factor : Q) (d : Draws) :
  let v := default 0.3 variance in
  let lo := (base_range delay_type).1 in
  let hi := (base_range delay_type).2 in
  let t := slept (adaptive_delay variance session delay_type factor d) in
  0 <= factor → 0 <= v →
  0 <= draw_min d <= 1 → 0 <= draw_max d <= 1 → 0 <= draw_uniform d <= 1 →
  (py_max 0.05 (lo * factor * (1 - v)) <= t
   ∧ t <= py_max (hi * factor * (1 + v)) (py_max 0.05 (lo * factor * (1 + v)) + 0.1))
  ∧ (1 <= factor → lo * factor * (1 - v) <= t ∧ 0.05 <= t ∧ t <= hi * factor * (1 + v)).
Proof.
  intros v lo hi t Hf Hv [Hm0 Hm1] [HM0 HM1] Hu.
  destruct (base_range_shape delay_type) as [Hlo Hhi].
  subst t lo hi. unfold adaptive_delay. fold v.
  destruct (base_range delay_type) as [base_min base_max].
  cbn [fst snd slept] in *.
  set (mn := base_min * factor * (1 - v + draw_min d * v * 2)).
  set (mx := base_max * factor * (1 - v + draw_max d * v * 2)).
  clearbody v.
  assert (Ha : 0 <= base_min * factor) by (apply Qmult_le_0_compat; lra).
  assert (Hb : 0 <= base_max * factor) by (apply Qmult_le_0_compat; lra).
  pose proof (jitter_between _ v (draw_min d) Ha Hv (conj Hm0 Hm1)) as Hmn.
  pose proof (jitter_between _ v (draw_max d) Hb Hv (conj HM0 HM1)) as Hmx.
  fold mn in Hmn. fold mx in Hmx.
  clearbody mn mx.
  pose proof (py_max_spec 0.05 mn) as S1.
  set (m1 := py_max 0.05 mn) in *. clearbody m1.
  pose proof (py_max_spec (m1 + 0.1) mx) as S2.
  set (m2 := py_max (m1 + 0.1) mx) in *. clearbody m2.
  pose proof (py_max_spec 0.05 (base_min * factor * (1 - v))) as S3.
  set (l := py_max 0.05 (base_min * factor * (1 - v))) in *. clearbody l.
  pose proof (py_max_spec 0.05 (base_min * factor * (1 + v))) as S4.
  set (h1 := py_max 0.05 (base_min * factor * (1 + v))) in *. clearbody h1.
  pose proof (py_max_spec (base_max * factor * (1 + v)) (h1 + 0.1)) as S5.
  set (h2 := py_max (base_max * factor * (1 + v)) (h1 + 0.1)) in *. clearbody h2.
  assert (Hbetween : m1 <= uniform m1 m2 (draw_uniform d) <= m2).
  { apply uniform_between; [|done]. destruct S2 as [[? ->]|[? ->]]; lra. }
  set (t := uniform m1 m2 (draw_uniform d)) in *. clearbody t.
  destruct Hbetween as [Hl Hh].
  destruct S1 as [[? ?]|[? ?]], S2 as [[? ?]|[? ?]], S3 as [[? ?]|[? ?]],
           S4 as [[? ?]|[? ?]], S5 as [[? ?]|[? ?]]; subst m1 m2 l h1 h2;
  (split; [split; lra|]); intros Hf1;
  assert (0.4 <= (base_max - base_min) * (factor * (1 + v)))
    by (assert (0 <= (base_max - base_min - 0.4) * (factor * (1 + v) - 1))
          by (apply Qmult_le_0_compat; [lra|];
              assert (0 <= (factor - 1) * v) by (apply Qmult_le_0_compat; lra); lra);
        assert (0 <= factor * v) by (apply Qmult_le_0_compat; lra);
        lra);
  repeat split; lra.
Qed.

Lemma adaptive_delay_bounds_witness :
  let t := slept (adaptive_delay None {| error_count := 0; actions_count := 0 |}
                    "micro" 1.5 Sample.draws) in
  (py_max 0.05 ((base_range "micro").1 * 1.5 * (1 - 0.3)) <= t
   ∧ t <= py_max ((base_range "micro").2 * 1.5 * (1 + 0.3))
            (py_max 0.05 ((base_range "micro").1 * 1.5 * (1 + 0.3)) + 0.1))
  ∧ (1 <= 1.5 → (base_range "micro").1 * 1.5 * (1 - 0.3) <= t ∧ 0.05 <= t
                ∧ t <= (base_range "micro").2 * 1.5 * (1 + 0.3)).
Proof.
  apply (adaptive_delay_bounds None {| error_count := 0; actions_count := 0 |}
           "micro" 1.5 Sample.draws); by vm_compute.
Defined.

(** C5 as stated fails for a small factor: with the range of ["micro"],
    factor 0.1, the default variance and all draws at 1/2, the floor 0.05
    and the gap 0.1 give a sleep of 0.1, above [0.5 * 0.1 * 1.3]. *)
Lemma adaptive_delay_exceeds_scaled_range :
  let t := slept (adaptive_delay None {| error_count := 0; actions_count := 0 |}
                    "micro" 0.1 Sample.draws) in
  ¬ ((base_range "micro").1 * 0.1 * (1 - 0.3) <= t
     ∧ t <= (base_range "micro").2 * 0.1 * (1 + 0.3)).
Proof. intros t [_ H]. vm_compute in H. by apply H. Qed.

(** The session only reaches the factor of the log line: the bounds of the
    sleep are computed before the factor is adjusted. *)
Lemma adaptive_delay_ignores_session (variance : option Q) (s1 s2 : Pace)
    (delay_type : string) (factor : Q) (d : Draws) :
  slept (adaptive_delay variance s1 delay_type factor d)
  = slept (adaptive_delay variance s2 delay_type factor d).
Proof. unfold adaptive_delay. by destruct (base_range delay_type). Qed.

(** The factor of the log line grows with the error count. *)
Lemma logged_factor_grows_with_errors (variance : option Q) (actions e1 e2 : Z)
    (delay_type : string) (factor : Q) (d : Draws) :
  0 <= factor → (e1 <= e2)%Z →
  logged_factor (adaptive_delay variance
                   {| error_count := e1; actions_count := actions |} delay_type factor d)
  <= logged_factor (adaptive_delay variance
                   {| error_count := e2; actions_count := actions |} delay_type factor d).
Proof.
  intros Hf He. unfold adaptive_delay. destruct (base_range delay_type).
  cbn [logged_factor error_count actions_count].
  assert (H12 : inject_Z e1 <= inject_Z e2) by (by rewrite <- Zle_Qle).
  assert (Hstep : (if (0 <? e1)%Z then factor * (1 + inject_Z e1 * 0.2) else factor)
                  <= (if (0 <? e2)%Z then factor * (1 + inject_Z e2 * 0.2) else factor)).
  { destruct (Z.ltb_spec 0 e1) as [H1|H1], (Z.ltb_spec 0 e2) as [H2|H2]; try lia.
    - assert (0 <= factor * (inject_Z e2 - inject_Z e1))
        by (apply Qmult_le_0_compat; lra). lra.
    - assert (0 <= inject_Z e2)
        by (change 0 with (inject_Z 0); rewrite <- Zle_Qle; lia).
      assert (0 <= factor * inject_Z e2) by (by apply Qmult_le_0_compat). lra.
    - lra. }
  destruct (50 <? actions)%Z; lra.
Qed.

(** C4.  With the same delay type, configuration and draws, a call made in
    a session with more errors and more actions sleeps at least as long.
    (By [adaptive_delay_ignores_session] the two sleeps are in fact equal.) *)
Theorem adaptive_delay_monotone_in_session (variance : option Q) (s1 s2 : Pace)
    (delay_type : string) (factor : Q) (d : Draws) :
  (error_count s1 <= error_count s2)%Z →
  (actions_count s1 <= actions_count s2)%Z →
  slept (adaptive_delay variance s1 delay_type factor d)
  <= slept (adaptive_delay variance s2 delay_type factor d).
Proof.
  intros _ _. rewrite (adaptive_delay_ignores_session variance s1 s2).
  apply Qle_refl.
Qed.

Lemma adaptive_delay_monotone_in_session_witness :
  slept (adaptive_delay None {| error_count := 0; actions_count := 10 |}
           "short" 1 Sample.draws)
  <= slept (adaptive_delay None {| error_count := 3; actions_count := 60 |}
           "short" 1 Sample.draws).
Proof.
  apply (adaptive_delay_monotone_in_session None
           {| error_count := 0; actions_count := 10 |}
           {| error_count := 3; actions_count := 60 |} "short" 1 Sample.draws);
    by vm_compute.
Defined.

End TimingFacts.

(** ** Login codec *)

Section CodecFacts.
Import PyBytes LoginCodec.

Lemma byte_val_range b : 0 <= byte_val b < 256.
Proof.
  unfold byte_val. pose proof (Byte.to_N_bounded b). lia.
Qed.

Lemma byte_val_of_Z n : 0 <= n < 256 → byte_val (byte_of_Z n) = n.
Proof.
  intros Hn. unfold byte_val, byte_of_Z.
  destruct (Byte.of_N (Z.to_N n)) as [b|] eqn:E.
  - apply Byte.to_of_N in E. lia.
  - apply Byte.of_N_None_iff in E. lia.
Qed.

Lemma low_bits_split n s :
  0 <= s →
  Z.lor (Z.shiftl (Z.land n 0x7F) s) (Z.shiftl (Z.shiftr n 7) (s + 7)) = Z.shiftl n s.
Proof.
  intros Hs. apply Z.bits_inj'. intros i Hi.
  rewrite Z.lor_spec, !Z.shiftl_spec by lia.
  destruct (Z.lt_ge_cases i s) as [Hlt|Hge].
  - rewrite !Z.testbit_neg_r by lia. done.
  - rewrite Z.land_spec. change 0x7F with (Z.ones 7).
    destruct (Z.lt_ge_cases (i - s) 7) as [Hlow|Hhigh].
    + rewrite Z.ones_spec_low by lia. rewrite andb_true_r.
      rewrite (Z.testbit_neg_r _ (i - (s + 7))) by lia. by rewrite orb_false_r.
    + rewrite Z.ones_spec_high by lia. rewrite andb_false_r. cbn [orb].
      rewrite Z.shiftr_spec by lia. f_equal. lia.
Qed.

Lemma encode_varint_loop_enough fuel value :
  Z.log2 value < Z.of_nat fuel → is_Some (encode_varint_loop fuel value).
Proof.
  revert value. induction fuel as [|fuel IH]; intros value Hlog.
  - pose proof (Z.log2_nonneg value). lia.
  - cbn [encode_varint_loop]. destruct (Z.leb_spec 0x80 value) as [Hbig|Hsmall]; [|done].
    destruct (IH (Z.shiftr value 7)) as [bs ->]; [|done].
    rewrite Z.log2_shiftr by lia.
    assert (7 <= Z.log2 value) by (apply Z.log2_le_pow2; lia). lia.
Qed.

Lemma encode_varint_eq value :
  encode_varint_loop (varint_fuel value) value = Some (_encode_varint value).
Proof.
  unfold _encode_varint.
  destruct (encode_varint_loop_enough (varint_fuel value) value) as [bs ->]; [|done].
  unfold varint_fuel. pose proof (Z.log2_nonneg value). lia.
Qed.


Lemma land_small_128 a : 0 <= a < 128 → Z.land a 128 = 0.
Proof.
  intros Ha. apply Z.bits_inj'. intros i Hi.
  rewrite Z.land_spec, Z.bits_0. change 128 with (2 ^ 7).
  rewrite Z.pow2_bits_eqb by lia.
  destruct (Z.eqb_spec 7 i) as [<-|_]; [|by rewrite andb_false_r].
  rewrite andb_true_r.
  destruct (decide (a = 0)) as [->|Hne]; [done|].
  apply Z.bits_above_log2; [lia|]. apply Z.log2_lt_pow2; lia.
Qed.

Lemma land_low_small a : 0 <= a < 128 → Z.land a 0x7F = a.
Proof.
  intros Ha. change 0x7F with (Z.ones 7). rewrite Z.land_ones by lia.
  apply Z.mod_small. lia.
Qed.

Lemma lor_128 a : 0 <= a < 128 → Z.lor a 128 = a + 128.
Proof.
  intros Ha. pose proof (land_small_128 a Ha) as H0.
  rewrite <- Z.lxor_lor by done. symmetry. by apply Z.add_nocarry_lxor.
Qed.

Lemma land_low_range value : 0 <= Z.land value 0x7F < 128.
Proof.
  change 0x7F with (Z.ones 7). rewrite Z.land_ones by lia.
  apply Z.mod_pos_bound. lia.
Qed.

Lemma decode_encode_loop fuel value bs rest pos acc shift :
  0 <= value → 0 <= shift →
  encode_varint_loop fuel value = Some bs →
  decode_varint_from (bs ++ rest) pos acc shift
  = (Z.lor acc (Z.shiftl value shift), pos + len bs).
Proof.
  revert value bs pos acc shift.
  induction fuel as [|fuel IH]; intros value bs pos acc shift Hv Hs Henc; [done|].
  cbn [encode_varint_loop] in Henc.
  pose proof (land_low_range value) as Hlow.
  destruct (Z.leb_spec 0x80 value) as [Hbig|Hsmall].
  - destruct (encode_varint_loop fuel (Z.shiftr value 7)) as [bs'|] eqn:E; [|done].
    cbn in Henc. injection Henc as <-.
    assert (Hb : byte_val (byte_of_Z (Z.lor (Z.land value 0x7F) 0x80))
                 = Z.land value 0x7F + 128).
    { rewrite lor_128 by done. apply byte_val_of_Z. lia. }
    cbn [app decode_varint_from]. rewrite Hb.
    rewrite <- (lor_128 (Z.land value 0x7F)) by done.
    rewrite !Z.land_lor_distr_l, land_small_128, (land_low_small (Z.land _ _)) by done.
    change (Z.land 128 0x7F) with 0. change (Z.land 128 0x80) with 128.
    rewrite Z.lor_0_r. cbn [Z.lor Z.eqb].
    rewrite (IH (Z.shiftr value 7) bs' (pos + 1) _ (shift + 7));
      [|apply Z.shiftr_nonneg; lia|lia|done].
    rewrite <- Z.lor_assoc, low_bits_split by done.
    f_equal. unfold len. cbn [length]. lia.
  - injection Henc as <-. cbn [app decode_varint_from].
    rewrite land_low_small by lia. rewrite byte_val_of_Z by lia.
    rewrite land_low_small, land_small_128 by lia. cbn [Z.eqb].
    f_equal.
Qed.

(** Decoding what [_encode_varint] wrote gives the value back and stops
    right after it. *)
Lemma decode_encode_varint value pre rest :
  0 <= value →
  _decode_varint (pre ++ _encode_varint value ++ rest) (len pre)
  = (value, len pre + len (_encode_varint value)).
Proof.
  intros Hv. unfold _decode_varint, len at 1. rewrite Nat2Z.id, drop_app_length.
  rewrite (decode_encode_loop _ _ _ _ _ _ _ Hv (Z.le_refl 0) (encode_varint_eq value)).
  by rewrite Z.shiftl_0_r.
Qed.

Lemma len_app (a b : bytes) : len (a ++ b) = len a + len b.
Proof. unfold len. rewrite length_app. lia. Qed.

Lemma len_nonneg (a : bytes) : 0 <= len a.
Proof. unfold len. lia. Qed.

Lemma getitem_at (pre : bytes) b rest : getitem (pre ++ b :: rest) (len pre) = Some b.
Proof.
  unfold getitem. pose proof (len_nonneg pre).
  destruct (Z.ltb_spec (len pre) 0); [lia|].
  unfold len. rewrite Nat2Z.id. by apply list_lookup_middle.
Qed.

Lemma slice_at (pre payload rest : bytes) :
  slice (pre ++ payload ++ rest) (len pre) (len pre + len payload) = payload.
Proof.
  unfold slice. replace (len pre + len payload - len pre) with (len payload) by lia.
  unfold len. rewrite !Nat2Z.id, drop_app_length. by rewrite take_app_length.
Qed.

Lemma len_cons b (a : bytes) : len (b :: a) = 1 + len a.
Proof. unfold len. cbn [length]. lia. Qed.

Lemma bind_returns {A B} (a : A) (k : A → outcome B) : (Returns a ≫= k) = k a.
Proof. reflexivity. Qed.

Lemma read_string_at (pre bs rest : bytes) :
  utf8_valid bs = true →
  read_string (pre ++ _encode_varint (len bs) ++ bs ++ rest) (len pre)
  = Returns (string_of_list_byte bs,
             len pre + len (_encode_varint (len bs)) + len bs).
Proof.
  intros Hvalid. unfold read_string.
  rewrite decode_encode_varint by apply len_nonneg.
  rewrite (app_assoc pre), <- len_app, slice_at.
  unfold decode_utf8. by rewrite Hvalid.
Qed.

(** The tag byte of a length-delimited field carries the field number and
    the wire type 2. *)
Lemma tag_of_length_delimited n :
  0 <= n < 32 →
  field_number (byte_of_Z (Z.lor (Z.shiftl n 3) 2)) = n
  ∧ wire_type (byte_of_Z (Z.lor (Z.shiftl n 3) 2)) = 2.
Proof.
  intros Hn. unfold field_number, wire_type.
  assert (Hland : Z.land (Z.shiftl n 3) 2 = 0).
  { apply Z.bits_inj'. intros i Hi.
    rewrite Z.land_spec, Z.bits_0, Z.shiftl_spec by lia.
    destruct (Z.lt_ge_cases i 3).
    - by rewrite Z.testbit_neg_r by lia.
    - change 2 with (2 ^ 1). rewrite Z.pow2_bits_eqb by lia.
      destruct (Z.eqb_spec 1 i); [lia|by rewrite andb_false_r]. }
  assert (Hv : Z.lor (Z.shiftl n 3) 2 = 8 * n + 2).
  { rewrite <- Z.lxor_lor, <- Z.add_nocarry_lxor, Z.shiftl_mul_pow2 by (done || lia).
    lia. }
  rewrite Hv, byte_val_of_Z by lia. split.
  - rewrite Z.shiftr_div_pow2 by lia. change (2 ^ 3) with 8.
    rewrite Z.mul_comm, Z.div_add_l by lia. change (2 / 8) with 0. lia.
  - change 0x7 with (Z.ones 3). rewrite Z.land_ones by lia. change (2 ^ 3) with 8.
    rewrite Z.add_comm, Z.mul_comm, Z.mod_add by lia. done.
Qed.

Lemma response_loop_step fuel data pos result key :
  pos < len data → getitem data pos = Some key →
  response_loop (S fuel) data pos result =
    if field_number key =? 8 then
      let '(length, pos) := _decode_varint data (pos + 1) in
      let login_data := slice data pos (pos + length) in
      result ← login_result_loop (loop_fuel login_data) login_data 0 result;
      response_loop fuel data (pos + length) result
    else if field_number key =? 7 then
      let '(length, pos) := _decode_varint data (pos + 1) in
      let error_data := slice data pos (pos + length) in
      error_message ← error_loop (loop_fuel error_data) error_data 0 "";
      mret (LoginError error_message)
    else if wire_type key =? 2 then
      let '(skip_len, pos) := _decode_varint data (pos + 1) in
      response_loop fuel data (pos + skip_len) result
    else if wire_type key =? 0 then
      let '(_, pos) := _decode_varint data (pos + 1) in
      response_loop fuel data pos result
    else response_loop fuel data (pos + 1 + 1) result.
Proof.
  intros Hpos Hkey. cbn [response_loop].
  destruct (Z.ltb_spec pos (len data)); [|lia].
  rewrite Hkey. reflexivity.
Qed.

Lemma error_loop_step fuel data pos message key :
  pos < len data → getitem data pos = Some key →
  error_loop (S fuel) data pos message =
    if field_number key =? 1 then
      '(s, pos) ← read_string data (pos + 1);
      error_loop fuel data pos s
    else if wire_type key =? 2 then
      let '(skip_len, pos) := _decode_varint data (pos + 1) in
      error_loop fuel data (pos + skip_len) message
    else error_loop fuel data (pos + 1 + 1) message.
Proof.
  intros Hpos Hkey. cbn [error_loop].
  destruct (Z.ltb_spec pos (len data)); [|lia].
  rewrite Hkey. reflexivity.
Qed.

Lemma error_loop_done fuel data pos message :
  len data <= pos → error_loop (S fuel) data pos message = Returns message.
Proof.
  intros Hpos. cbn [error_loop]. by destruct (Z.ltb_spec pos (len data)); [lia|].
Qed.

Lemma passed_field_nonempty fld : passed_field fld → (1 <= length fld)%nat.
Proof. destruct 1; cbn [app length]; lia. Qed.

(** The outer loop passes a field and goes on behind it. *)
Lemma response_loop_passes fld :
  passed_field fld →
  ∀ fuel pre rest result, ∃ result',
    response_loop (S fuel) (pre ++ fld ++ rest) (len pre) result
    = response_loop fuel (pre ++ fld ++ rest) (len pre + len fld) result'.
Proof.
  intros Hfld fuel pre rest result.
  assert (Hpos : ∀ key tl, len pre < len (pre ++ (key :: tl) ++ rest)).
  { intros. rewrite len_app. cbn [app]. rewrite len_cons.
    pose proof (len_nonneg (tl ++ rest)). lia. }
  destruct Hfld as [key payload H7 H8 Hw|key n H7 H8 Hw Hn|key b H7 H8 Hw2 Hw0
                   |key payload H8 Hlogin].
  - exists result. cbn [app]. rewrite (response_loop_step _ _ _ _ key);
      [|apply (Hpos key)|apply getitem_at].
    apply Z.eqb_neq in H7, H8. rewrite H7, H8, Hw. cbn [Z.eqb Pos.eqb].
    pose proof (decode_encode_varint (len payload) (pre ++ [key]) (payload ++ rest)
                  (len_nonneg _)) as Hdec.
    rewrite <- app_assoc, len_app in Hdec. cbn [app] in Hdec.
    change (len [key]) with 1 in Hdec. rewrite <- app_assoc, Hdec.
    f_equal. rewrite len_cons, len_app. lia.
  - exists result. cbn [app]. rewrite (response_loop_step _ _ _ _ key);
      [|apply (Hpos key)|apply getitem_at].
    apply Z.eqb_neq in H7, H8. rewrite H7, H8, Hw. cbn [Z.eqb Pos.eqb].
    pose proof (decode_encode_varint n (pre ++ [key]) rest Hn) as Hdec.
    rewrite <- app_assoc, len_app in Hdec. cbn [app] in Hdec.
    change (len [key]) with 1 in Hdec. rewrite Hdec.
    f_equal. rewrite len_cons. lia.
  - exists result. cbn [app]. rewrite (response_loop_step _ _ _ _ key);
      [|apply (Hpos key [b])|apply getitem_at].
    apply Z.eqb_neq in H7, H8, Hw2, Hw0. rewrite H7, H8, Hw2, Hw0.
    f_equal. rewrite !len_cons. change (len []) with 0. lia.
  - cbn [app]. rewrite (response_loop_step _ _ _ _ key);
      [|apply (Hpos key)|apply getitem_at].
    rewrite H8. cbn [Z.eqb Pos.eqb].
    pose proof (decode_encode_varint (len payload) (pre ++ [key]) (payload ++ rest)
                  (len_nonneg _)) as Hdec.
    rewrite <- app_assoc, len_app in Hdec. cbn [app] in Hdec.
    change (len [key]) with 1 in Hdec. rewrite <- app_assoc, Hdec.
    pose proof (slice_at (pre ++ [key] ++ _encode_varint (len payload)) payload rest)
      as Hslice.
    rewrite !len_app in Hslice. change (len [key]) with 1 in Hslice.
    rewrite <- !app_assoc in Hslice. cbn [app] in Hslice.
    rewrite Z.add_assoc in Hslice. cbv zeta. rewrite Hslice.
    destruct (Hlogin result) as [result' ->]. exists result'.
    rewrite bind_returns. f_equal. rewrite len_cons, len_app. lia.
Qed.

Lemma response_loop_passes_all fs :
  Forall passed_field fs →
  ∀ fuel pre rest result, ∃ result',
    response_loop (length fs + fuel) (pre ++ concat fs ++ rest) (len pre) result
    = response_loop fuel (pre ++ concat fs ++ rest) (len pre + len (concat fs)) result'.
Proof.
  induction 1 as [|fld fs Hfld _ IH]; intros fuel pre rest result.
  - exists result. cbn [concat length]. change (len []) with 0.
    by rewrite Z.add_0_r.
  - cbn [concat length Nat.add]. rewrite <- !app_assoc.
    destruct (response_loop_passes fld Hfld (length fs + fuel) pre
                (concat fs ++ rest) result) as [result1 ->].
    destruct (IH fuel (pre ++ fld) rest result1) as [result2 Hrest].
    rewrite <- app_assoc, len_app in Hrest. rewrite Hrest.
    exists result2. f_equal. rewrite len_app. lia.
Qed.

Lemma skipped_sub_field_nonempty fld : skipped_sub_field fld → (1 <= length fld)%nat.
Proof. destruct 1; cbn [app length]; lia. Qed.

Lemma concat_length_fields (P : bytes → Prop) fs :
  (∀ fld, P fld → (1 <= length fld)%nat) → Forall P fs →
  (length fs <= length (concat fs))%nat.
Proof.
  intros HP. induction 1 as [|fld fs Hfld _ IH]; cbn [concat length]; [lia|].
  rewrite length_app. pose proof (HP _ Hfld). lia.
Qed.

(** The inner loop passes a sub-field and goes on behind it, the message
    as it was. *)
Lemma error_loop_skips fld :
  skipped_sub_field fld →
  ∀ fuel pre rest message,
    error_loop (S fuel) (pre ++ fld ++ rest) (len pre) message
    = error_loop fuel (pre ++ fld ++ rest) (len pre + len fld) message.
Proof.
  intros Hfld fuel pre rest message.
  assert (Hpos : ∀ key tl, len pre < len (pre ++ (key :: tl) ++ rest)).
  { intros. rewrite len_app. cbn [app]. rewrite len_cons.
    pose proof (len_nonneg (tl ++ rest)). lia. }
  destruct Hfld as [key payload H1 Hw|key b H1 Hw].
  - cbn [app]. rewrite (error_loop_step _ _ _ _ key);
      [|apply (Hpos key)|apply getitem_at].
    apply Z.eqb_neq in H1. rewrite H1, Hw. cbn [Z.eqb Pos.eqb].
    pose proof (decode_encode_varint (len payload) (pre ++ [key]) (payload ++ rest)
                  (len_nonneg _)) as Hdec.
    rewrite <- app_assoc, len_app in Hdec. cbn [app] in Hdec.
    change (len [key]) with 1 in Hdec. rewrite <- app_assoc, Hdec.
    f_equal. rewrite len_cons, len_app. lia.
  - cbn [app]. rewrite (error_loop_step _ _ _ _ key);
      [|apply (Hpos key [b])|apply getitem_at].
    apply Z.eqb_neq in H1, Hw. rewrite H1, Hw.
    f_equal. rewrite !len_cons. change (len []) with 0. lia.
Qed.

Lemma error_loop_skips_all fs :
  Forall skipped_sub_field fs →
  ∀ fuel pre rest message,
    error_loop (length fs + fuel) (pre ++ concat fs ++ rest) (len pre) message
    = error_loop fuel (pre ++ concat fs ++ rest) (len pre + len (concat fs)) message.
Proof.
  induction 1 as [|fld fs Hfld _ IH]; intros fuel pre rest message.
  - cbn [concat length]. change (len []) with 0. by rewrite Z.add_0_r.
  - cbn [concat length Nat.add]. rewrite <- !app_assoc.
    rewrite (error_loop_skips fld Hfld (length fs + fuel) pre (concat fs ++ rest)).
    pose proof (IH fuel (pre ++ fld) rest message) as Hrest.
    rewrite <- app_assoc, len_app in Hrest. rewrite Hrest.
    f_equal. rewrite len_app. lia.
Qed.

(** The inner loop reads the message of a sub-field 1 and goes on behind
    it. *)
Lemma error_loop_reads_message (message : string) fuel pre rest old :
  utf8_valid (encode_utf8 message) = true →
  let fld := length_delimited 1 (encode_utf8 message) in
  error_loop (S fuel) (pre ++ fld ++ rest) (len pre) old
  = error_loop fuel (pre ++ fld ++ rest) (len pre + len fld) message.
Proof.
  intros Hvalid fld. subst fld. unfold length_delimited.
  set (key := byte_of_Z (Z.lor (Z.shiftl 1 3) 2)).
  set (bs := encode_utf8 message) in *.
  destruct (tag_of_length_delimited 1) as [Hnum Hwire]; [lia|]. fold key in Hnum, Hwire.
  cbn [app].
  rewrite (error_loop_step _ _ _ _ key); [| |apply getitem_at].
  2:{ rewrite len_app, len_cons.
      pose proof (len_nonneg ((_encode_varint (len bs) ++ bs) ++ rest)). lia. }
  rewrite Hnum. cbn [Z.eqb Pos.eqb].
  pose proof (read_string_at (pre ++ [key]) bs rest Hvalid) as Hread.
  rewrite <- app_assoc, len_app in Hread. cbn [app] in Hread.
  change (len [key]) with 1 in Hread. rewrite <- app_assoc, Hread, bind_returns.
  subst bs. unfold encode_utf8. rewrite string_of_list_byte_of_string.
  f_equal. rewrite len_cons, len_app. lia.
Qed.

(** The inner loop on the payload of an error field: the message is what
    it returns. *)
Lemma error_loop_error_field before (message : string) after :
  Forall skipped_sub_field before → Forall skipped_sub_field after →
  utf8_valid (encode_utf8 message) = true →
  let error_data :=
    concat before ++ length_delimited 1 (encode_utf8 message) ++ concat after in
  error_loop (loop_fuel error_data) error_data 0 "" = Returns message.
Proof.
  intros Hbefore Hafter Hvalid error_data. unfold loop_fuel.
  set (fld := length_delimited 1 (encode_utf8 message)) in *.
  pose proof (concat_length_fields _ before skipped_sub_field_nonempty Hbefore) as Hlb.
  pose proof (concat_length_fields _ after skipped_sub_field_nonempty Hafter) as Hla.
  assert (Hfld : (1 <= length fld)%nat) by (subst fld; cbn [length_delimited app length]; lia).
  assert (Hfuel : ∃ fuel, S (length error_data)
                          = (length before + S (length after + S fuel))%nat).
  { exists (length error_data - length before - length after - 1)%nat.
    subst error_data. rewrite !length_app. lia. }
  destruct Hfuel as [fuel ->].
  pose proof (error_loop_skips_all before Hbefore (S (length after + S fuel)) []
                (fld ++ concat after) "") as Hskip.
  cbn [app] in Hskip. change (len []) with 0 in Hskip. rewrite Z.add_0_l in Hskip.
  subst error_data. rewrite Hskip.
  pose proof (error_loop_reads_message message (length after + S fuel) (concat before)
                (concat after) "" Hvalid) as Hread.
  cbv zeta in Hread. fold fld in Hread. rewrite Hread.
  pose proof (error_loop_skips_all after Hafter (S fuel) (concat before ++ fld) []
                message) as Hrest.
  rewrite app_nil_r, <- app_assoc, len_app in Hrest. rewrite Hrest.
  apply error_loop_done. rewrite !len_app. lia.
Qed.

(** The outer loop returns what the inner loop finds in an error field
    and reads nothing behind it. *)
Lemma response_loop_error_field (error_data : bytes) fuel pre rest result :
  response_loop (S fuel) (pre ++ length_delimited 7 error_data ++ rest) (len pre) result
  = (error_message ← error_loop (loop_fuel error_data) error_data 0 "";
     mret (LoginError error_message)).
Proof.
  unfold length_delimited at 1.
  set (key := byte_of_Z (Z.lor (Z.shiftl 7 3) 2)).
  destruct (tag_of_length_delimited 7) as [Hnum _]; [lia|]. fold key in Hnum.
  cbn [app]. rewrite (response_loop_step _ _ _ _ key); [| |apply getitem_at].
  - rewrite Hnum. cbn [Z.eqb Pos.eqb].
    pose proof (decode_encode_varint (len error_data) (pre ++ [key])
                  (error_data ++ rest) (len_nonneg _)) as Hdec.
    rewrite <- app_assoc, len_app in Hdec. cbn [app] in Hdec.
    change (len [key]) with 1 in Hdec. rewrite <- app_assoc, Hdec.
    pose proof (slice_at (pre ++ [key] ++ _encode_varint (len error_data))
                  error_data rest) as Hslice.
    rewrite !len_app in Hslice. change (len [key]) with 1 in Hslice.
    rewrite <- !app_assoc in Hslice. cbn [app] in Hslice.
    rewrite Z.add_assoc in Hslice. cbv zeta. by rewrite Hslice.
  - rewrite len_app, len_cons.
    pose proof (len_nonneg ((_encode_varint (len error_data) ++ error_data) ++ rest)).
    lia.
Qed.

(** C8.  In a response where complete fields that the decoder passes are
    followed by a complete field 7, whose sub-field 1 holds a message in
    UTF-8, ["bad token"] or another, between complete sub-fields other
    than 1 that the inner loop passes, the decoder returns the failure
    with this message, whatever bytes follow field 7: nothing behind it
    is read. *)
Theorem error_field_halts_decoding (fs before after : list bytes) (message : string)
    (rest : bytes) :
  Forall passed_field fs →
  Forall skipped_sub_field before → Forall skipped_sub_field after →
  utf8_valid (encode_utf8 message) = true →
  _parse_auth_response_manual (concat fs ++ error_field before message after ++ rest)
  = Returns (LoginError message).
Proof.
  intros Hfs Hbefore Hafter Hvalid. unfold _parse_auth_response_manual, loop_fuel.
  set (data := concat fs ++ error_field before message after ++ rest).
  assert (Hlen : ∃ fuel, S (length data) = (length fs + S fuel)%nat).
  { exists (length data - length fs)%nat.
    pose proof (concat_length_fields _ fs passed_field_nonempty Hfs).
    subst data. rewrite length_app. lia. }
  destruct Hlen as [fuel ->].
  destruct (response_loop_passes_all fs Hfs (S fuel) []
              (error_field before message after ++ rest) no_fields) as [result' Hpass].
  cbn [app] in Hpass. change (len []) with 0 in Hpass. subst data. rewrite Hpass.
  rewrite Z.add_0_l. unfold error_field.
  rewrite response_loop_error_field, error_loop_error_field by done. done.
Qed.

Lemma decode_varint_from_bounds rest pos acc shift :
  pos <= (decode_varint_from rest pos acc shift).2
  ∧ (0 <= acc → 0 <= shift → 0 <= (decode_varint_from rest pos acc shift).1).
Proof.
  revert pos acc shift. induction rest as [|b rest IH]; intros pos acc shift; cbn.
  - split; [lia|done].
  - assert (Hnn : 0 <= acc → 0 <= shift →
                  0 <= Z.lor acc (Z.shiftl (Z.land (byte_val b) 127) shift)).
    { intros. apply Z.lor_nonneg. split; [done|].
      apply Z.shiftl_nonneg, Z.land_nonneg. right. lia. }
    destruct (Z.land (byte_val b) 128 =? 0); cbn [fst snd].
    + split; [lia|done].
    + destruct (IH (pos + 1) (Z.lor acc (Z.shiftl (Z.land (byte_val b) 127) shift))
                  (shift + 7)) as [Hp Hv].
      split; [lia|]. intros. apply Hv; [auto|lia].
Qed.

Lemma _decode_varint_bounds data pos :
  pos <= (_decode_varint data pos).2 ∧ 0 <= (_decode_varint data pos).1.
Proof.
  unfold _decode_varint.
  destruct (decode_varint_from_bounds (drop (Z.to_nat pos) data) pos 0 0) as [Hp Hv].
  split; [done|]. by apply Hv.
Qed.

Lemma bind_in_fuel {A B} (m : outcome A) (k : A → outcome B) :
  m ≠ OutOfFuel → (∀ a, m = Returns a → k a ≠ OutOfFuel) → (m ≫= k) ≠ OutOfFuel.
Proof. destruct m; intros Hm Hk; cbn; [by apply Hk|done|done]. Qed.

Lemma read_string_bounds data pos s pos' :
  read_string data pos = Returns (s, pos') → pos <= pos'.
Proof.
  unfold read_string. destruct (_decode_varint_bounds data pos) as [Hp Hv].
  destruct (_decode_varint data pos) as [n p]. cbn [fst snd] in *.
  destruct (decode_utf8 _); cbn; [|done]. intros [= _ <-]. lia.
Qed.

Lemma read_string_in_fuel data pos : read_string data pos ≠ OutOfFuel.
Proof.
  unfold read_string. destruct (_decode_varint data pos) as [n p].
  by destruct (decode_utf8 _).
Qed.

Lemma of_option_in_fuel {A} (o : option A) : of_option o ≠ OutOfFuel.
Proof. by destruct o. Qed.

Lemma covers_next fuel data pos pos' :
  0 <= pos → pos < len data → pos + 1 <= pos' →
  covers (S fuel) data pos → covers fuel data pos'.
Proof. unfold covers, len. lia. Qed.

Lemma covers_start data : covers (loop_fuel data) data 0.
Proof. unfold covers, loop_fuel. lia. Qed.

Ltac varint_known :=
  match goal with
  | H : _decode_varint ?data ?pos = _ |- _ =>
      let Hp := fresh "Hp" in let Hv := fresh "Hv" in
      pose proof (_decode_varint_bounds data pos) as [Hp Hv];
      rewrite H in Hp, Hv; cbn [fst snd] in Hp, Hv
  end.

Lemma error_loop_in_fuel fuel data pos message :
  0 <= pos → covers fuel data pos → error_loop fuel data pos message ≠ OutOfFuel.
Proof.
  revert pos message. induction fuel as [|fuel IH]; intros pos message Hpos Hc.
  - unfold covers in Hc. lia.
  - cbn [error_loop]. destruct (Z.ltb_spec pos (len data)) as [Hlt|Hge]; [|done].
    apply bind_in_fuel; [apply of_option_in_fuel|]. intros key _.
    repeat case_match; try varint_known.
    + apply bind_in_fuel; [apply read_string_in_fuel|]. intros [s p] Hread.
      apply read_string_bounds in Hread.
      apply IH; [lia|]. eapply covers_next; [..|done]; lia.
    + apply IH; [lia|]. eapply covers_next; [..|done]; lia.
    + apply IH; [lia|]. eapply covers_next; [..|done]; lia.
Qed.

Lemma login_result_loop_in_fuel fuel data pos result :
  0 <= pos → covers fuel data pos → login_result_loop fuel data pos result ≠ OutOfFuel.
Proof.
  revert pos result. induction fuel as [|fuel IH]; intros pos result Hpos Hc.
  - unfold covers in Hc. lia.
  - cbn [login_result_loop]. destruct (Z.ltb_spec pos (len data)) as [Hlt|Hge]; [|done].
    apply bind_in_fuel; [apply of_option_in_fuel|]. intros key _.
    repeat case_match; try varint_known;
      try (apply bind_in_fuel; [apply read_string_in_fuel|]; intros [s p] Hread;
           apply read_string_bounds in Hread);
      (apply IH; [lia|]; eapply covers_next; [..|done]; lia).
Qed.

Lemma response_loop_in_fuel fuel data pos result :
  0 <= pos → covers fuel data pos → response_loop fuel data pos result ≠ OutOfFuel.
Proof.
  revert pos result. induction fuel as [|fuel IH]; intros pos result Hpos Hc.
  - unfold covers in Hc. lia.
  - cbn [response_loop]. destruct (Z.ltb_spec pos (len data)) as [Hlt|Hge]; [|done].
    apply bind_in_fuel; [apply of_option_in_fuel|]. intros key _.
    repeat case_match; try varint_known.
    + apply bind_in_fuel.
      * apply login_result_loop_in_fuel; [lia|apply covers_start].
      * intros r _. apply IH; [lia|]. eapply covers_next; [..|done]; lia.
    + apply bind_in_fuel; [|done].
      apply error_loop_in_fuel; [lia|apply covers_start].
    + apply IH; [lia|]. eapply covers_next; [..|done]; lia.
    + apply IH; [lia|]. eapply covers_next; [..|done]; lia.
    + apply IH; [lia|]. eapply covers_next; [..|done]; lia.
Qed.

(** The decoder is total: its fuel is never used up, and the [except]
    clause leaves no exception. *)
Lemma _parse_auth_response_manual_returns data :
  ∃ result, _parse_auth_response_manual data = Returns result.
Proof.
  unfold _parse_auth_response_manual.
  pose proof (response_loop_in_fuel (loop_fuel data) data 0 no_fields
                (Z.le_refl 0) (covers_start data)) as H.
  destruct (response_loop _ _ _ _) as [r| |]; cbn; [by exists r|by eexists|done].
Qed.

Lemma login_result_loop_step fuel data pos result key :
  pos < len data → getitem data pos = Some key →
  login_result_loop (S fuel) data pos result =
    if field_number key =? 1 then
      '(s, pos) ← read_string data (pos + 1);
      login_result_loop fuel data pos
        {| auth_token := auth_token result; refresh_token := Some s;
           user_id := user_id result |}
    else if field_number key =? 2 then
      '(s, pos) ← read_string data (pos + 1);
      login_result_loop fuel data pos
        {| auth_token := Some s; refresh_token := refresh_token result;
           user_id := user_id result |}
    else if field_number key =? 4 then
      '(s, pos) ← read_string data (pos + 1);
      login_result_loop fuel data pos
        {| auth_token := auth_token result;
           refresh_token := refresh_token result; user_id := Some s |}
    else if wire_type key =? 2 then
      let '(skip_len, pos) := _decode_varint data (pos + 1) in
      login_result_loop fuel data (pos + skip_len) result
    else if wire_type key =? 0 then
      let '(_, pos) := _decode_varint data (pos + 1) in
      login_result_loop fuel data pos result
    else login_result_loop fuel data (pos + 1 + 1) result.
Proof.
  intros Hpos Hkey. cbn [login_result_loop].
  destruct (Z.ltb_spec pos (len data)); [|lia].
  rewrite Hkey. reflexivity.
Qed.

Lemma login_result_loop_reads n (s : string) fuel pre rest result :
  n = 1 ∨ n = 2 ∨ n = 4 →
  utf8_valid (encode_utf8 s) = true →
  login_result_loop (S fuel) (pre ++ length_delimited n (encode_utf8 s) ++ rest)
    (len pre) result
  = login_result_loop fuel (pre ++ length_delimited n (encode_utf8 s) ++ rest)
      (len pre + len (length_delimited n (encode_utf8 s))) (set_field n s result).
Proof.
  intros Hn Hvalid. unfold length_delimited.
  set (key := byte_of_Z (Z.lor (Z.shiftl n 3) 2)).
  set (bs := encode_utf8 s).
  destruct (tag_of_length_delimited n) as [Hnum _]; [lia|]. fold key in Hnum.
  cbn [app]. rewrite (login_result_loop_step _ _ _ _ key); [| |apply getitem_at].
  - pose proof (read_string_at (pre ++ [key]) bs rest Hvalid) as Hread.
    rewrite <- !app_assoc, len_app in Hread. cbn [app] in Hread.
    change (len [key]) with 1 in Hread. rewrite <- app_assoc.
    assert (Hs : string_of_list_byte bs = s)
      by (subst bs; unfold encode_utf8; apply string_of_list_byte_of_string).
    rewrite Hs in Hread.
    assert (Hlen : len pre + 1 + len (_encode_varint (len bs)) + len bs
                   = len pre + len (key :: _encode_varint (len bs) ++ bs))
      by (rewrite len_cons, len_app; lia).
    rewrite Hnum. unfold set_field.
    destruct Hn as [->|[->| ->]]; cbn [Z.eqb Pos.eqb];
      rewrite Hread, bind_returns, Hlen; reflexivity.
  - rewrite len_app, len_cons.
    pose proof (len_nonneg ((_encode_varint (len bs) ++ bs) ++ rest)). lia.
Qed.

Lemma login_result_loop_done fuel data pos result :
  len data <= pos → login_result_loop (S fuel) data pos result = Returns result.
Proof.
  intros Hpos. cbn [login_result_loop].
  by destruct (Z.ltb_spec pos (len data)); [lia|].
Qed.

Lemma response_loop_done fuel data pos result :
  len data <= pos → response_loop (S fuel) data pos result = Returns (LoginOk result).
Proof.
  intros Hpos. cbn [response_loop].
  by destruct (Z.ltb_spec pos (len data)); [lia|].
Qed.

(** Round trip of the login result: the decoder gives back the three
    strings of a response built with the sub-fields 2, 1 and 4. *)
Lemma login_response_round_trip (auth refresh uid : string) :
  utf8_valid (encode_utf8 auth) = true →
  utf8_valid (encode_utf8 refresh) = true →
  utf8_valid (encode_utf8 uid) = true →
  _parse_auth_response_manual (login_response auth refresh uid)
  = Returns (LoginOk {| auth_token := Some auth; refresh_token := Some refresh;
                        user_id := Some uid |}).
Proof.
  intros Ha Hr Hu. unfold _parse_auth_response_manual, login_response.
  set (fa := length_delimited 2 (encode_utf8 auth)).
  set (fr := length_delimited 1 (encode_utf8 refresh)).
  set (fu := length_delimited 4 (encode_utf8 uid)).
  set (payload := fa ++ fr ++ fu).
  assert (Hinner : ∀ result, login_result_loop (loop_fuel payload) payload 0 result
            = Returns {| auth_token := Some auth; refresh_token := Some refresh;
                         user_id := Some uid |}).
  { intros result. unfold loop_fuel.
    assert (Hfuel : ∃ fuel, S (length payload) = S (S (S (S fuel)))).
    { exists (length payload - 3)%nat. subst payload fa fr fu.
      unfold length_delimited. rewrite !length_app. cbn [length]. lia. }
    destruct Hfuel as [fuel ->]. subst payload.
    pose proof (login_result_loop_reads 2 auth (S (S (S fuel))) [] (fr ++ fu) result) as H1.
    cbn [app] in H1. change (len []) with 0 in H1. fold fa in H1.
    rewrite H1 by (auto). clear H1.
    pose proof (login_result_loop_reads 1 refresh (S (S fuel)) fa fu (set_field 2 auth result))
      as H2.
    fold fr in H2. rewrite Z.add_0_l, H2 by auto. clear H2.
    pose proof (login_result_loop_reads 4 uid (S fuel) (fa ++ fr) [] 
                  (set_field 1 refresh (set_field 2 auth result))) as H3.
    fold fu in H3. rewrite app_nil_r, <- app_assoc, len_app in H3.
    rewrite H3 by auto. clear H3.
    rewrite login_result_loop_done; [done|].
    rewrite !len_app. lia. }
  unfold length_delimited.
  set (key := byte_of_Z (Z.lor (Z.shiftl 8 3) 2)).
  destruct (tag_of_length_delimited 8) as [Hnum _]; [lia|]. fold key in Hnum.
  unfold loop_fuel in *. cbn [app length].
  rewrite (response_loop_step _ _ 0 _ key); [| |done].
  2:{ rewrite len_cons. pose proof (len_nonneg (_encode_varint (len payload) ++ payload)).
      lia. }
  rewrite Hnum. cbn [Z.eqb Pos.eqb]. change (0 + 1) with 1.
  pose proof (decode_encode_varint (len payload) [key] payload (len_nonneg _)) as Hdec.
  cbn [app] in Hdec. change (len [key]) with 1 in Hdec. rewrite Hdec.
  pose proof (slice_at (key :: _encode_varint (len payload)) payload []) as Hslice.
  rewrite app_nil_r, len_cons in Hslice. cbn [app] in Hslice.
  cbv zeta. rewrite Hslice, Hinner, bind_returns.
  destruct (length (_encode_varint (len payload) ++ payload)) eqn:Hlen.
  - apply length_zero_iff_nil, app_eq_nil in Hlen as [_ Hnil]. by destruct fa.
  - rewrite response_loop_done; [done|]. rewrite len_cons, len_app. lia.
Qed.

Lemma error_field_halts_decoding_witness :
  _parse_auth_response_manual
    (concat [[x08; x01]]
     ++ error_field [[x12; x01; x41]; [x1d; x00]] "bad token" [[x15; x00]]
     ++ [x42; x03; x0a; x01; xff])
  = Returns (LoginError "bad token").
Proof.
  apply (error_field_halts_decoding [[x08; x01]] [[x12; x01; x41]; [x1d; x00]]
           [[x15; x00]] "bad token" [x42; x03; x0a; x01; xff]).
  - constructor; [|constructor]. apply (passed_varint x08 1); by vm_compute.
  - constructor; [|constructor; [|constructor]].
    + apply (skipped_length_delimited x12 [x41]); by vm_compute.
    + apply (skipped_other x1d x00); by vm_compute.
  - constructor; [|constructor]. apply (skipped_other x15 x00); by vm_compute.
  - reflexivity.
Defined.

(** The bytes that follow field 7 in the example above are a login result
    that cannot be decoded: read on their own they make the decoder fail. *)
Example undecodable_login_result :
  _parse_auth_response_manual [x42; x03; x0a; x01; xff] = Returns ParseFailure.
Proof. reflexivity. Qed.

(** Field 7 is not decoded as a message of fields: the inner loop passes
    a sub-field that is not length-delimited by one byte, whatever its
    size, and the outer loop does the same with a field of fixed size.
    With the varint sub-field 2 = 150 before the message, the key of
    sub-field 1 is passed and the length byte taken for a key: the error
    is ["ad token"]; with the varint sub-field 2 = 1302 after the message,
    its second byte is taken for the key of a sub-field 1 and the message
    replaced by the empty string; behind a fixed32 field 5, field 7 is
    not found and the decoder returns a success. *)
Example error_field_misread :
  _parse_auth_response_manual
    (length_delimited 7
       ([x10; x96; x01] ++ length_delimited 1 (encode_utf8 "bad token")))
  = Returns (LoginError "ad token")
  ∧ _parse_auth_response_manual
      (length_delimited 7
         (length_delimited 1 (encode_utf8 "bad token") ++ [x10; x96; x0a]))
    = Returns (LoginError "")
  ∧ _parse_auth_response_manual
      ([x2d; x00; x00; x00; x00] ++ error_response "bad token")
    = Returns (LoginOk no_fields).
Proof. by vm_compute. Qed.

(** C7.  The refresh token ["abc"] is framed twice, as field 1 inside
    field 10, both length-delimited; the response built by hand with the
    sub-fields 2 = ["AUTH1"], 1 = ["REFRESH1"] and 4 = ["UID1"] inside
    field 8 decodes to the success dictionary with these three strings. *)
Theorem login_codec_round_trip :
  _encode_refresh_auth_protobuf "abc" = [x52; x05; x0a; x03; x61; x62; x63]
  ∧ (∀ refresh_token,
       _encode_refresh_auth_protobuf refresh_token
       = length_delimited 10 (length_delimited 1 (encode_utf8 refresh_token)))
  ∧ login_response "AUTH1" "REFRESH1" "UID1"
    = [x42; x17; x12; x05; x41; x55; x54; x48; x31;
       x0a; x08; x52; x45; x46; x52; x45; x53; x48; x31;
       x22; x04; x55; x49; x44; x31]
  ∧ _parse_auth_response_manual (login_response "AUTH1" "REFRESH1" "UID1")
    = Returns (LoginOk {| auth_token := Some "AUTH1";
                          refresh_token := Some "REFRESH1";
                          user_id := Some "UID1" |}).
Proof.
  split; [reflexivity|]. split; [reflexivity|]. split; [reflexivity|].
  by apply login_response_round_trip.
Qed.

End CodecFacts.

(** ** Request-pattern executor *)

Section ExecutorFacts.
Import Bot Schedule.

Lemma burst_from_counts p todo repeat :
  length (filter is_wire_call (burst_from p todo repeat)) = todo
  ∧ length (filter is_micro_pause (burst_from p todo repeat)) = (todo - 1)%nat
  ∧ length (burst_from p todo repeat) = (todo + (todo - 1))%nat.
Proof.
  revert repeat. induction todo as [|todo IH]; intros repeat; [done|].
  destruct (IH (repeat + 1)) as (Hc & Hm & Hl).
  cbn [burst_from]. destruct todo as [|todo].
  - done.
  - rewrite !filter_cons. cbn [is_wire_call is_micro_pause app].
    rewrite !filter_cons. cbn [is_wire_call is_micro_pause String.eqb Ascii.eqb].
    repeat case_decide; try done; cbn [length]; rewrite ?Hc, ?Hm, ?Hl; try lia.
Qed.

Section Run.
Context (env : Env) (config : Config) (account_id session_id : Z).
Hypothesis Hrun : ∀ n, running_at env n = true.

Lemma adaptive_delay_events delay_type context factor w :
  ∃ evs, trace (adaptive_delay env config delay_type context factor w) = trace w ++ evs
       ∧ omap observe evs = [pause (Timing.effective_type delay_type) context]
       ∧ filter failure_line evs = [].
Proof.
  unfold adaptive_delay.
  destruct (context_given context && default false (detailed_logging config)).
  - eexists [_; _]. cbn [emit trace]. rewrite <- app_assoc. done.
  - eexists [_]. done.
Qed.

Lemma extends_refl st : extends st st [] 0.
Proof. exists []. rewrite app_nil_r. repeat split; cbn; lia. Qed.

Lemma extends_trans st1 st2 st3 steps1 steps2 calls1 calls2 :
  extends st1 st2 steps1 calls1 → extends st2 st3 steps2 calls2 →
  extends st1 st3 (steps1 ++ steps2) (calls1 + calls2).
Proof.
  intros (evs1 & Ht1 & Ho1 & Hr1 & He1 & Hs1) (evs2 & Ht2 & Ho2 & Hr2 & He2 & Hs2).
  exists (evs1 ++ evs2). rewrite Ht2, Ht1, <- app_assoc, omap_app, Ho1, Ho2.
  rewrite filter_app, length_app. repeat split; try congruence; lia.
Qed.

Lemma repeat_body_extends p repeat st :
  extends st (repeat_body env config p account_id session_id repeat st)
    (wire_call (endpoint p) (method p)
     :: if repeat <? repeat_count p - 1
        then [pause "micro" (ctx_repeat (endpoint p) (repeat + 1))] else [])
    1.
Proof.
  destruct st as [w results]. unfold repeat_body.
  set (ok := request_ok env (now w) (endpoint p) (method p)).
  set (w1 := emit (EvRequest (endpoint p) (method p)) w).
  set (w2 := if default false (log_request_timings config) then _ else w1).
  assert (H2 : ∃ evs, trace w2 = trace w ++ EvRequest (endpoint p) (method p) :: evs
                    ∧ omap observe evs = [] ∧ filter failure_line evs = []).
  { subst w2. destruct (default false (log_request_timings config)).
    - unfold _log_request_timing. destruct (db_available env (now w1));
        subst w1; eexists [_]; cbn [emit trace]; rewrite <- app_assoc; done.
    - exists []. done. }
  destruct H2 as (evs2 & Ht2 & Ho2 & Hf2). clearbody w2.
  set (call := EvRequest (endpoint p) (method p)) in *.
  assert (Hcall : omap observe [call] = [wire_call (endpoint p) (method p)]
                  ∧ filter failure_line [call] = []) by done.
  destruct Hcall as [Hoc Hfc].
  change (trace w ++ call :: evs2) with (trace w ++ [call] ++ evs2) in Ht2.
  clearbody call.
  destruct ok.
  - cbn [negb].
    destruct (repeat <? repeat_count p - 1).
    + destruct (adaptive_delay_events "micro" (ctx_repeat (endpoint p) (repeat + 1)) 1 w2)
        as (evs3 & Ht3 & Ho3 & Hf3).
      exists ([call] ++ evs2 ++ evs3).
      cbn [fst snd requests_made errors success]. rewrite Ht3, Ht2, <- !app_assoc.
      rewrite !omap_app, Hoc, Ho2, Ho3, !filter_app, Hfc, Hf2, Hf3.
      cbn. repeat split; lia.
    + exists ([call] ++ evs2).
      cbn [fst snd requests_made errors success]. rewrite Ht2.
      rewrite !omap_app, Hoc, Ho2, !filter_app, Hfc, Hf2.
      cbn. repeat split; lia.
  - cbn [negb].
    set (line := if critical p then _ else _).
    assert (Hline : omap observe [line] = [] ∧ filter failure_line [line] = [line])
      by (subst line; by destruct (critical p)).
    destruct Hline as [Hobs Hfail]. clearbody line.
    destruct (repeat <? repeat_count p - 1).
    + destruct (adaptive_delay_events "micro" (ctx_repeat (endpoint p) (repeat + 1)) 1
                  (emit line w2)) as (evs3 & Ht3 & Ho3 & Hf3).
      exists ([call] ++ evs2 ++ [line] ++ evs3).
      cbn [fst snd requests_made errors success]. rewrite Ht3. cbn [emit trace].
      rewrite Ht2, <- !app_assoc.
      rewrite !omap_app, Hoc, Ho2, Hobs, Ho3, !filter_app, Hfc, Hf2, Hfail, Hf3.
      cbn. repeat split; lia.
    + exists ([call] ++ evs2 ++ [line]).
      cbn [fst snd requests_made errors success emit trace].
      rewrite Ht2, <- !app_assoc.
      rewrite !omap_app, Hoc, Ho2, Hobs, !filter_app, Hfc, Hf2, Hfail.
      cbn. repeat split; lia.
Qed.

Lemma repeat_loop_extends p todo repeat st :
  0 <= repeat → Z.of_nat todo + repeat = Z.max 0 (repeat_count p) →
  extends st (repeat_loop env config p account_id session_id todo repeat st)
    (burst_from p todo repeat) (Z.of_nat todo).
Proof.
  revert repeat st. induction todo as [|todo IH]; intros repeat st Hrep Hcount.
  - apply extends_refl.
  - cbn [repeat_loop burst_from]. rewrite Hrun. cbn [negb].
    pose proof (repeat_body_extends p repeat st) as Hbody.
    replace (repeat <? repeat_count p - 1) with (negb (Nat.eqb todo 0)) in Hbody.
    2:{ destruct todo; cbn; symmetry; [apply Z.ltb_ge|apply Z.ltb_lt]; lia. }
    assert (Hnext : Z.of_nat todo + (repeat + 1) = Z.max 0 (repeat_count p)) by lia.
    assert (Hrep' : 0 <= repeat + 1) by lia.
    pose proof (IH (repeat + 1) (repeat_body env config p account_id session_id repeat st)
                  Hrep' Hnext) as Hrest.
    pose proof (extends_trans _ _ _ _ _ _ _ Hbody Hrest) as H.
    replace (Z.of_nat (S todo)) with (1 + Z.of_nat todo) by lia.
    destruct todo; exact H.
Qed.

Lemma pattern_body_extends patterns p st :
  extends st (pattern_body env config patterns p account_id session_id st)
    (burst p ++ after_step patterns p) (Z.of_nat (Z.to_nat (repeat_count p))).
Proof.
  unfold pattern_body.
  assert (Hcount : Z.of_nat (Z.to_nat (repeat_count p)) + 0 = Z.max 0 (repeat_count p))
    by lia.
  pose proof (repeat_loop_extends p (Z.to_nat (repeat_count p)) 0 st (Z.le_refl 0) Hcount)
    as Hloop.
  destruct (repeat_loop _ _ _ _ _ _ _ _) as [w results] eqn:E.
  fold (burst p) in Hloop.
  replace (Z.of_nat (Z.to_nat (repeat_count p)))
    with (Z.of_nat (Z.to_nat (repeat_count p)) + 0) by lia.
  eapply extends_trans; [exact Hloop|].
  unfold after_step. destruct (negb _).
  - destruct (adaptive_delay_events (if critical p then "short" else "micro")
                (ctx_after (endpoint p)) 1 w) as (evs & Ht & Ho & Hf).
    exists evs. cbn [fst snd]. rewrite Hf, Ho.
    split; [exact Ht|]. split; [by destruct (critical p); vm_compute|].
    cbn. repeat split; lia.
  - apply extends_refl.
Qed.

Lemma pattern_loop_extends patterns todo st :
  extends st (pattern_loop env config patterns todo account_id session_id st)
    (flat_map (fun p => burst p ++ after_step patterns p) todo) (calls_of todo).
Proof.
  revert st. induction todo as [|p todo IH]; intros st.
  - apply extends_refl.
  - cbn [pattern_loop flat_map calls_of foldr]. rewrite Hrun. cbn [negb].
    eapply extends_trans; [apply pattern_body_extends|apply IH].
Qed.

End Run.

(** C3.  With the stop flag unset, what the executor does on the wire and
    on the clock is the schedule of the pattern: for each step, in order,
    as many calls as its repeat count with one micro delay between two of
    them ([burst]), then the delay that separates it from the next step.
    The outcomes of the calls do not change the schedule; a failing call of
    a critical step leaves a warning in the log and the run goes on. *)
Theorem pattern_executor_schedule (env : Env) (config : Config)
    (table : gmap string (list RequestPattern)) (pattern_name : string)
    (patterns : list RequestPattern) (account_id session_id : Z) (w : World) :
  table !! pattern_name = Some patterns →
  (∀ n, running_at env n = true) →
  ∃ w' results new_events,
    execute_request_pattern env config table pattern_name account_id session_id w
    = (w', pattern_results results)
    ∧ trace w' = trace w ++ new_events
    ∧ omap observe new_events = schedule patterns
    ∧ Forall (fun p =>
        length (filter is_wire_call (burst p)) = Z.to_nat (repeat_count p)
        ∧ length (filter is_micro_pause (burst p)) = (Z.to_nat (repeat_count p) - 1)%nat
        ∧ length (burst p)
          = (Z.to_nat (repeat_count p) + (Z.to_nat (repeat_count p) - 1))%nat)
        patterns
    ∧ requests_made results = calls_of patterns
    ∧ errors results = Z.of_nat (length (filter failure_line new_events))
    ∧ success results = true
    ∧ ∀ p repeat st,
        critical p = true →
        request_ok env (now st.1) (endpoint p) (method p) = false →
        EvLog WARNING (msg_critical_failed (endpoint p))
          ∈ trace (repeat_body env config p account_id session_id repeat st).1.
Proof.
  intros Hlookup Hrun. unfold execute_request_pattern. rewrite Hlookup.
  set (st0 := (w, {| success := true; requests_made := 0; errors := 0; timings := [] |})).
  pose proof (pattern_loop_extends env config account_id session_id Hrun patterns patterns st0)
    as (evs & Ht & Ho & Hr & He & Hs).
  destruct (pattern_loop _ _ _ _ _ _ _) as [w1 results].
  cbn [fst snd] in *. eexists _, results, evs.
  split; [reflexivity|]. cbn [with_session trace].
  repeat split; try done; try lia.
  - apply Forall_forall. intros p _. apply burst_from_counts.
  - intros p repeat [w2 results2] Hcrit Hfail. cbn [fst] in Hfail.
    unfold repeat_body. rewrite Hfail, Hcrit. cbn [negb].
    set (w3 := if default false (log_request_timings config) then _ else _).
    destruct (repeat <? repeat_count p - 1); cbn [fst].
    + destruct (adaptive_delay_events env config "micro"
                  (ctx_repeat (endpoint p) (repeat + 1)) 1
                  (emit (EvLog WARNING (msg_critical_failed (endpoint p))) w3))
        as (evs3 & -> & _).
      cbn [emit trace]. set_solver.
    + cbn [emit trace]. set_solver.
Qed.

Lemma pattern_executor_schedule_witness :
  ∃ w' results new_events,
    execute_request_pattern Sample.env Sample.config REQUEST_PATTERNS
      "liked_me_processing" 1 1 Sample.world
    = (w', pattern_results results)
    ∧ trace w' = trace Sample.world ++ new_events
    ∧ omap observe new_events
      = schedule [pattern "fast_match_count" "GET" 3 "micro";
                  pattern "fast_match_newcount" "GET" 1 "micro";
                  pattern "liked_me_batch" "GET" 1 "short";
                  pattern "fast_match_teaser" "GET" 1 "micro"]
    ∧ Forall (fun p =>
        length (filter is_wire_call (burst p)) = Z.to_nat (repeat_count p)
        ∧ length (filter is_micro_pause (burst p)) = (Z.to_nat (repeat_count p) - 1)%nat
        ∧ length (burst p)
          = (Z.to_nat (repeat_count p) + (Z.to_nat (repeat_count p) - 1))%nat)
        [pattern "fast_match_count" "GET" 3 "micro";
         pattern "fast_match_newcount" "GET" 1 "micro";
         pattern "liked_me_batch" "GET" 1 "short";
         pattern "fast_match_teaser" "GET" 1 "micro"]
    ∧ requests_made results
      = calls_of [pattern "fast_match_count" "GET" 3 "micro";
                  pattern "fast_match_newcount" "GET" 1 "micro";
                  pattern "liked_me_batch" "GET" 1 "short";
                  pattern "fast_match_teaser" "GET" 1 "micro"]
    ∧ errors results = Z.of_nat (length (filter failure_line new_events))
    ∧ success results = true
    ∧ ∀ p repeat st,
        critical p = true →
        request_ok Sample.env (now st.1) (endpoint p) (method p) = false →
        EvLog WARNING (msg_critical_failed (endpoint p))
          ∈ trace (repeat_body Sample.env Sample.config p 1 1 repeat st).1.
Proof.
  apply (pattern_executor_schedule Sample.env Sample.config REQUEST_PATTERNS
           "liked_me_processing" _ 1 1 Sample.world); [reflexivity|].
  intros n. reflexivity.
Defined.

(** The schedule of the pattern ["liked_me_processing"]: three counts with
    two micro delays between them, then the three single calls. *)
Example schedule_liked_me_processing :
  schedule [pattern "fast_match_count" "GET" 3 "micro";
            pattern "fast_match_newcount" "GET" 1 "micro";
            pattern "liked_me_batch" "GET" 1 "short";
            pattern "fast_match_teaser" "GET" 1 "micro"]
  = [wire_call "fast_match_count" "GET";
     pause "micro" (ctx_repeat "fast_match_count" 1);
     wire_call "fast_match_count" "GET";
     pause "micro" (ctx_repeat "fast_match_count" 2);
     wire_call "fast_match_count" "GET";
     pause "short" (ctx_after "fast_match_count");
     wire_call "fast_match_newcount" "GET";
     pause "short" (ctx_after "fast_match_newcount");
     wire_call "liked_me_batch" "GET";
     pause "short" (ctx_after "liked_me_batch");
     wire_call "fast_match_teaser" "GET"].
Proof. by vm_compute. Qed.

End ExecutorFacts.

(** ** Queue batch processor *)

Section BatchFacts.
Import Bot Observed.

Lemma new_users_of_all_seen page processed :
  all_seen page processed → new_users_of page processed = ([], processed).
Proof.
  induction 1 as [|u page Hu _ IH]; [done|]. cbn [new_users_of].
  destruct (given (user_id u)) as [uid|]; [|done].
  by rewrite bool_decide_eq_true_2 by by apply Hu.
Qed.



Section BatchRun.
Context (env : Env) (config : Config) (account_id session_id session_end_time : Z).
Hypothesis Hrun : ∀ n, running_at env n = true.
Hypothesis Hclock : ∀ n, clock env n < session_end_time.
Hypothesis Hdb : ∀ n, db_available env n = true.

Lemma bindM_unfold {S A B} (m : M S A) (k : A → M S B) s :
  (m ≫= k) s =
  match m s with
  | (s', Returns a) => k a s'
  | (s', Raises) => (s', Raises)
  | (s', OutOfFuel) => (s', OutOfFuel)
  end.
Proof. reflexivity. Qed.

Lemma bindM_returns {S A B} (m : M S A) (k : A → M S B) s s' a :
  m s = (s', Returns a) → (m ≫= k) s = k a s'.
Proof. intros H. unfold mbind, M_bind. by rewrite H. Qed.

Section Counted.
Context (count : Z).
Hypothesis Hcount : ∀ n, liked_me_count_reply env n = answers (Some count).


End Counted.

End BatchRun.

(** C9.  At any turn of the page loop, whatever the statistics say about
    the users available and processed: when the page fetched has no user
    that is new in this run, the loop ends after the fetch and its delay,
    with one more API call counted and nothing else done. *)
Theorem stale_page_ends_pagination (env : Env) (config : Config)
    (account_id session_id session_end_time : Z) (fuel : nat) (cycle_number : Z)
    (processed_user_ids : gset string) (w : World) (stats : Stats)
    (page : list UserData) :
  clock env (now w) < session_end_time →
  running_at env (now w) = true →
  liked_me env (now w) = answers (Some page) →
  all_seen page processed_user_ids →
  page_loop env config account_id session_id session_end_time (S fuel)
    cycle_number processed_user_ids (w, stats)
  = ((emit (EvSleep (default 0.5%Q (delay_after_page_fetch config)))
        (emit (EvCall (call_liked_me
                         (default 100 (liked_me_count_per_request config)) None)) w),
      with_api_calls_made (Z.add 1) stats),
     Returns tt).
Proof.
  intros Hclock Hrun Hpage Hseen. cbn [page_loop fst].
  rewrite Hrun. destruct (Z.ltb_spec (clock env (now w)) session_end_time); [|lia].
  cbn [andb]. unfold gets at 1. unfold mbind at 1, M_bind at 1.
  rewrite (bindM_returns _ _ _ (emit (EvCall (call_liked_me
             (default 100 (liked_me_count_per_request config)) None)) w, stats) (Some page))
    by (unfold call, ask; cbn [fst snd]; by rewrite Hpage).
  unfold on_stats, on_world, modify. unfold mbind at 1 2, M_bind at 1 2. cbn [fst snd].
  unfold page_body. rewrite (new_users_of_all_seen _ _ Hseen).
  by destruct page.
Qed.

Lemma stale_page_ends_pagination_witness :
  page_loop Sample.env Sample.patient_config 1 1 1 1 1 Sample.seen
    (Sample.world, with_total_available (fun _ => 100) no_stats)
  = ((emit (EvSleep (default 0.5%Q (delay_after_page_fetch Sample.patient_config)))
        (emit (EvCall (call_liked_me
                 (default 100 (liked_me_count_per_request Sample.patient_config)) None))
           Sample.world),
      with_api_calls_made (Z.add 1) (with_total_available (fun _ => 100) no_stats)),
     Returns tt).
Proof.
  apply (stale_page_ends_pagination Sample.env Sample.patient_config 1 1 1 0 1
           Sample.seen Sample.world _ Sample.queue); try reflexivity.
  apply Forall_forall. intros user_data Hin uid Huid.
  apply elem_of_list_to_set, list_elem_of_omap. by exists user_data.
Defined.

(** A whole run in which the queue does not advance: the count says 25,
    the two users of the first page are liked, the second fetch brings the
    same two users and ends the run; 23 is written as the cached count. *)
Example run_ends_on_stale_page :
  let r := process_all_liked_me_enhanced Sample.env_two_users Sample.patient_config
             1 1 1 5 Sample.world in
  r.2 = Returns {| users_processed := 2; likes_sent := 2; passes_sent := 0;
                   matches_gained := 0; api_calls_made := 3; cycles_completed := 1;
                   total_available := 25; phases_completed := [] |}
  ∧ omap liked_user (trace r.1) = [Sample.user 0; Sample.user 1]
  ∧ status_liked_me_count <$> account_status (db r.1) !! 1 = Some 23.
Proof. by vm_compute. Qed.


End BatchFacts.

(** ** Session orchestrator *)

Section OrchestratorFacts.
Import Bot Observed.

Section Record.
Context (env : Env) (config : Config) (sid aid : Z) (rows : gmap Z SessionRow).
Abbreviation P := (on_record sid aid rows).

Lemma stable_emit e : stable P (emit e).
Proof. by intros w H. Qed.

Lemma stable_adaptive_delay delay_type context factor :
  stable P (adaptive_delay env config delay_type context factor).
Proof.
  intros w H. unfold adaptive_delay. by destruct (_ && _).
Qed.

Lemma stable_status f account_id :
  stable P (with_db (with_status (alter f account_id))).
Proof. by intros w H. Qed.

Lemma stable_update_cached account_id count :
  stable P (_update_cached_liked_count env account_id count).
Proof. intros w H. unfold _update_cached_liked_count. by destruct (db_available _ _). Qed.

Lemma stable_update_check account_id count :
  stable P (update_liked_me_check env account_id count).
Proof. intros w H. unfold update_liked_me_check. by destruct (db_available _ _). Qed.

Lemma stable_mark_banned account_id : stable P (_mark_account_banned env account_id).
Proof. intros w H. unfold _mark_account_banned. by destruct (db_available _ _). Qed.

Lemma stable_log_activity account_id session_id activity :
  stable P (log_enhanced_activity env account_id session_id activity).
Proof. intros w H. unfold log_enhanced_activity. by destruct (db_available _ _). Qed.

Lemma stable_transition new_phase account_id :
  stable P (transition_session_phase env config new_phase account_id).
Proof.
  intros w H. unfold transition_session_phase. case_bool_decide; [done|].
  apply stable_adaptive_delay. destruct H as [Hs Hr].
  destruct (db_available _ _); (split; [exact Hs|exact Hr]).
Qed.

Lemma stable_end_session account_id stats :
  stable P (end_enhanced_session env config account_id sid stats).
Proof.
  intros w [Hstart (row & Hrows & Hacc)]. unfold end_enhanced_session.
  destruct (start_time (current_session w)) as [started|] eqn:Es; [|by destruct Hstart].
  destruct (db_available env (now w)); [|split; [by cbn; rewrite Es|by exists row]].
  split; [by cbn; rewrite Es|]. cbn [with_db db enhanced_sessions]. rewrite Hrows.
  eexists. split; [by rewrite alter_insert_eq|done].
Qed.

Lemma stable_add_action : stable P (with_session add_action).
Proof. by intros w H. Qed.

Lemma stable_timing account_id session_id request_type ms ok triple position :
  stable P (_log_request_timing env account_id session_id request_type ms ok triple position).
Proof. intros w H. unfold _log_request_timing. by destruct (db_available _ _). Qed.

Lemma repeat_body_on_record p account_id session_id repeat st :
  P st.1 → P (repeat_body env config p account_id session_id repeat st).1.
Proof.
  destruct st as [w results]. cbn [fst]. intros H. unfold repeat_body.
  set (w1 := if default false (log_request_timings config) then _ else _).
  assert (H1 : P w1).
  { subst w1. destruct (default false (log_request_timings config)); [|done].
    by apply stable_timing. }
  clearbody w1.
  destruct (negb _); destruct (repeat <? _); cbn [fst];
    try apply stable_adaptive_delay; done.
Qed.

Lemma repeat_loop_on_record p account_id session_id todo repeat st :
  P st.1 → P (repeat_loop env config p account_id session_id todo repeat st).1.
Proof.
  revert repeat st. induction todo as [|todo IH]; intros repeat st H; [done|].
  cbn [repeat_loop]. destruct (negb _); [done|].
  by apply IH, repeat_body_on_record.
Qed.

Lemma pattern_body_on_record patterns p account_id session_id st :
  P st.1 → P (pattern_body env config patterns p account_id session_id st).1.
Proof.
  intros H. unfold pattern_body.
  pose proof (repeat_loop_on_record p account_id session_id
                (Z.to_nat (repeat_count p)) 0 st H) as H1.
  destruct (repeat_loop _ _ _ _ _ _ _ _) as [w results]. cbn [fst] in *.
  destruct (negb _); [by apply stable_adaptive_delay|done].
Qed.

Lemma pattern_loop_on_record patterns todo account_id session_id st :
  P st.1 → P (pattern_loop env config patterns todo account_id session_id st).1.
Proof.
  revert st. induction todo as [|p todo IH]; intros st H; [done|].
  cbn [pattern_loop]. destruct (negb _); [done|].
  by apply IH, pattern_body_on_record.
Qed.

Lemma execute_request_pattern_on_record table pattern_name account_id session_id w :
  P w → P (execute_request_pattern env config table pattern_name account_id session_id w).1.
Proof.
  intros H. unfold execute_request_pattern.
  destruct (table !! pattern_name) as [patterns|]; [|done].
  pose proof (pattern_loop_on_record patterns patterns account_id session_id
                (w, {| success := true; requests_made := 0; errors := 0; timings := [] |})
                H) as H1.
  destruct (pattern_loop _ _ _ _ _ _ _) as [w1 results]. exact H1.
Qed.

Lemma process_single_on_record account_id session_id u i total w :
  P w → P (_process_single_liked_user env config account_id session_id u i total w).1.
Proof.
  intros H. unfold _process_single_liked_user.
  destruct (given (user_id u)); [|done].
  destruct (like_user env (now w) u) as [r|]; [|done].
  set (w1 := log_enhanced_activity _ _ _ _ _).
  assert (H1 : P w1) by by apply stable_log_activity.
  clearbody w1. destruct r; cbn [fst]; try done.
  by destruct (get_updates env (now w1)).
Qed.

Lemma like_loop_on_record account_id session_id session_end_time total todo i st :
  P st.1.1 →
  P (like_loop env config account_id session_id session_end_time total todo i st).1.1.
Proof.
  revert i st. induction todo as [|u todo IH]; intros i [[w stats] batch] H; [done|].
  cbn [like_loop]. destruct (_ || _); [done|].
  pose proof (process_single_on_record account_id session_id u i total w H) as H1.
  destruct (_process_single_liked_user _ _ _ _ _ _ _ _) as [w1 result]. cbn [fst] in H1.
  destruct (_ <=? _); [done|]. apply IH. cbn [fst].
  by destruct (bool_decide _).
Qed.

(** *** Computations *)

Lemma keeps_ret {A} (a : A) : keeps P (mret a).
Proof. by intros s H. Qed.

Lemma keeps_raise {A} : keeps P (@raise _ A).
Proof. by intros s H. Qed.

Lemma keeps_gets {A} (f : World * Stats → A) : keeps P (gets f).
Proof. by intros s H. Qed.

Lemma keeps_bind {A B} (m : M (World * Stats) A) (k : A → M (World * Stats) B) :
  keeps P m → (∀ a, keeps P (k a)) → keeps P (m ≫= k).
Proof.
  intros Hm Hk s H. unfold mbind, M_bind. specialize (Hm s H).
  destruct (m s) as [s' [a| |]]; [by apply Hk|done|done].
Qed.

Lemma keeps_on_world f : stable P f → keeps P (on_world f).
Proof. intros Hf s H. by apply Hf. Qed.

Lemma keeps_on_stats f : keeps P (on_stats f).
Proof. by intros s H. Qed.

Lemma keeps_ask {A} (oracle : nat → reply A) e : keeps P (ask oracle e).
Proof. by intros s H. Qed.

Lemma keeps_call {A} (oracle : nat → reply A) c : keeps P (call oracle c).
Proof. apply keeps_ask. Qed.

Lemma keeps_catch {A} (m handler : M (World * Stats) A) :
  keeps P m → keeps P handler → keeps P (catch m handler).
Proof.
  intros Hm Hh s H. unfold catch. specialize (Hm s H).
  destruct (m s) as [s' [a| |]]; [done|by apply Hh|done].
Qed.

Lemma keeps_finish account_id : keeps P (finish env config account_id sid).
Proof. intros s H. by apply stable_end_session. Qed.

Lemma keeps_count_loop todo : keeps P (count_loop env todo).
Proof.
  induction todo as [|todo IH]; [apply keeps_ret|]. cbn [count_loop].
  apply keeps_bind; [apply keeps_call|]. intros count.
  apply keeps_bind; [apply keeps_on_stats|]. intros _.
  apply keeps_bind; [|done].
  destruct count; [apply keeps_on_stats|apply keeps_ret].
Qed.

Lemma keeps_page_body account_id session_id session_end_time cycle liked_users
    batch_time processed :
  keeps P (page_body env config account_id session_id session_end_time cycle
             liked_users batch_time processed).
Proof.
  unfold page_body. destruct liked_users as [[|u page]|]; try apply keeps_ret.
  destruct (new_users_of (u :: page) processed) as [[|u' new_users] seen];
    [apply keeps_ret|].
  intros [w stats] H. cbn [fst] in H.
  set (w1 := log_enhanced_activity _ _ _ _ _).
  assert (H1 : P w1) by by apply stable_log_activity.
  clearbody w1.
  pose proof (like_loop_on_record account_id session_id session_end_time
                (Z.of_nat (length (u' :: new_users))) (u' :: new_users) 1
                (w1, stats, {| batch_likes := 0; batch_passes := 0; batch_matches := 0 |})
                H1) as H2.
  destruct (like_loop _ _ _ _ _ _ _ _ _) as [[w2 stats2] batch2]. cbn [fst] in H2.
  by repeat case_match.
Qed.

Lemma keeps_page_loop account_id session_id session_end_time fuel cycle processed :
  keeps P (page_loop env config account_id session_id session_end_time fuel cycle processed).
Proof.
  revert cycle processed. induction fuel as [|fuel IH]; intros cycle processed;
    [by intros s H|].
  cbn [page_loop]. intros s H. destruct (_ && _); [|done]. revert s H.
  apply keeps_bind; [apply keeps_gets|]. intros batch_time.
  apply keeps_bind; [apply keeps_call|]. intros liked_users.
  apply keeps_bind; [apply keeps_on_stats|]. intros _.
  apply keeps_bind; [apply keeps_on_world, stable_emit|]. intros _.
  apply keeps_bind; [apply keeps_page_body|]. intros [seen|]; [apply IH|apply keeps_ret].
Qed.

Lemma keeps_liked_me_run account_id session_id session_end_time fuel :
  keeps P (liked_me_run env config account_id session_id session_end_time fuel).
Proof.
  unfold liked_me_run.
  apply keeps_bind; [apply keeps_gets|]. intros todo.
  apply keeps_bind; [apply keeps_count_loop|]. intros _.
  apply keeps_bind; [apply keeps_gets|]. intros stats.
  destruct (_ =? _); [apply keeps_on_world, stable_update_cached|].
  apply keeps_bind; [apply keeps_page_loop|]. intros _.
  apply keeps_bind; [apply keeps_gets|]. intros stats'.
  apply keeps_on_world, stable_update_cached.
Qed.

Lemma process_all_on_record account_id session_id session_end_time fuel w :
  P w →
  P (process_all_liked_me_enhanced env config account_id session_id session_end_time
       fuel w).1.
Proof.
  intros H. unfold process_all_liked_me_enhanced.
  pose proof (keeps_catch _ (on_world (emit (EvLog ERROR msg_liked_me_error)))
                (keeps_liked_me_run account_id session_id session_end_time fuel)
                (keeps_on_world _ (stable_emit _)) (w, no_stats) H) as H1.
  destruct (catch _ _ _) as [[w1 stats1] [a| |]]; exact H1.
Qed.

Lemma keeps_profile_update_phase account_id :
  keeps P (profile_update_phase env config account_id).
Proof.
  unfold profile_update_phase.
  apply keeps_bind; [apply keeps_on_world, stable_transition|]. intros _.
  apply keeps_bind; [apply keeps_ask|]. intros updated.
  apply keeps_bind; [|intros _; apply keeps_on_stats].
  destruct updated; [apply keeps_on_world, stable_adaptive_delay|apply keeps_ret].
Qed.

Lemma keeps_liking_phase fuel account_id session_id session_end_time :
  keeps P (liking_phase env config fuel account_id session_id session_end_time).
Proof.
  unfold liking_phase.
  apply keeps_bind; [apply keeps_on_world, stable_transition|]. intros _.
  apply keeps_bind; [|intros like_stats; apply keeps_on_stats].
  intros s H.
  pose proof (process_all_on_record account_id session_id session_end_time fuel s.1 H) as H1.
  by destruct (process_all_liked_me_enhanced _ _ _ _ _ _ _).
Qed.

Lemma keeps_update_and_like fuel account session_id session_end_time liked_me_count :
  keeps P (update_and_like env config fuel account session_id session_end_time
             liked_me_count).
Proof.
  unfold update_and_like.
  apply keeps_bind; [apply keeps_ask|]. intros needs_update.
  apply keeps_bind.
  { destruct needs_update; [apply keeps_profile_update_phase|apply keeps_ret]. }
  intros _. apply keeps_bind.
  { destruct (like_users_who_liked_me config); [|apply keeps_ret].
    destruct liked_me_count as [count|]; [|apply keeps_raise].
    destruct (0 <? count); [apply keeps_liking_phase|apply keeps_ret]. }
  intros _. apply keeps_bind; [apply keeps_gets|]. intros session_stats.
  destruct (_ && _); [|apply keeps_ret].
  apply keeps_bind; [apply keeps_on_world, stable_emit|].
  intros _. apply keeps_on_world, stable_emit.
Qed.

Lemma keeps_session_body table fuel account session_end_time :
  keeps P (session_body env config table fuel account sid session_end_time).
Proof.
  unfold session_body.
  apply keeps_bind; [apply keeps_on_world, stable_transition|]. intros _.
  apply keeps_bind.
  { intros s H.
    pose proof (execute_request_pattern_on_record table "startup" (id account) sid s.1 H)
      as H1.
    by destruct (execute_request_pattern _ _ _ _ _ _ _). }
  intros [|startup_result]; [apply keeps_raise|].
  apply keeps_bind; [apply keeps_on_stats|]. intros _.
  apply keeps_bind; [apply keeps_on_stats|]. intros _.
  destruct (_ || _); [apply keeps_ret|].
  apply keeps_bind; [apply keeps_call|]. intros [profile_data|]; [|apply keeps_finish].
  destruct (negb _).
  { apply keeps_bind; [apply keeps_on_world, stable_mark_banned|].
    intros _. apply keeps_finish. }
  apply keeps_bind; [apply keeps_call|]. intros fresh_count.
  apply keeps_bind.
  { destruct fresh_count as [count|]; [|apply keeps_ret].
    destruct (negb _); [|apply keeps_ret].
    apply keeps_bind; [apply keeps_on_world, stable_update_cached|].
    intros _. apply keeps_ret. }
  intros liked_me_count. case_bool_decide; [|apply keeps_update_and_like].
  apply keeps_bind; [apply keeps_gets|]. intros should_check.
  destruct should_check.
  - apply keeps_bind; [apply keeps_call|]. intros count.
    apply keeps_bind; [|intros _; apply keeps_update_and_like].
    destruct count; [apply keeps_on_world, stable_update_check|apply keeps_ret].
  - apply keeps_bind; [apply keeps_profile_update_phase|]. intros _.
    apply keeps_finish.
Qed.

(** With the database at hand, the end of a session on record writes its
    end time. *)
Lemma end_session_closes account_id stats w :
  P w → db_available env (now w) = true →
  ∃ row,
    enhanced_sessions (db (end_enhanced_session env config account_id sid stats w))
    = <[sid := row]> rows
    ∧ row_account_id row = aid
    ∧ row_session_end row = Some (clock env (now w))
    ∧ trace (end_enhanced_session env config account_id sid stats w) = trace w.
Proof.
  intros [Hstart (row & Hrows & Hacc)] Hdb. unfold end_enhanced_session.
  destruct (start_time (current_session w)) as [started|]; [|by destruct Hstart].
  rewrite Hdb. cbn [with_db db enhanced_sessions trace]. rewrite Hrows.
  eexists. split; [by rewrite alter_insert_eq|]. done.
Qed.
End Record.

(** X22.  With the configured bounds of the session duration in order and
    within a day, so that [random.randint] and [timedelta] do not raise
    before the [try] block, and with a database that works: however the
    run ends, a session that started is closed; its row, and no other, is
    new in the table and has an end time. *)
Lemma session_always_closed (env : Env) (config : Config)
    (table : gmap string (list RequestPattern)) (fuel : nat) (account : Account)
    (w : World) :
  let session_id := sessions_sequence (db w) + 1 in
  usable_durations config →
  (∀ n, db_available env n = true) →
  0 <= sessions_sequence (db w) →
  ∃ row t,
    enhanced_sessions
      (db (process_single_account_enhanced env config table fuel account w).1)
    = <[session_id := row]> (enhanced_sessions (db w))
    ∧ row_account_id row = id account
    ∧ row_session_end row = Some (clock env t).
Proof.
  intros sid _ Hdb Hseq. unfold process_single_account_enhanced.
  assert (Hstart : start_enhanced_session env (id account) w
                   = ((start_enhanced_session env (id account) w).1, sid)).
  { unfold start_enhanced_session. cbn [with_session now trace]. by rewrite Hdb. }
  assert (Hrec : on_record sid (id account) (enhanced_sessions (db w))
                   (session_entry env account w).1).
  { unfold session_entry, start_enhanced_session. cbn [with_session now trace fst].
    rewrite Hdb. split; [by eexists|]. eexists. split; [reflexivity|done]. }
  rewrite Hstart. destruct (Z.eqb_spec sid 0) as [H0|_]; [subst sid; lia|].
  destruct (initialize_api env _); cbn [negb].
  - assert (Hkeeps : keeps (on_record sid (id account) (enhanced_sessions (db w)))
                       (catch (session_body env config table fuel account sid
                                 (end_time_of env config account w))
                              (on_world (emit (EvLog ERROR
                                                 (msg_processing_error (id account)))))))
      by (apply keeps_catch; [apply keeps_session_body|apply keeps_on_world, stable_emit]).
    pose proof (Hkeeps _ Hrec) as Hbody.
    destruct (catch _ _ _) as [[w1 stats1] r]. cbn [fst snd] in *.
    destruct (end_session_closes env config sid (id account) _ (id account) stats1
                w1 Hbody (Hdb _)) as (row & Hrows & Hacc & Hend & _).
    by exists row, (now w1).
  - destruct (end_session_closes env config sid (id account) _ (id account) no_stats
                _ Hrec (Hdb _)) as (row & Hrows & Hacc & Hend & _).
    eexists row, _. cbn [fst]. done.
Qed.

(** C1.  When the session has started, the API object is built and the
    [try] block raises (in the profile-update phase, in the liking phase or
    anywhere else), the orchestrator returns normally, the last line of its
    log is the error, and the table of sessions has exactly one new row, the
    one of this session, with the account and an end time; the rows that
    were there before are as they were. *)
Theorem session_closed_after_exception (env : Env) (config : Config)
    (table : gmap string (list RequestPattern)) (fuel : nat) (account : Account)
    (w : World) :
  let session_id := sessions_sequence (db w) + 1 in
  (∀ n, db_available env n = true) →
  0 <= sessions_sequence (db w) →
  (∀ k, k ∈ dom (enhanced_sessions (db w)) → k <= sessions_sequence (db w)) →
  initialize_api env (now (start_enhanced_session env (id account) w).1) = true →
  (session_body env config table fuel account session_id
     (end_time_of env config account w) (session_entry env account w)).2 = Raises →
  ∃ w' row t,
    process_single_account_enhanced env config table fuel account w = (w', Returns tt)
    ∧ enhanced_sessions (db w) !! session_id = None
    ∧ enhanced_sessions (db w') = <[session_id := row]> (enhanced_sessions (db w))
    ∧ row_account_id row = id account
    ∧ row_session_end row = Some (clock env t)
    ∧ last (trace w') = Some (EvLog ERROR (msg_processing_error (id account))).
Proof.
  intros sid Hdb Hseq Hdom Hapi Hraises.
  assert (Hfresh : enhanced_sessions (db w) !! sid = None).
  { apply not_elem_of_dom. intros Hin. apply Hdom in Hin. subst sid. lia. }
  unfold process_single_account_enhanced.
  assert (Hstart : start_enhanced_session env (id account) w
                   = ((start_enhanced_session env (id account) w).1, sid)).
  { unfold start_enhanced_session. cbn [with_session now trace]. by rewrite Hdb. }
  assert (Hrec : on_record sid (id account) (enhanced_sessions (db w))
                   (session_entry env account w).1).
  { unfold session_entry, start_enhanced_session. cbn [with_session now trace fst].
    rewrite Hdb. split; [by eexists|]. eexists. split; [reflexivity|done]. }
  rewrite Hstart. destruct (Z.eqb_spec sid 0) as [H0|_]; [subst sid; lia|].
  rewrite Hapi. cbn [negb].
  pose proof (keeps_session_body env config sid (id account) _ table fuel account
                (end_time_of env config account w) _ Hrec) as Hbody.
  fold sid in Hraises. unfold catch.
  destruct (session_body _ _ _ _ _ _ _ _) as [[w1 stats1] r]. cbn [fst snd] in *.
  subst r. unfold on_world, modify. cbn [fst snd].
  destruct (end_session_closes env config sid (id account) _ (id account) stats1
              (emit (EvLog ERROR (msg_processing_error (id account))) w1) Hbody (Hdb _))
    as (row & Hrows & Hacc & Hend & Htrace).
  eexists _, row, _. split; [reflexivity|]. rewrite Hrows, Htrace.
  repeat split; try done. cbn [emit trace]. by rewrite last_snoc.
Qed.

Lemma session_closed_after_exception_witness :
  ∃ w' row t,
    process_single_account_enhanced Sample.env_update_raises Sample.config
      REQUEST_PATTERNS 1 Sample.account Sample.world = (w', Returns tt)
    ∧ enhanced_sessions (db Sample.world) !! (sessions_sequence (db Sample.world) + 1)
      = None
    ∧ enhanced_sessions (db w')
      = <[sessions_sequence (db Sample.world) + 1 := row]>
          (enhanced_sessions (db Sample.world))
    ∧ row_account_id row = id Sample.account
    ∧ row_session_end row = Some (clock Sample.env_update_raises t)
    ∧ last (trace w') = Some (EvLog ERROR (msg_processing_error (id Sample.account))).
Proof.
  apply (session_closed_after_exception Sample.env_update_raises Sample.config
           REQUEST_PATTERNS 1 Sample.account Sample.world).
  - intros n. reflexivity.
  - by vm_compute.
  - intros k Hk. by apply elem_of_empty in Hk.
  - reflexivity.
  - by vm_compute.
Defined.

End OrchestratorFacts.

(** ** Login codec, further *)

Section CodecExtras.
Import PyBytes LoginCodec.

(** X1.  A varint that [_encode_varint] wrote for a value [>= 0] is read
    back by [_decode_varint] wherever it stands in a buffer: the value
    comes back, and the position is the one behind the varint. *)
Theorem varint_round_trip (value : Z) (pre rest : bytes) :
  0 <= value →
  _decode_varint (pre ++ _encode_varint value ++ rest) (len pre)
  = (value, len pre + len (_encode_varint value)).
Proof. apply decode_encode_varint. Qed.

Lemma varint_round_trip_witness :
  _decode_varint ([x0a] ++ _encode_varint 300 ++ [xff]) (len [x0a])
  = (300, len [x0a] + len (_encode_varint 300)).
Proof. apply (varint_round_trip 300 [x0a] [xff]). lia. Defined.

Lemma encode_varint_loop_shape fuel value bs :
  0 <= value →
  encode_varint_loop fuel value = Some bs →
  ∃ body last, bs = body ++ [last]
    ∧ Forall (fun b => 128 <= byte_val b) body
    ∧ byte_val last < 128
    ∧ length body = Z.to_nat (Z.log2 value / 7).
Proof.
  revert value bs. induction fuel as [|fuel IH]; intros value bs Hv Henc; [done|].
  cbn [encode_varint_loop] in Henc.
  pose proof (land_low_range value) as Hlow.
  destruct (Z.leb_spec 0x80 value) as [Hbig|Hsmall].
  - destruct (encode_varint_loop fuel (Z.shiftr value 7)) as [bs'|] eqn:E; [|done].
    cbn in Henc. injection Henc as <-.
    destruct (IH _ _ (proj2 (Z.shiftr_nonneg value 7) Hv) E) as (body & last & -> & Hb & Hl & Hlen).
    exists (byte_of_Z (Z.lor (Z.land value 127) 128) :: body), last.
    split; [done|]. split; [|split; [done|]].
    + constructor; [|done]. rewrite lor_128 by done. rewrite byte_val_of_Z; lia.
    + cbn [length]. rewrite Hlen, Z.log2_shiftr by lia.
      assert (7 <= Z.log2 value) by (apply Z.log2_le_pow2; lia).
      rewrite Z.max_r by lia.
      replace (Z.log2 value) with ((Z.log2 value - 7) + 1 * 7) at 2 by lia.
      rewrite Z.div_add by lia.
      assert (0 <= (Z.log2 value - 7) / 7) by (apply Z.div_pos; lia). lia.
  - injection Henc as <-. exists [], (byte_of_Z (Z.land value 127)).
    split; [done|]. split; [constructor|].
    rewrite byte_val_of_Z by lia. split; [lia|].
    cbn [length]. destruct (decide (value = 0)) as [->|Hne]; [done|].
    assert (Z.log2 value < 7) by (apply Z.log2_lt_pow2; lia).
    pose proof (Z.log2_nonneg value).
    rewrite Z.div_small by lia. done.
Qed.

(** X2.  The bytes that [_encode_varint] writes for a value [>= 0]: every
    byte but the last has the continuation bit, the last has not, and
    there is one byte for each 7 bits of the value. *)
Theorem encode_varint_shape (value : Z) :
  0 <= value →
  ∃ body last,
    _encode_varint value = body ++ [last]
    ∧ Forall (fun b => 128 <= byte_val b) body
    ∧ byte_val last < 128
    ∧ length body = Z.to_nat (Z.log2 value / 7).
Proof.
  intros Hv. exact (encode_varint_loop_shape _ _ _ Hv (encode_varint_eq value)).
Qed.

Lemma encode_varint_shape_witness :
  ∃ body last,
    _encode_varint 300 = body ++ [last]
    ∧ Forall (fun b => 128 <= byte_val b) body
    ∧ byte_val last < 128
    ∧ length body = Z.to_nat (Z.log2 300 / 7).
Proof. apply (encode_varint_shape 300). lia. Defined.

(** X3.  The decoder returns on every byte string: it raises nothing,
    whatever the bytes, and its loops end. *)
Theorem decoder_never_raises (response_data : bytes) :
  ∃ result, _parse_auth_response_manual response_data = Returns result.
Proof. apply _parse_auth_response_manual_returns. Qed.

(** X4.  A login result with the three strings, framed as the service
    frames it, decodes to the success dictionary with these strings,
    whatever strings of valid UTF-8 they are. *)
Theorem login_result_round_trip (auth refresh uid : string) :
  utf8_valid (encode_utf8 auth) = true →
  utf8_valid (encode_utf8 refresh) = true →
  utf8_valid (encode_utf8 uid) = true →
  _parse_auth_response_manual (login_response auth refresh uid)
  = Returns (LoginOk {| auth_token := Some auth; refresh_token := Some refresh;
                        user_id := Some uid |}).
Proof. apply login_response_round_trip. Qed.

Lemma login_result_round_trip_witness :
  _parse_auth_response_manual (login_response "tok" "" "u-1")
  = Returns (LoginOk {| auth_token := Some "tok"; refresh_token := Some "";
                        user_id := Some "u-1" |}).
Proof. apply (login_result_round_trip "tok" "" "u-1"); reflexivity. Defined.

Lemma read_string_invalid (pre bs rest : bytes) :
  utf8_valid bs = false →
  read_string (pre ++ _encode_varint (len bs) ++ bs ++ rest) (len pre) = Raises.
Proof.
  intros Hbad. unfold read_string.
  rewrite decode_encode_varint by apply len_nonneg.
  rewrite (app_assoc pre), <- len_app, slice_at.
  unfold decode_utf8. by rewrite Hbad.
Qed.

(** A slice whose end lies behind the data stops at the end of the data. *)
Lemma slice_clamped (pre tl : bytes) n :
  len tl <= n → slice (pre ++ tl) (len pre) (len pre + n) = tl.
Proof.
  intros Hn. unfold slice. replace (len pre + n - len pre) with n by lia.
  unfold len in *. rewrite Nat2Z.id, drop_app_length.
  apply take_ge. lia.
Qed.

Lemma login_result_loop_invalid n (bs : bytes) fuel pre rest result :
  n = 1 ∨ n = 2 ∨ n = 4 →
  utf8_valid bs = false →
  login_result_loop (S fuel) (pre ++ length_delimited n bs ++ rest) (len pre) result
  = Raises.
Proof.
  intros Hn Hbad. unfold length_delimited.
  set (key := byte_of_Z (Z.lor (Z.shiftl n 3) 2)).
  destruct (tag_of_length_delimited n) as [Hnum _]; [lia|]. fold key in Hnum.
  cbn [app]. rewrite (login_result_loop_step _ _ _ _ key); [| |apply getitem_at].
  - pose proof (read_string_invalid (pre ++ [key]) bs rest Hbad) as Hread.
    rewrite <- !app_assoc, len_app in Hread. cbn [app] in Hread.
    change (len [key]) with 1 in Hread. rewrite <- app_assoc.
    rewrite Hnum.
    destruct Hn as [->|[->| ->]]; cbn [Z.eqb Pos.eqb]; by rewrite Hread.
  - rewrite len_app, len_cons.
    pose proof (len_nonneg ((_encode_varint (len bs) ++ bs) ++ rest)). lia.
Qed.

(** X5.  A string that is not valid UTF-8 in sub-field 1, 2 or 4 of the
    login result makes the whole decoding fail, also when the
    authentication token was read before it: the token is not returned. *)
Theorem invalid_utf8_fails_whole_response (auth : string) (n : Z)
    (bs rest tail : bytes) :
  utf8_valid (encode_utf8 auth) = true →
  utf8_valid bs = false →
  n = 1 ∨ n = 2 ∨ n = 4 →
  _parse_auth_response_manual
    (length_delimited 8
       (length_delimited 2 (encode_utf8 auth) ++ length_delimited n bs ++ rest)
     ++ tail)
  = Returns ParseFailure.
Proof.
  intros Hauth Hbad Hn. unfold _parse_auth_response_manual.
  set (fa := length_delimited 2 (encode_utf8 auth)).
  set (payload := fa ++ length_delimited n bs ++ rest).
  assert (Hinner : ∀ result,
            login_result_loop (loop_fuel payload) payload 0 result = Raises).
  { intros result. unfold loop_fuel.
    assert (Hfuel : ∃ fuel, S (length payload) = S (S fuel)).
    { exists (length payload - 1)%nat. subst payload fa.
      unfold length_delimited. rewrite !length_app. cbn [length]. lia. }
    destruct Hfuel as [fuel ->]. subst payload.
    pose proof (login_result_loop_reads 2 auth (S fuel) []
                  (length_delimited n bs ++ rest) result) as H1.
    cbn [app] in H1. change (len []) with 0 in H1. fold fa in H1.
    rewrite H1 by auto. rewrite Z.add_0_l.
    by apply login_result_loop_invalid. }
  set (key := byte_of_Z (Z.lor (Z.shiftl 8 3) 2)).
  destruct (tag_of_length_delimited 8) as [Hnum _]; [lia|]. fold key in Hnum.
  change (length_delimited 8 payload)
    with ([key] ++ _encode_varint (len payload) ++ payload).
  unfold loop_fuel in *. rewrite <- !app_assoc. cbn [app length].
  rewrite (response_loop_step _ _ 0 _ key); [| |done].
  2:{ rewrite len_cons.
      pose proof (len_nonneg (_encode_varint (len payload) ++ payload ++ tail)). lia. }
  rewrite Hnum. cbn [Z.eqb Pos.eqb]. change (0 + 1) with 1.
  pose proof (decode_encode_varint (len payload) [key] (payload ++ tail) (len_nonneg _))
    as Hdec.
  cbn [app] in Hdec. change (len [key]) with 1 in Hdec. rewrite Hdec.
  pose proof (slice_at (key :: _encode_varint (len payload)) payload tail) as Hslice.
  rewrite len_cons in Hslice. cbn [app] in Hslice.
  cbv zeta. rewrite Hslice, Hinner. reflexivity.
Qed.

Lemma invalid_utf8_fails_whole_response_witness :
  _parse_auth_response_manual
    (length_delimited 8
       (length_delimited 2 (encode_utf8 "AUTH1") ++ length_delimited 4 [xff] ++ [])
     ++ [x08; x01])
  = Returns ParseFailure.
Proof.
  apply (invalid_utf8_fails_whole_response "AUTH1" 4 [xff] [] [x08; x01]);
    [reflexivity|reflexivity|auto].
Defined.

(** X6.  Lengths are not checked against the data: a login result and a
    token whose announced lengths [L] and [n] reach behind the end of the
    response are read up to the end, and the decoder answers success with
    the bytes that are there. *)
Theorem truncated_response_accepted (L n : Z) (bs : bytes) :
  utf8_valid bs = true →
  0 <= n → len bs <= n →
  len ([x12] ++ _encode_varint n ++ bs) <= L →
  _parse_auth_response_manual
    ([x42] ++ _encode_varint L ++ [x12] ++ _encode_varint n ++ bs)
  = Returns (LoginOk {| auth_token := Some (string_of_list_byte bs);
                        refresh_token := None; user_id := None |}).
Proof.
  intros Hvalid Hn0 Hn HL. unfold _parse_auth_response_manual.
  set (payload := [x12] ++ _encode_varint n ++ bs) in *.
  assert (HL0 : 0 <= L) by (pose proof (len_nonneg payload); lia).
  assert (Hinner : login_result_loop (loop_fuel payload) payload 0 no_fields
            = Returns {| auth_token := Some (string_of_list_byte bs);
                         refresh_token := None; user_id := None |}).
  { unfold loop_fuel. subst payload. cbn [app length].
    rewrite (login_result_loop_step _ _ 0 _ x12); [| |done].
    2:{ rewrite len_cons. pose proof (len_nonneg (_encode_varint n ++ bs)). lia. }
    change (field_number x12 =? 1) with false.
    change (field_number x12 =? 2) with true. cbv iota.
    change (0 + 1) with 1. unfold read_string.
    pose proof (decode_encode_varint n [x12] bs Hn0) as Hdec.
    cbn [app] in Hdec. change (len [x12]) with 1 in Hdec. rewrite Hdec.
    pose proof (slice_clamped (x12 :: _encode_varint n) bs n Hn) as Hslice.
    rewrite len_cons in Hslice. cbn [app] in Hslice. rewrite Hslice.
    unfold decode_utf8. rewrite Hvalid. cbn [of_option]. rewrite !bind_returns.
    destruct (length (_encode_varint n ++ bs)) eqn:Hlen.
    - apply length_zero_iff_nil, app_eq_nil in Hlen as [Hnil _].
      pose proof (encode_varint_eq n) as Henc. rewrite Hnil in Henc.
      unfold varint_fuel in Henc. cbn [encode_varint_loop] in Henc.
      destruct (128 <=? n); [|done].
      by destruct (encode_varint_loop _ _).
    - rewrite login_result_loop_done; [done|].
      rewrite len_cons, len_app. lia. }
  unfold loop_fuel in *. cbn [app length].
  rewrite (response_loop_step _ _ 0 _ x42); [| |done].
  2:{ rewrite len_cons. pose proof (len_nonneg (_encode_varint L ++ payload)). lia. }
  change (field_number x42 =? 8) with true. cbv iota. change (0 + 1) with 1.
  pose proof (decode_encode_varint L [x42] payload HL0) as Hdec.
  cbn [app] in Hdec. change (len [x42]) with 1 in Hdec. rewrite Hdec.
  pose proof (slice_clamped (x42 :: _encode_varint L) payload L HL) as Hslice.
  rewrite len_cons in Hslice. cbn [app] in Hslice.
  cbv zeta. rewrite Hslice. unfold loop_fuel. rewrite Hinner, bind_returns.
  destruct (length (_encode_varint L ++ payload)) eqn:Hlen.
  - apply length_zero_iff_nil, app_eq_nil in Hlen as [_ Hnil]. done.
  - rewrite response_loop_done; [done|]. rewrite len_cons, len_app. lia.
Qed.

Lemma truncated_response_accepted_witness :
  _parse_auth_response_manual
    ([x42] ++ _encode_varint 100 ++ [x12] ++ _encode_varint 36 ++ [x41; x42])
  = Returns (LoginOk {| auth_token := Some (string_of_list_byte [x41; x42]);
                        refresh_token := None; user_id := None |}).
Proof.
  apply (truncated_response_accepted 100 36 [x41; x42]); [reflexivity|lia|..].
  - vm_compute. discriminate.
  - vm_compute. discriminate.
Defined.

End CodecExtras.

(** ** Request headers, further *)

Section HeadersExtras.
Import Headers HeaderKeys.

Lemma lookup_update_ne kvs (d : gmap string string) k :
  k ∉ kvs.*1 → update kvs d !! k = d !! k.
Proof.
  unfold update. revert d. induction kvs as [|[k' v] kvs IH]; intros d Hk; [done|].
  cbn [foldl fst snd]. rewrite fmap_cons in Hk. apply not_elem_of_cons in Hk as [Hne Hk].
  rewrite IH by done. by rewrite lookup_insert_ne.
Qed.

Ltac not_among :=
  let Hin := fresh "Hin" in
  intros Hin;
  repeat (apply elem_of_cons in Hin as [Hin|Hin]; [discriminate Hin|]);
  by apply elem_of_nil in Hin.

Lemma headers_base_lookup self amb endpoint_type include_correlation k :
  k ∉ later_keys →
  headers self amb endpoint_type include_correlation !! k
  = update [("User-Agent", "Tinder Android Version 16.11.0");
            ("os-version", os_version self);
            ("app-version", "4732");
            ("platform", "android");
            ("platform-variant", "Google-Play");
            ("x-supported-image-formats", "webp");
            ("accept-language", "en-US");
            ("tinder-version", "16.11.0");
            ("store-variant", "Play-Store");
            ("x-device-ram", device_ram self);
            ("persistent-device-id", persistent_device_id self);
            ("app-session-id", app_session_id self);
            ("app-session-time-elapsed", elapsed_time amb);
            ("install-id", install_id self);
            ("accept-encoding", "gzip")] ∅ !! k.
Proof.
  intros Hk. unfold later_keys in Hk.
  repeat (apply not_elem_of_cons in Hk as [? Hk]).
  unfold headers.
  set (base := update _ ∅).
  repeat match goal with
  | |- context [if ?c then _ else _] => destruct c
  end;
  repeat first [rewrite lookup_delete_ne by done
               |rewrite lookup_insert_ne by done
               |rewrite lookup_update_ne
                  by (cbn [fmap list_fmap fst]; 
                      repeat (apply not_elem_of_cons; split; [done|]); apply not_elem_of_nil)];
  done.
Qed.

(** X7.  For every endpoint type, the fifteen headers of the base
    dictionary are in the result with the values of the client: no
    endpoint type removes or replaces one of them. *)
Theorem headers_keep_device_identity (self : TinderApi) (amb : Ambient)
    (endpoint_type : string) (include_correlation : bool) :
  let h := headers self amb endpoint_type include_correlation in
  h !! "User-Agent" = Some "Tinder Android Version 16.11.0"
  ∧ h !! "os-version" = Some (os_version self)
  ∧ h !! "app-version" = Some "4732"
  ∧ h !! "platform" = Some "android"
  ∧ h !! "platform-variant" = Some "Google-Play"
  ∧ h !! "x-supported-image-formats" = Some "webp"
  ∧ h !! "accept-language" = Some "en-US"
  ∧ h !! "tinder-version" = Some "16.11.0"
  ∧ h !! "store-variant" = Some "Play-Store"
  ∧ h !! "x-device-ram" = Some (device_ram self)
  ∧ h !! "persistent-device-id" = Some (persistent_device_id self)
  ∧ h !! "app-session-id" = Some (app_session_id self)
  ∧ h !! "app-session-time-elapsed" = Some (elapsed_time amb)
  ∧ h !! "install-id" = Some (install_id self)
  ∧ h !! "accept-encoding" = Some "gzip".
Proof.
  cbv zeta.
  repeat split;
    (rewrite headers_base_lookup by (unfold later_keys; not_among));
    unfold update; cbn [foldl fst snd];
    repeat (rewrite lookup_insert_ne by done); apply lookup_insert_eq.
Qed.

(** X8.  For every endpoint type: the authentication token is sent
    exactly when it is set, not empty, and the endpoint type is none of
    ["auth"], ["healthcheck"], ["buckets_initial"]; the two user-session
    headers are sent exactly for the other endpoint types; the correlation
    identifier exactly when it is asked for and the endpoint type is
    neither ["healthcheck"] nor ["auth"]. *)
Theorem headers_credentials (self : TinderApi) (amb : Ambient)
    (endpoint_type : string) (include_correlation : bool) :
  let h := headers self amb endpoint_type include_correlation in
  let open := bool_decide (endpoint_type ∈ ["auth"; "healthcheck"; "buckets_initial"]) in
  h !! "x-auth-token"
  = (if truthy (auth_token self) && negb open then auth_token self else None)
  ∧ h !! "user-session-id"
    = (if negb open then Some (user_session_id self) else None)
  ∧ h !! "user-session-time-elapsed"
    = (if negb open then Some (elapsed_time amb) else None)
  ∧ h !! "x-correlation-id"
    = (if include_correlation
          && negb (bool_decide (endpoint_type ∈ ["healthcheck"; "auth"]))
       then Some (correlation_id amb) else None).
Proof.
  cbv zeta. unfold headers.
  set (base := update _ ∅).
  assert (Hb : ∀ k, k ∈ later_keys → base !! k = None).
  { intros k Hk. subst base. rewrite lookup_update_ne; [done|].
    unfold later_keys in Hk. cbn [fmap list_fmap fst].
    repeat (apply elem_of_cons in Hk as [->|Hk]; [not_among|]).
    by apply elem_of_nil in Hk. }
  assert (H1 := Hb "x-auth-token"). assert (H2 := Hb "user-session-id").
  assert (H3 := Hb "user-session-time-elapsed"). assert (H4 := Hb "x-correlation-id").
  unfold later_keys in H1, H2, H3, H4.
  specialize (H1 ltac:(set_solver)). specialize (H2 ltac:(set_solver)).
  specialize (H3 ltac:(set_solver)). specialize (H4 ltac:(set_solver)).
  clearbody base. clear Hb.
  destruct (String.eqb_spec endpoint_type "auth") as [->|Hauth].
  - rewrite (bool_decide_eq_true_2 ("auth" ∈ ["auth"; "healthcheck"; "buckets_initial"]))
      by set_solver.
    rewrite (bool_decide_eq_true_2 ("auth" ∈ ["healthcheck"; "auth"])) by set_solver.
    rewrite !andb_false_r. cbn [negb]. unfold update. cbn [foldl fst snd].
    repeat split;
      repeat first [rewrite lookup_delete_eq | rewrite lookup_delete_ne by done
                   |rewrite lookup_insert_ne by done]; done.
  - destruct (auth_token self) as [tok|]; cbn [truthy andb];
    repeat match goal with
    | |- context [if ?c then _ else _] => destruct c
    end; cbn [negb andb];
    unfold update; cbn [foldl fst snd];
    repeat split;
      repeat first [rewrite lookup_insert_eq | rewrite lookup_insert_ne by done]; done.
Qed.

End HeadersExtras.

(** ** Ban classifier, further *)

Section BanExtras.
Import PyStr Bot.
Local Open Scope Q_scope.

(** X9.  The score of a response is 0 or at least 0.2; it is 0 exactly
    when the response is not empty and its text holds none of the
    indicators, and then the classifier logs nothing. *)
Theorem ban_score_zero_iff (config : Config) (response : Response) (w : World) :
  let score := (_check_ban_indicators config response w).2 in
  (score == 0 ∨ 0.2 <= score)
  ∧ (score == 0 ↔
     Forall (fun indicator => contains (lower indicator) (lower (str response)) = false)
            BAN_INDICATORS
     ∧ is_empty response = false)
  ∧ (score == 0 → (_check_ban_indicators config response w).1 = w).
Proof.
  cbv zeta. unfold BAN_INDICATORS. rewrite !Forall_cons, Forall_nil.
  unfold _check_ban_indicators, ban_indicators, BAN_INDICATORS.
  cbn [foldl]. unfold check_indicator.
  change (lower "rate_limited_until") with "rate_limited_until"%string.
  change (lower "APPEAL_BAN") with "appeal_ban"%string.
  change (lower "account_disabled") with "account_disabled"%string.
  change (lower "temporarily_unavailable") with "temporarily_unavailable"%string.
  change (lower "too_many_requests") with "too_many_requests"%string.
  destruct (contains "rate_limited_until" _), (contains "appeal_ban" _),
    (contains "account_disabled" _), (contains "temporarily_unavailable" _),
    (contains "too_many_requests" _), (is_empty response);
    cbn [fst snd orb];
    (split; [|split]);
    try (right; by vm_compute);
    try (left; by vm_compute);
    try (intros H; by vm_compute in H);
    try (split; [intros H; by vm_compute in H|intros [(? & ? & ? & ? & ? & _) ?]; done]).
Qed.

(** X10.  A response whose text holds ["rate_limited_until"] or
    ["too_many_requests"] is counted twice, as an indicator (0.7) and as
    rate limiting (0.5): its score is at least 1.2. *)
Theorem rate_limit_scores_over_threshold (config : Config) (response : Response)
    (w : World) (a b : string) :
  str response = (a ++ "rate_limited_until" ++ b)%string
  ∨ str response = (a ++ "too_many_requests" ++ b)%string →
  1.2 <= (_check_ban_indicators config response w).2.
Proof.
  intros Hstr.
  assert (Hc : contains "rate_limited_until" (lower (str response)) = true
               ∨ contains "too_many_requests" (lower (str response)) = true).
  { destruct Hstr as [Hstr|Hstr]; [left|right];
      apply contains_spec; exists (lower a), (lower b);
      by rewrite Hstr, !lower_app. }
  unfold _check_ban_indicators, ban_indicators, BAN_INDICATORS.
  cbn [foldl]. unfold check_indicator.
  change (lower "rate_limited_until") with "rate_limited_until"%string.
  change (lower "too_many_requests") with "too_many_requests"%string.
  destruct Hc as [Hc|Hc]; rewrite Hc;
  repeat match goal with
  | |- context [contains ?n ?h] => destruct (contains n h)
  end; cbn [fst snd orb]; destruct (is_empty response);
  match goal with |- context [if ?c then _ else _] => destruct c end;
  vm_compute; discriminate.
Qed.

Lemma rate_limit_scores_over_threshold_witness :
  1.2 <= (_check_ban_indicators Sample.config
            {| str := "{'rate_limited_until': 1700000000}"; is_empty := false |}
            Sample.world).2.
Proof.
  apply (rate_limit_scores_over_threshold Sample.config
           {| str := "{'rate_limited_until': 1700000000}"; is_empty := false |}
           Sample.world "{'" "': 1700000000}").
  left. reflexivity.
Defined.

End BanExtras.

(** ** Timing engine, further *)

Section TimingExtras.
Import Timing.
Local Open Scope Q_scope.

(** X11.  Whatever the delay type (known or not), the factor (also
    negative or zero) and the variance, a draw in [0, 1] makes
    [adaptive_delay] sleep 0.05 seconds at least. *)
Theorem adaptive_delay_floor (variance : option Q) (session : Pace)
    (delay_type : string) (factor : Q) (d : Draws) :
  0 <= draw_uniform d <= 1 →
  0.05 <= slept (adaptive_delay variance session delay_type factor d).
Proof.
  intros Hu. unfold adaptive_delay.
  destruct (base_range delay_type) as [base_min base_max]. cbn [slept].
  set (mn := base_min * factor * _). set (mx := base_max * factor * _).
  clearbody mn mx.
  pose proof (py_max_spec 0.05 mn) as S1.
  set (m1 := py_max 0.05 mn) in *. clearbody m1.
  pose proof (py_max_spec (m1 + 0.1) mx) as S2.
  set (m2 := py_max (m1 + 0.1) mx) in *. clearbody m2.
  assert (Hbetween : m1 <= uniform m1 m2 (draw_uniform d) <= m2).
  { apply uniform_between; [|done]. destruct S2 as [[? ->]|[? ->]]; lra. }
  destruct Hbetween as [Hlo _].
  destruct S1 as [[? Hm]|[? Hm]]; subst m1; lra.
Qed.

Lemma adaptive_delay_floor_witness :
  0.05 <= slept (adaptive_delay (Some 5) {| error_count := 0; actions_count := 0 |}
                   "no such type" (-3) Sample.draws).
Proof.
  apply (adaptive_delay_floor (Some 5) {| error_count := 0; actions_count := 0 |}
           "no such type" (-3) Sample.draws).
  by vm_compute.
Defined.

End TimingExtras.

(** ** The login call *)

Section LoginFacts.
Import PyBytes LoginCodec Login.

Lemma headers_auth_no_token (a : Headers.TinderApi) (amb : Headers.Ambient) :
  Headers.headers a amb "auth" true !! "x-auth-token" = None.
Proof.
  unfold Headers.headers.
  replace (bool_decide ("auth" ∈ ["auth"; "healthcheck"; "buckets_initial"]))
    with true by (symmetry; apply bool_decide_eq_true; set_solver).
  replace (bool_decide ("auth" ∈ ["healthcheck"; "auth"]))
    with true by (symmetry; apply bool_decide_eq_true; set_solver).
  rewrite !andb_false_r. cbn [negb].
  change (("auth" =? "auth")%string) with true. cbv iota.
  unfold Headers.update. cbn [foldl fst snd].
  rewrite !lookup_delete_ne by done. by rewrite lookup_delete_eq.
Qed.

(** X12.  Whatever the service answers, [auth_login] returns; the tokens of the
    client change only when it returns a dictionary, which then holds the
    new authentication token; the request carries the refresh token in its
    body and no authentication token in its headers. *)
Theorem auth_login_changes_tokens_on_success_only
    (post : PostRequest → Bot.reply PostResponse) (amb : Headers.Ambient)
    (self : Client) :
  ∃ run,
    auth_login post amb self = Returns run
    ∧ (returned run = None → client run = self)
    ∧ (∀ fields, returned run = Some fields →
         ∃ token response,
           auth_token fields = Some token ∧ token ≠ ""%string
           ∧ Headers.auth_token (api (client run)) = Some token
           ∧ (∃ request, sent run = Some request ∧ post request = Bot.answers response)
           ∧ status_code response = 200
           ∧ _parse_auth_response_manual (content response) = Returns (LoginOk fields))
    ∧ (∀ request, sent run = Some request →
         post_headers request !! "x-auth-token" = None
         ∧ ∃ token, refresh_token self = Some token
                    ∧ data request = _encode_refresh_auth_protobuf token).
Proof.
  unfold auth_login. destruct (refresh_token self) as [token|] eqn:Etok.
  2:{ eexists. split; [reflexivity|]. cbn. split; [done|]. split; [done|]. done. }
  cbv zeta. set (request := login_request amb self token).
  assert (Hreq : ∀ r, Some request = Some r →
            post_headers r !! "x-auth-token" = None
            ∧ ∃ t, Some token = Some t ∧ data r = _encode_refresh_auth_protobuf t).
  { intros r [= <-]. split; [apply headers_auth_no_token|by exists token]. }
  assert (Hfail : ∃ run,
            Returns {| client := self; returned := None; sent := Some request |}
            = Returns run
            ∧ (returned run = None → client run = self)
            ∧ (∀ fields, returned run = Some fields →
                 ∃ token response,
                   auth_token fields = Some token ∧ token ≠ ""%string
                   ∧ Headers.auth_token (api (client run)) = Some token
                   ∧ (∃ request, sent run = Some request
                                 ∧ post request = Bot.answers response)
                   ∧ status_code response = 200
                   ∧ _parse_auth_response_manual (content response)
                     = Returns (LoginOk fields))
            ∧ (∀ r, sent run = Some r →
                 post_headers r !! "x-auth-token" = None
                 ∧ ∃ t, Some token = Some t ∧ data r = _encode_refresh_auth_protobuf t)).
  { eexists. split; [reflexivity|]. cbn [returned client sent].
    split; [done|]. split; [done|]. exact Hreq. }
  destruct (post request) as [response|] eqn:Epost; [|exact Hfail].
  unfold on_response.
  destruct (Z.eqb_spec (status_code response) 200) as [Hst|Hst]; [|exact Hfail].
  destruct (_parse_auth_response_manual_returns (content response)) as [result Hparse].
  rewrite Hparse. cbn [mbind outcome_bind].
  destruct result as [fields|message|]; try exact Hfail.
  destruct (auth_token fields) as [tok|] eqn:Eauth; [|exact Hfail].
  destruct (String.eqb_spec tok "") as [->|Hne]; cbn [negb]; [exact Hfail|].
  eexists. split; [reflexivity|]. cbn [returned client sent api].
  split; [done|]. split; [|exact Hreq].
  intros f [= <-]. exists tok, response. rewrite Eauth.
  split; [done|]. split; [done|]. split; [done|].
  split; [by exists request|]. done.
Qed.

Lemma headers_token_sent (a : Headers.TinderApi) (amb : Headers.Ambient)
    (endpoint_type token : string) (include_correlation : bool) :
  Headers.auth_token a = Some token → token ≠ ""%string →
  endpoint_type ∉ ["auth"; "healthcheck"; "buckets_initial"] →
  Headers.headers a amb endpoint_type include_correlation !! "x-auth-token" = Some token.
Proof.
  intros Htok Hne Hopen. unfold Headers.headers, Headers.truthy. rewrite Htok.
  apply String.eqb_neq in Hne. rewrite Hne.
  rewrite (bool_decide_eq_false_2 _ Hopen). cbn [negb andb default].
  destruct (String.eqb_spec endpoint_type "auth") as [->|_];
    [exfalso; apply Hopen; set_solver|].
  repeat match goal with
  | |- context [if ?c then _ else _] => destruct c
  end;
  unfold Headers.update; cbn [foldl fst snd];
  repeat first [rewrite lookup_insert_eq | rewrite lookup_insert_ne by done]; done.
Qed.

(** X13.  A login that the service answers with status 200 and a login result
    holding a token that is not empty: the dictionary is returned, the
    client holds the new authentication token, the refresh token is
    replaced unless the new one is empty, and the requests that follow
    carry the new token. *)
Theorem auth_login_refreshes_tokens (post : PostRequest → Bot.reply PostResponse)
    (amb : Headers.Ambient) (self : Client) (token auth refresh uid : string)
    (response : PostResponse) :
  refresh_token self = Some token →
  post (login_request amb self token) = Bot.answers response →
  status_code response = 200 →
  content response = login_response auth refresh uid →
  utf8_valid (encode_utf8 auth) = true →
  utf8_valid (encode_utf8 refresh) = true →
  utf8_valid (encode_utf8 uid) = true →
  auth ≠ ""%string →
  ∃ run,
    auth_login post amb self = Returns run
    ∧ returned run = Some {| auth_token := Some auth;
                             LoginCodec.refresh_token := Some refresh;
                             user_id := Some uid |}
    ∧ sent run = Some (login_request amb self token)
    ∧ Headers.auth_token (api (client run)) = Some auth
    ∧ refresh_token (client run)
      = Some (if String.eqb refresh "" then token else refresh)
    ∧ ∀ amb' endpoint_type include_correlation,
        endpoint_type ∉ ["auth"; "healthcheck"; "buckets_initial"] →
        Headers.headers (api (client run)) amb' endpoint_type include_correlation
          !! "x-auth-token" = Some auth.
Proof.
  intros Htok Hpost Hst Hcontent Ha Hr Hu Hne.
  unfold auth_login. rewrite Htok. cbv zeta. rewrite Hpost.
  unfold on_response. rewrite Hst, Hcontent. cbn [Z.eqb Pos.eqb].
  rewrite login_response_round_trip by done. cbn [mbind outcome_bind auth_token].
  apply String.eqb_neq in Hne as Hne'. rewrite Hne'. cbn [negb try_except mret outcome_ret].
  eexists. split; [reflexivity|]. cbn [returned client sent api refresh_token].
  split; [done|]. split; [done|]. split; [done|]. split.
  - cbn [LoginCodec.refresh_token Headers.truthy]. rewrite Htok.
    by destruct (String.eqb refresh "").
  - intros amb' endpoint_type include_correlation Hopen.
    by apply headers_token_sent.
Qed.

Lemma auth_login_refreshes_tokens_witness :
  ∃ run,
    auth_login Scenario.post Scenario.ambient Scenario.client = Returns run
    ∧ returned run = Some {| auth_token := Some "new-token";
                             LoginCodec.refresh_token := Some "";
                             user_id := Some "u-1" |}
    ∧ sent run = Some (login_request Scenario.ambient Scenario.client "refresh-1")
    ∧ Headers.auth_token (api (client run)) = Some "new-token"
    ∧ refresh_token (client run) = Some "refresh-1"
    ∧ ∀ amb' endpoint_type include_correlation,
        endpoint_type ∉ ["auth"; "healthcheck"; "buckets_initial"] →
        Headers.headers (api (client run)) amb' endpoint_type include_correlation
          !! "x-auth-token" = Some "new-token".
Proof.
  apply (auth_login_refreshes_tokens Scenario.post Scenario.ambient Scenario.client
           "refresh-1" "new-token" "" "u-1" Scenario.login_answer);
    try reflexivity.
  discriminate.
Defined.

End LoginFacts.

(** ** One request of a pattern *)

Section SingleRequestFacts.
Import PyStr Bot SingleRequest.
Local Open Scope Q_scope.

Lemma request_patterns_name_known_endpoints (pattern_name : string)
    (patterns : list RequestPattern) (p : RequestPattern) :
  REQUEST_PATTERNS !! pattern_name = Some patterns →
  p ∈ patterns →
  endpoint p ∈ endpoint_map.
Proof.
  intros Hlookup Hp. unfold REQUEST_PATTERNS in Hlookup.
  apply elem_of_list_to_map_2 in Hlookup.
  repeat (apply elem_of_cons in Hlookup as [[= -> ->]|Hlookup];
          [repeat (apply elem_of_cons in Hp as [->|Hp];
                   [apply (bool_decide_unpack _); by vm_compute|]);
           by apply elem_of_nil in Hp|]).
  by apply elem_of_nil in Hlookup.
Qed.

(** X14.  No request of a built-in pattern is dropped as an unknown
    endpoint: for every entry of [REQUEST_PATTERNS], whatever the client
    answers, [_execute_single_request] calls the method of the client, and
    calls it first. *)
Theorem builtin_requests_reach_the_client (pattern_name : string)
    (patterns : list RequestPattern) (p : RequestPattern)
    (answer : reply ApiResult) (status : option (option Z)) (account_id : option Z) :
  REQUEST_PATTERNS !! pattern_name = Some patterns →
  p ∈ patterns →
  ∃ rest,
    (_execute_single_request answer status account_id (endpoint p)).2
    = api_call (endpoint p) :: rest.
Proof.
  intros Hlookup Hp.
  pose proof (request_patterns_name_known_endpoints _ _ _ Hlookup Hp) as Hep.
  unfold _execute_single_request. rewrite (bool_decide_eq_true_2 _ Hep). cbn [negb].
  destruct answer as [result|]; [|by eexists].
  repeat case_bool_decide; try by eexists.
  destruct (full_dict result) as [response|]; [|by eexists].
  destruct (Qle_bool _ _); by eexists.
Qed.

Lemma builtin_requests_reach_the_client_witness :
  ∃ rest,
    (_execute_single_request (answers result_None) (Some (Some 403%Z)) (Some 1%Z)
       "healthcheck_auth").2
    = api_call "healthcheck_auth" :: rest.
Proof.
  apply (builtin_requests_reach_the_client "startup"
           (default [] (REQUEST_PATTERNS !! "startup"))
           (pattern "healthcheck_auth" "GET" 1 "micro")).
  - by vm_compute.
  - vm_compute. constructor.
Defined.

(** X15.  The verdict is [True] exactly when the endpoint is known, the call
    answered something other than [None], the last status is neither 403
    nor 401, and the answer, when it is a dictionary that is not empty,
    scores below 0.8. *)
Theorem single_request_verdict (answer : reply ApiResult)
    (status : option (option Z)) (account_id : option Z) (endpoint : string) :
  (_execute_single_request answer status account_id endpoint).1 = true ↔
  endpoint ∈ endpoint_map
  ∧ status ≠ Some (Some 403%Z) ∧ status ≠ Some (Some 401%Z)
  ∧ ∃ result, answer = answers result ∧ result ≠ result_None
      ∧ ∀ response, result = result_dict response → is_empty response = false →
          (ban_indicators response).1 < 0.8.
Proof.
  unfold _execute_single_request.
  case_bool_decide as Hep; cbn [negb fst].
  2:{ split; [done|]. by intros [? _]. }
  destruct answer as [result|].
  2:{ split; [done|]. by intros (_ & _ & _ & ? & ? & _). }
  case_bool_decide as H403; cbn [fst].
  { split; [done|]. by intros (_ & ? & _). }
  case_bool_decide as H401; cbn [fst].
  { split; [done|]. by intros (_ & _ & ? & _). }
  destruct result as [|response|truth]; cbn [full_dict fst].
  - split; [done|]. by intros (_ & _ & _ & r & [= <-] & ? & _).
  - destruct (is_empty response) eqn:Eempty; cbn [fst].
    + split; [|done]. intros _. repeat split; try done.
      eexists. split; [done|]. split; [done|]. intros r [= <-]. congruence.
    + destruct (Qle_bool 0.8 (ban_indicators response).1) eqn:Escore; cbn [fst].
      * split; [done|]. intros (_ & _ & _ & r & [= <-] & _ & Hlow).
        apply Qle_bool_iff in Escore. specialize (Hlow response eq_refl Eempty).
        exfalso. by apply (Qlt_not_le _ _ Hlow).
      * split; [|done]. intros _. repeat split; try done.
        eexists. split; [done|]. split; [done|]. intros r [= <-] _.
        apply Qnot_le_lt. intros Hle. apply Qle_bool_iff in Hle. congruence.
  - split; [|done]. intros _. repeat split; try done.
    eexists. split; [done|]. split; [done|]. by intros r [=].
Qed.

Lemma ban_indicators_rate_limit (response : Response) (a b : string) :
  str response = (a ++ "rate_limited_until" ++ b)%string
  ∨ str response = (a ++ "too_many_requests" ++ b)%string →
  1.2 <= (ban_indicators response).1.
Proof.
  intros Hstr.
  assert (Hc : contains "rate_limited_until" (lower (str response)) = true
               ∨ contains "too_many_requests" (lower (str response)) = true).
  { destruct Hstr as [Hstr|Hstr]; [left|right];
      apply contains_spec; exists (lower a), (lower b);
      by rewrite Hstr, !lower_app. }
  unfold ban_indicators, BAN_INDICATORS.
  cbn [foldl]. unfold check_indicator.
  change (lower "rate_limited_until") with "rate_limited_until"%string.
  change (lower "too_many_requests") with "too_many_requests"%string.
  destruct Hc as [Hc|Hc]; rewrite Hc;
  repeat match goal with
  | |- context [contains ?n ?h] => destruct (contains n h)
  end; cbn [fst snd orb]; destruct (is_empty response);
  vm_compute; discriminate.
Qed.

Local Ltac marks_banned :=
  split; [done|]; split;
  [repeat first [by apply elem_of_cons; left | apply elem_of_cons; right]
  |let Hin := fresh "Hin" in
   intros ? Hin;
   repeat (apply elem_of_cons in Hin as [Hin|Hin]; [discriminate Hin|]);
   by apply elem_of_nil in Hin].

(** X16.  A dictionary that tells of a rate limit makes the request fail and
    the account be marked as banned, unless the last status was 401. *)
Theorem rate_limited_answer_marks_banned (response : Response) (a b : string)
    (status : option (option Z)) (account_id : option Z) (id : Z)
    (endpoint : string) :
  endpoint ∈ endpoint_map →
  is_empty response = false →
  str response = (a ++ "rate_limited_until" ++ b)%string
  ∨ str response = (a ++ "too_many_requests" ++ b)%string →
  known_account account_id = Some id →
  status ≠ Some (Some 401%Z) →
  let r := _execute_single_request (answers (result_dict response)) status
             account_id endpoint in
  r.1 = false ∧ mark_banned id ∈ r.2 ∧ ∀ id', mark_dead id' ∉ r.2.
Proof.
  intros Hep Hfull Hstr Hid H401. cbv zeta. unfold _execute_single_request.
  rewrite (bool_decide_eq_true_2 _ Hep), Hid. cbn [negb].
  case_bool_decide as H403; [cbn [fst snd]; marks_banned|].
  rewrite (bool_decide_eq_false_2 _ H401). cbn [full_dict]. rewrite Hfull.
  pose proof (ban_indicators_rate_limit response a b Hstr) as Hscore.
  assert (Hhigh : Qle_bool 0.8 (ban_indicators response).1 = true).
  { apply Qle_bool_iff. apply Qle_trans with 1.2; [by vm_compute|done]. }
  rewrite Hhigh. cbn [fst snd]. marks_banned.
Qed.

Lemma rate_limited_answer_marks_banned_witness :
  let r := _execute_single_request (answers (result_dict Scenario.rate_limit_response))
             (Some (Some 200%Z)) (Some 1%Z) "profile" in
  r.1 = false ∧ mark_banned 1 ∈ r.2 ∧ ∀ id', mark_dead id' ∉ r.2.
Proof.
  apply (rate_limited_answer_marks_banned Scenario.rate_limit_response
           "{'error': '" "'}" (Some (Some 200%Z)) (Some 1%Z) 1 "profile").
  - apply (bool_decide_unpack _). by vm_compute.
  - reflexivity.
  - right. reflexivity.
  - reflexivity.
  - discriminate.
Defined.

End SingleRequestFacts.

(** ** Queue batch processor, further *)

Section BatchExtras.
Import Bot Observed Tally.
Context (env : Env) (config : Config) (account_id session_id session_end_time : Z).

Lemma process_single_general u i total w uid :
  given (user_id u) = Some uid →
  ∃ evs,
    trace (_process_single_liked_user env config account_id session_id u i total w).1
    = trace w ++ evs
    ∧ omap liked_user evs = [u]
    ∧ db (_process_single_liked_user env config account_id session_id u i total w).1 = db w
    ∧ (action (_process_single_liked_user env config account_id session_id u i total w).2
       = Some "like"%string
       ∨ (action (_process_single_liked_user env config account_id session_id u i total w).2
          = None
          ∧ matched (_process_single_liked_user env config account_id session_id
                       u i total w).2 = false)).
Proof.
  intros Hu. unfold _process_single_liked_user. rewrite Hu.
  destruct (like_user env (now w) u) as [r|]; cbn [fst snd].
  2:{ eexists [_; _]. cbn [emit trace db]. rewrite <- app_assoc.
      split; [reflexivity|]. split; [done|]. split; [done|]. by right. }
  unfold log_enhanced_activity. cbn [emit trace].
  set (w1 := emit _ w).
  set (w2 := if db_available env _ then _ else _).
  assert (H2 : ∃ e, trace w2 = trace w ++ [EvCall (call_like_user u (user_traveling_in_likes config)); e]
                    ∧ liked_user e = None ∧ db w2 = db w).
  { subst w2 w1. destruct (db_available env _); eexists; cbn [emit trace db];
      rewrite <- app_assoc; split; try reflexivity; done. }
  destruct H2 as (e & Ht2 & He & Hd2). clearbody w2.
  assert (Hcall : omap liked_user
                    [EvCall (call_like_user u (user_traveling_in_likes config)); e] = [u])
    by (cbn; by rewrite He).
  destruct r; cbv iota; cbn [fst snd action matched].
  - eexists. cbn [with_session trace db]. split; [exact Ht2|]. split; [done|].
    split; [done|]. by left.
  - eexists. cbn [with_session trace db]. split; [exact Ht2|]. split; [done|].
    split; [done|]. by left.
  - destruct (get_updates env (now w2)); cbn [fst snd action].
    + eexists (_ ++ [_]). cbn [with_session emit trace db]. rewrite Ht2, <- app_assoc.
      split; [reflexivity|]. rewrite omap_app, Hcall. split; [reflexivity|].
      split; [exact Hd2|]. by left.
    + exists ([EvCall (call_like_user u (user_traveling_in_likes config)); e]
              ++ [EvCall call_get_updates; EvLog ERROR (msg_liked_user_error uid)]).
      cbn [with_session emit trace db]. rewrite Ht2, <- !app_assoc.
      split; [reflexivity|]. rewrite omap_app, Hcall. split; [reflexivity|].
      split; [exact Hd2|]. by left.
Qed.


Abbreviation M := (max_likes_per_session config).

Lemma like_loop_general todo :
  ∀ i w stats batch total,
  Forall (fun u => is_Some (given (user_id u))) todo →
  ∃ w' stats' batch' evs k,
    like_loop env config account_id session_id session_end_time total todo i
      (w, stats, batch) = (w', stats', batch')
    ∧ trace w' = trace w ++ evs
    ∧ omap liked_user evs = take k todo
    ∧ db w' = db w
    ∧ likes_sent stats' = likes_sent stats
    ∧ passes_sent stats' = passes_sent stats
    ∧ matches_gained stats' = matches_gained stats
    ∧ total_available stats' = total_available stats
    ∧ batch_passes batch' = batch_passes batch
    ∧ 0 <= batch_matches batch' - batch_matches batch
         <= batch_likes batch' - batch_likes batch
    ∧ batch_likes batch' - batch_likes batch
      <= users_processed stats' - users_processed stats
    ∧ (likes_sent stats + batch_likes batch <= Z.max 0 (M - 1) →
       likes_sent stats + batch_likes batch' <= Z.max 1 M)
    ∧ (todo ≠ [] → users_processed stats' = users_processed stats →
       w' = w ∧ stop_at env session_end_time (now w) = true).
Proof.
  induction todo as [|u todo IH]; intros i w stats batch total Hgiven.
  - exists w, stats, batch, [], 0%nat. cbn [like_loop]. rewrite app_nil_r.
    repeat split; try done; lia.
  - apply Forall_cons in Hgiven as [[uid Hu] Hgiven]. cbn [like_loop].
    fold (stop_at env session_end_time (now w)).
    destruct (stop_at env session_end_time (now w)) eqn:Estop.
    { exists w, stats, batch, [], 0%nat. rewrite app_nil_r.
      repeat split; try done; lia. }
    destruct (process_single_general u i total w uid Hu) as (evs1 & Ht1 & Ho1 & Hd1 & Hact).
    destruct (_process_single_liked_user _ _ _ _ _ _ _ _) as [w1 result].
    cbn [fst snd] in Ht1, Hd1, Hact.
    set (batch1 := count_action result batch).
    assert (Hb1 : batch_passes batch1 = batch_passes batch
                  ∧ 0 <= batch_matches batch1 - batch_matches batch
                       <= batch_likes batch1 - batch_likes batch
                  ∧ batch_likes batch1 - batch_likes batch <= 1).
    { subst batch1. unfold count_action. destruct Hact as [Hact|[Hact Hm]]; rewrite Hact.
      - rewrite bool_decide_eq_true_2 by done. cbn.
        destruct (matched result); repeat split; lia.
      - rewrite !bool_decide_eq_false_2 by done. repeat split; lia. }
    destruct Hb1 as (Hbp & Hbm & Hbl). clearbody batch1.
    set (stats1 := with_users_processed (Z.add 1) stats).
    assert (Hs1 : likes_sent stats1 = likes_sent stats
                  ∧ passes_sent stats1 = passes_sent stats
                  ∧ matches_gained stats1 = matches_gained stats
                  ∧ total_available stats1 = total_available stats
                  ∧ users_processed stats1 = 1 + users_processed stats) by done.
    destruct Hs1 as (Hl1 & Hp1 & Hm1 & Hta1 & Hu1). clearbody stats1.
    destruct (Z.leb_spec M (likes_sent stats1 + batch_likes batch1)) as [Hfull|Hroom].
    { exists w1, stats1, batch1, evs1, 1%nat. cbn [take].
      rewrite take_0. repeat split; try done; try lia. }
    set (w2 := if bool_decide _ then _ else w1).
    assert (H2 : ∃ evs2, trace w2 = trace w1 ++ evs2 ∧ omap liked_user evs2 = []
                         ∧ db w2 = db w1).
    { subst w2. case_bool_decide; [eexists [_]|exists []]; cbn [emit trace db];
        by rewrite ?app_nil_r. }
    destruct H2 as (evs2 & Ht2 & Ho2 & Hd2). clearbody w2.
    destruct (IH (i + 1) w2 stats1 batch1 total Hgiven)
      as (w' & stats' & batch' & evs & k & -> & Ht & Ho & Hd & Hl & Hp & Hm & Hta
          & Hbp' & Hbm' & Hbl' & Hbound & _).
    exists w', stats', batch', (evs1 ++ evs2 ++ evs), (S k).
    split; [reflexivity|].
    rewrite Ht, Ht2, Ht1, <- !app_assoc, !omap_app, Ho1, Ho2, Ho. cbn [take app].
    repeat split; try congruence; try lia.
Qed.

Lemma new_users_of_spec page :
  ∀ processed,
  Forall (fun u => is_Some (given (user_id u))) (new_users_of page processed).1
  ∧ NoDup (ids_of (new_users_of page processed).1)
  ∧ (∀ id, id ∈ ids_of (new_users_of page processed).1 → id ∉ processed)
  ∧ (∀ id, id ∈ (new_users_of page processed).2 ↔
           id ∈ processed ∨ id ∈ ids_of (new_users_of page processed).1).
Proof.
  induction page as [|u page IH]; intros processed; cbn [new_users_of].
  - cbn. split; [constructor|]. split; [constructor|]. split.
    + intros id Hid. by apply elem_of_nil in Hid.
    + intros id. rewrite elem_of_nil. tauto.
  - destruct (given (user_id u)) as [uid|] eqn:Hu; [|apply IH].
    case_bool_decide as Hin; [apply IH|].
    destruct (IH ({[uid]} ∪ processed)) as (Hg & Hnd & Hfresh & Hseen).
    destruct (new_users_of page ({[uid]} ∪ processed)) as [new seen].
    cbn [fst snd] in *. unfold ids_of in *. cbn [omap list_omap]. rewrite Hu.
    split; [constructor; [by eexists|done]|].
    split.
    { constructor; [|done]. intros Hid. apply Hfresh in Hid.
      apply Hid, elem_of_union. left. by apply elem_of_singleton. }
    split.
    + intros id [->|Hid]%elem_of_cons; [done|]. apply Hfresh in Hid.
      intros Hp. apply Hid, elem_of_union. by right.
    + intros id. rewrite Hseen, elem_of_cons, elem_of_union, elem_of_singleton. tauto.
Qed.

Lemma liked_ids_app a b : liked_ids (a ++ b) = liked_ids a ++ liked_ids b.
Proof. apply omap_app. Qed.

Lemma liked_ids_users evs : liked_ids evs = ids_of (omap liked_user evs).
Proof.
  unfold liked_ids, ids_of. induction evs as [|e evs IH]; [done|].
  cbn [omap list_omap]. destruct (liked_user e) as [u|]; cbn [mbind option_bind omap list_omap];
    [destruct (given (user_id u))|]; by rewrite IH.
Qed.

Lemma ids_of_take k users :
  NoDup (ids_of users) →
  NoDup (ids_of (take k users)) ∧ ∀ id, id ∈ ids_of (take k users) → id ∈ ids_of users.
Proof.
  unfold ids_of. revert k. induction users as [|u users IH]; intros k Hnd.
  - rewrite take_nil. done.
  - destruct k as [|k]; [cbn; split; [constructor|set_solver]|].
    cbn [take omap list_omap] in *. destruct (given (user_id u)) as [uid|].
    + apply NoDup_cons in Hnd as [Hnotin Hnd]. destruct (IH k Hnd) as [IH1 IH2].
      split; [constructor; [|done]; intros Hin; by apply Hnotin, IH2|].
      intros id [->|Hid]%elem_of_cons; [left|right; by apply IH2].
    + by apply IH.
Qed.

Lemma ids_of_length users :
  Forall (fun u => is_Some (given (user_id u))) users →
  length (ids_of users) = length users.
Proof.
  unfold ids_of. induction 1 as [|u users [uid Hu] _ IH]; [done|].
  cbn [omap list_omap]. rewrite Hu. cbn [length]. by rewrite IH.
Qed.


Abbreviation call_event :=
  (EvCall (call_liked_me (default 100 (liked_me_count_per_request config)) None)).
Abbreviation sleep_event := (EvSleep (default 0.5%Q (delay_after_page_fetch config))).

Lemma page_loop_step fuel cycle processed w stats :
  page_loop env config account_id session_id session_end_time (S fuel) cycle processed
    (w, stats)
  = if stop_at env session_end_time (now w) then ((w, stats), Returns tt)
    else
      match liked_me env (now w) with
      | throws => ((emit call_event w, stats), Raises)
      | answers liked_users =>
          match page_body env config account_id session_id session_end_time
                  (cycle + 1) liked_users (response_ms env (now w)) processed
                  (emit sleep_event (emit call_event w),
                   with_api_calls_made (Z.add 1) stats) with
          | (s', Returns None) => (s', Returns tt)
          | (s', Returns (Some processed')) =>
              page_loop env config account_id session_id session_end_time fuel
                (cycle + 1) processed' s'
          | (s', Raises) => (s', Raises)
          | (s', OutOfFuel) => (s', OutOfFuel)
          end
      end.
Proof.
  cbn [page_loop fst]. unfold stop_at.
  rewrite (Z.leb_antisym (clock env (now w))), <- negb_andb.
  destruct (_ && _); cbn [negb]; [|done].
  unfold gets at 1. rewrite bindM_unfold. cbv beta iota.
  rewrite bindM_unfold. unfold call, ask. cbn [fst snd].
  destruct (liked_me env (now w)) as [liked_users|]; cbn [of_reply]; [|done].
  rewrite bindM_unfold. unfold on_stats at 1, modify. cbv beta iota. cbn [fst snd].
  rewrite bindM_unfold. unfold on_world at 1, modify. cbv beta iota. cbn [fst snd].
  rewrite bindM_unfold.
  destruct (page_body _ _ _ _ _ _ _ _ _ _) as [s' [[p|]| |]]; done.
Qed.

Lemma page_body_general cycle liked_users batch_time processed w stats :
  ∃ w' stats' continue,
    page_body env config account_id session_id session_end_time cycle liked_users
      batch_time processed (w, stats) = ((w', stats'), Returns continue)
    ∧ page_effect env config session_end_time processed w stats w' stats' continue.
Proof.
  assert (Hnothing : page_effect env config session_end_time processed w stats w stats None).
  { split; try done; try lia.
    exists []. rewrite app_nil_r. split; [done|]. split; [constructor|].
    split; [done|]. split; [by intros id Hid%elem_of_nil|done]. }
  unfold page_body. destruct liked_users as [[|u0 page]|];
    [by exists w, stats, None| |by exists w, stats, None].
  pose proof (new_users_of_spec (u0 :: page) processed) as (Hg & Hnd & Hfresh & Hseen).
  destruct (new_users_of (u0 :: page) processed) as [new seen]. cbn [fst snd] in *.
  destruct new as [|u new]; [by exists w, stats, None|].
  set (w1 := log_enhanced_activity _ _ _ _ _).
  assert (H1 : ∃ e, trace w1 = trace w ++ [e] ∧ liked_user e = None ∧ db w1 = db w).
  { subst w1. unfold log_enhanced_activity.
    destruct (db_available env (now w)); eexists; cbn [emit trace db]; done. }
  destruct H1 as (e1 & Ht1 & He1 & Hd1). clearbody w1.
  destruct (like_loop_general (u :: new) 1 w1 stats
              {| batch_likes := 0; batch_passes := 0; batch_matches := 0 |}
              (Z.of_nat (length (u :: new))) Hg)
    as (w2 & stats2 & batch2 & evs & k & -> & Ht & Ho & Hd & Hl & Hp & Hm & Hta
        & Hbp & Hbm & Hbl & Hbound & Hstop).
  cbn [batch_likes batch_passes batch_matches] in *.
  set (stats3 := add_batch batch2 stats2).
  assert (Hs3 : likes_sent stats3 = likes_sent stats + batch_likes batch2
                ∧ passes_sent stats3 = passes_sent stats
                ∧ matches_gained stats3 = matches_gained stats + batch_matches batch2
                ∧ total_available stats3 = total_available stats
                ∧ users_processed stats3 = users_processed stats2).
  { subst stats3. cbn. rewrite Hl, Hp, Hm, Hta, Hbp. repeat split; lia. }
  destruct Hs3 as (Hl3 & Hp3 & Hm3 & Hta3 & Hu3). clearbody stats3.
  assert (Hids : liked_ids ([e1] ++ evs) = ids_of (take k (u :: new))).
  { rewrite liked_ids_app, (liked_ids_users evs), Ho. unfold liked_ids.
    cbn [omap list_omap]. by rewrite He1. }
  destruct (ids_of_take k (u :: new) Hnd) as [Hnd' Hsub].
  assert (Heffect : ∀ continue,
            (is_Some continue →
             likes_sent stats3 < M
             ∧ 0 < total_available stats3 - users_processed stats3
             ∧ continue = Some seen) →
            page_effect env config session_end_time processed w stats w2 stats3 continue).
  { intros continue Hc. split.
    - exists ([e1] ++ evs). rewrite Ht, Ht1, <- app_assoc. split; [done|].
      rewrite Hids. split; [done|]. split.
      + rewrite omap_app, Ho. cbn [omap list_omap]. rewrite He1. cbn [app].
        apply ids_of_length. by apply Forall_take.
      + split.
        * intros id Hid%Hsub. by apply Hfresh.
        * intros processed' Hp' id Hid.
          destruct (Hc ltac:(by eexists)) as (_ & _ & Hseen').
          rewrite Hp' in Hseen'. injection Hseen' as ->. apply Hseen.
          destruct Hid as [Hid|Hid%Hsub]; [by left|by right].
    - congruence.
    - done.
    - done.
    - lia.
    - intros Hb. rewrite Hl3. specialize (Hbound ltac:(lia)). lia.
    - intros Hsome. destruct (Hc Hsome) as (Hlt & Hrem & _).
      split; [done|]. split; [done|]. intros Hsame.
      destruct Hstop as [-> Hstop']; [done|lia|]. done. }
  destruct (Z.leb_spec M (likes_sent stats3)) as [Hfull|Hroom].
  { exists w2, stats3, None. split; [done|]. apply Heffect. by intros [? ?]. }
  destruct (default true (process_all_liked_me config)); cbn [negb].
  2:{ exists w2, stats3, None. split; [done|]. apply Heffect. by intros [? ?]. }
  destruct (Z.leb_spec (total_available stats3 - users_processed stats3) 0) as [Hdone|Hrem].
  { exists w2, stats3, None. split; [done|]. apply Heffect. by intros [? ?]. }
  exists w2, stats3, (Some seen). split; [done|]. apply Heffect. done.
Qed.


Lemma tidy_weaken t0 processed bound bound' s :
  bound <= bound' → tidy t0 processed bound s → tidy t0 processed bound' s.
Proof. intros Hb (Ht & Hp & Hm & Hl & Hbound). repeat split; try done; lia. Qed.

Lemma tidy_emit t0 processed bound e w stats :
  liked_user e = None →
  tidy t0 processed bound (w, stats) → tidy t0 processed bound (emit e w, stats).
Proof.
  intros He ((evs & Ht & Hnd & Hlen & Hin) & Hrest). split; [|exact Hrest].
  exists (evs ++ [e]). cbn [fst emit trace] in *. rewrite Ht, <- app_assoc.
  split; [done|]. rewrite liked_ids_app, omap_app.
  assert (Hnil : liked_ids [e] = [] ∧ omap liked_user [e] = []).
  { unfold liked_ids. cbn [omap list_omap]. by rewrite He. }
  destruct Hnil as [-> ->]. by rewrite !app_nil_r.
Qed.

Lemma page_loop_general t0 fuel :
  ∀ cycle processed w stats,
  tidy t0 processed (Z.max 0 (M - 1)) (w, stats) →
  ∃ processed',
    tidy t0 processed' (Z.max 1 M)
      (page_loop env config account_id session_id session_end_time fuel cycle
         processed (w, stats)).1
    ∧ db (page_loop env config account_id session_id session_end_time fuel cycle
            processed (w, stats)).1.1 = db w
    ∧ total_available
        (page_loop env config account_id session_id session_end_time fuel cycle
           processed (w, stats)).1.2 = total_available stats.
Proof.
  induction fuel as [|fuel IH]; intros cycle processed w stats Htidy.
  { exists processed. split; [|done]. eapply tidy_weaken; [|exact Htidy]. lia. }
  rewrite page_loop_step.
  destruct (stop_at env session_end_time (now w)).
  { exists processed. split; [|done]. eapply tidy_weaken; [|exact Htidy]. lia. }
  destruct (liked_me env (now w)) as [liked_users|].
  2:{ exists processed. split; [|done]. apply tidy_emit; [done|].
      eapply tidy_weaken; [|exact Htidy]. lia. }
  set (w1 := emit sleep_event (emit call_event w)).
  set (stats1 := with_api_calls_made (Z.add 1) stats).
  assert (H1 : tidy t0 processed (Z.max 0 (M - 1)) (w1, stats1)).
  { subst w1. apply tidy_emit; [done|]. apply tidy_emit; [done|]. exact Htidy. }
  assert (Hd1 : db w1 = db w) by done.
  assert (Hta1 : total_available stats1 = total_available stats) by done.
  clearbody w1 stats1.
  destruct (page_body_general (cycle + 1) liked_users (response_ms env (now w))
              processed w1 stats1) as (w2 & stats2 & continue & -> & Heff).
  destruct Heff as [(evs2 & Ht2 & Hnd2 & Hlen2 & Hfresh2 & Hprocessed2)
                    Hdb2 Hp2 Hta2 (Hm2 & Hl2) Hbound2 Hon2].
  destruct H1 as ((evs1 & Ht1 & Hnd1 & Hlen1 & Hin1) & Hp1 & Hm1 & Hl1 & Hb1).
  cbn [fst snd] in *.
  assert (Hafter : ∀ processed' bound,
            (∀ id, id ∈ processed ∨ id ∈ liked_ids evs2 → id ∈ processed') →
            likes_sent stats2 <= bound →
            tidy t0 processed' bound (w2, stats2)).
  { intros processed' bound Hsub Hb. split.
    - exists (evs1 ++ evs2). cbn [fst]. rewrite Ht2, Ht1, <- app_assoc.
      split; [done|]. rewrite liked_ids_app, omap_app, !length_app.
      split; [|split; [lia|]].
      + apply NoDup_app. split; [done|]. split; [|done].
        intros id Hid1 Hid2. by apply (Hfresh2 id Hid2), Hin1.
      + intros id [Hid|Hid]%elem_of_app; apply Hsub; [left; by apply Hin1|by right].
    - cbn [snd]. repeat split; try lia. }
  destruct continue as [processed'|].
  - destruct (Hon2 ltac:(by eexists)) as (Hlt & _ & _).
    destruct (IH (cycle + 1) processed' w2 stats2) as (processed'' & Hres & Hdb & Hta).
    { apply Hafter; [by apply Hprocessed2|lia]. }
    exists processed''. cbv beta iota. split; [exact Hres|]. split; congruence.
  - exists (processed ∪ list_to_set (liked_ids evs2)). cbv beta iota. cbn [fst snd].
    split; [|split; congruence].
    apply Hafter; [|by apply Hbound2].
    intros id [Hid|Hid]; apply elem_of_union; [by left|right].
    by apply elem_of_list_to_set.
Qed.

(** The page loop ends: a page after which the loop goes on has counted a
    user more, or has seen the stop test hold, which the next turn sees too. *)
Lemma page_loop_in_fuel fuel :
  ∀ cycle processed w stats,
  (Z.to_nat (total_available stats - users_processed stats) + 2 <= fuel)%nat →
  (page_loop env config account_id session_id session_end_time fuel cycle
     processed (w, stats)).2 ≠ OutOfFuel.
Proof.
  induction fuel as [|fuel IH]; intros cycle processed w stats Hfuel; [lia|].
  rewrite page_loop_step.
  destruct (stop_at env session_end_time (now w)); [done|].
  destruct (liked_me env (now w)) as [liked_users|]; [|done].
  set (w1 := emit sleep_event (emit call_event w)).
  set (stats1 := with_api_calls_made (Z.add 1) stats).
  assert (Hrem1 : total_available stats1 - users_processed stats1
                  = total_available stats - users_processed stats) by done.
  clearbody w1 stats1.
  destruct (page_body_general (cycle + 1) liked_users (response_ms env (now w))
              processed w1 stats1) as (w2 & stats2 & continue & -> & Heff).
  destruct continue as [processed'|]; [|done].
  destruct Heff as [_ _ _ Hta2 (Hm2 & Hl2) _ Hon2].
  destruct (Hon2 ltac:(by eexists)) as (_ & Hrem & Hstop).
  destruct (decide (users_processed stats2 = users_processed stats1)) as [Hsame|Hmore].
  - destruct fuel as [|fuel]; [lia|]. rewrite page_loop_step.
    by rewrite (Hstop Hsame).
  - apply IH. lia.
Qed.


Lemma count_loop_step todo w stats :
  count_loop env (S todo) (w, stats)
  = match liked_me_count_reply env (now w) with
    | throws => ((emit (EvCall call_liked_me_count) w, stats), Raises)
    | answers count =>
        count_loop env todo
          (emit (EvCall call_liked_me_count) w,
           match count with
           | Some count =>
               with_total_available (fun _ => count)
                 (with_api_calls_made (Z.add 1) stats)
           | None => with_api_calls_made (Z.add 1) stats
           end)
    end.
Proof.
  cbn [count_loop]. rewrite bindM_unfold. unfold call, ask. cbn [fst snd].
  destruct (liked_me_count_reply env (now w)) as [count|]; cbn [of_reply]; [|done].
  rewrite bindM_unfold. unfold on_stats at 1, modify. cbv beta iota. cbn [fst snd].
  rewrite bindM_unfold. by destruct count.
Qed.

(** What the reads of the count leave: calls on the count and nothing
    else in the trace, the counters of the likes untouched, and as the
    number available the start value or an answer of the service. *)
Lemma count_loop_general todo :
  ∀ w stats,
  ∃ w' stats' r reads,
    count_loop env todo (w, stats) = ((w', stats'), r)
    ∧ (r = Returns tt ∨ r = Raises)
    ∧ trace w' = trace w ++ replicate reads (EvCall call_liked_me_count)
    ∧ db w' = db w
    ∧ users_processed stats' = users_processed stats
    ∧ likes_sent stats' = likes_sent stats
    ∧ passes_sent stats' = passes_sent stats
    ∧ matches_gained stats' = matches_gained stats
    ∧ (total_available stats' = total_available stats
       ∨ ∃ n, liked_me_count_reply env n = answers (Some (total_available stats'))).
Proof.
  induction todo as [|todo IH]; intros w stats.
  - exists w, stats, (Returns tt), 0%nat. cbn [count_loop replicate].
    rewrite app_nil_r. split; [done|]. split; [by left|].
    repeat split; try done. by left.
  - rewrite count_loop_step.
    destruct (liked_me_count_reply env (now w)) as [count|] eqn:Ecount.
    2:{ exists (emit (EvCall call_liked_me_count) w), stats, Raises, 1%nat.
        split; [done|]. split; [by right|]. repeat split; try done. by left. }
    set (stats1 := match count with Some _ => _ | None => _ end).
    assert (Hs1 : users_processed stats1 = users_processed stats
                  ∧ likes_sent stats1 = likes_sent stats
                  ∧ passes_sent stats1 = passes_sent stats
                  ∧ matches_gained stats1 = matches_gained stats
                  ∧ (total_available stats1 = total_available stats
                     ∨ ∃ n, liked_me_count_reply env n
                            = answers (Some (total_available stats1)))).
    { subst stats1. destruct count as [count|]; repeat split; try done; [|by left].
      right. by exists (now w). }
    destruct Hs1 as (Hu1 & Hl1 & Hp1 & Hm1 & Hta1). clearbody stats1.
    destruct (IH (emit (EvCall call_liked_me_count) w) stats1)
      as (w' & stats' & r & reads & -> & Hr & Ht & Hd & Hu & Hl & Hp & Hm & Hta).
    exists w', stats', r, (S reads). split; [done|]. split; [done|].
    rewrite Ht. cbn [emit trace replicate]. rewrite <- app_assoc.
    split; [done|]. split; [done|]. split; [congruence|]. split; [congruence|].
    split; [congruence|]. split; [congruence|].
    destruct Hta as [Hta|Hta]; [|by right]. rewrite Hta.
    destruct Hta1 as [Hta1|[n Hn]]; [left; congruence|right; by exists n].
Qed.

Lemma process_all_unfold fuel w :
  process_all_liked_me_enhanced env config account_id session_id session_end_time fuel w
  = match count_loop env (Z.to_nat (randint env (now w) 1 3)) (w, no_stats) with
    | ((w1, stats1), Returns _) =>
        if total_available stats1 =? 0
        then (_update_cached_liked_count env account_id 0 w1, Returns stats1)
        else
          match page_loop env config account_id session_id session_end_time fuel 0 ∅
                  (w1, stats1) with
          | ((w2, stats2), Returns _) =>
              (_update_cached_liked_count env account_id
                 (Z.max 0 (total_available stats2 - users_processed stats2)) w2,
               Returns stats2)
          | ((w2, stats2), Raises) =>
              (emit (EvLog ERROR msg_liked_me_error) w2, Returns stats2)
          | ((w2, stats2), OutOfFuel) => (w2, OutOfFuel)
          end
    | ((w1, stats1), Raises) => (emit (EvLog ERROR msg_liked_me_error) w1, Returns stats1)
    | ((w1, stats1), OutOfFuel) => (w1, OutOfFuel)
    end.
Proof.
  unfold process_all_liked_me_enhanced, catch, liked_me_run.
  rewrite bindM_unfold. unfold gets at 1. cbv beta iota. cbn [fst snd].
  rewrite bindM_unfold.
  destruct (count_loop env _ (w, no_stats)) as [[w1 stats1] [[]| |]]; try done.
  rewrite bindM_unfold. unfold gets at 1. cbv beta iota. cbn [fst snd].
  destruct (total_available stats1 =? 0); [done|].
  rewrite bindM_unfold.
  destruct (page_loop _ _ _ _ _ _ _ _ (w1, stats1)) as [[w2 stats2] [[]| |]]; done.
Qed.


Lemma liked_ids_replicate reads :
  liked_ids (replicate reads (EvCall call_liked_me_count)) = []
  ∧ omap liked_user (replicate reads (EvCall call_liked_me_count)) = [].
Proof. induction reads as [|reads [IH1 IH2]]; [done|]. split; [exact IH1|exact IH2]. Qed.

Lemma update_cached_trace count w :
  ∃ tail, trace (_update_cached_liked_count env account_id count w) = trace w ++ tail
          ∧ liked_ids tail = [] ∧ omap liked_user tail = [].
Proof.
  unfold _update_cached_liked_count. destruct (db_available env (now w)).
  - exists []. by rewrite app_nil_r.
  - by eexists [_].
Qed.

Lemma in_bounds_no_stats stats :
  users_processed stats = 0 → likes_sent stats = 0 → passes_sent stats = 0 →
  matches_gained stats = 0 → in_bounds config stats.
Proof. intros Hu Hl Hp Hm. unfold in_bounds. rewrite Hu, Hl, Hp, Hm. lia. Qed.

(** A batch run in any environment: the like calls that it adds to the
    trace are on users with different identifiers, and the counters that it
    returns are within bounds. *)
Lemma process_all_general fuel w :
  ∃ evs,
    trace (process_all_liked_me_enhanced env config account_id session_id
             session_end_time fuel w).1 = trace w ++ evs
    ∧ NoDup (liked_ids evs)
    ∧ length (liked_ids evs) = length (omap liked_user evs)
    ∧ ∀ stats,
        (process_all_liked_me_enhanced env config account_id session_id
           session_end_time fuel w).2 = Returns stats →
        in_bounds config stats.
Proof.
  rewrite process_all_unfold.
  destruct (count_loop_general (Z.to_nat (randint env (now w) 1 3)) w no_stats)
    as (w1 & stats1 & r1 & reads & -> & Hr1 & Ht1 & Hd1 & Hu1 & Hl1 & Hp1 & Hm1 & _).
  destruct (liked_ids_replicate reads) as [Hids Hlikes].
  cbn [no_stats users_processed likes_sent passes_sent matches_gained] in *.
  pose proof (in_bounds_no_stats stats1 Hu1 Hl1 Hp1 Hm1) as Hin1.
  assert (Hquiet : ∀ tail, liked_ids tail = [] → omap liked_user tail = [] →
            NoDup (liked_ids (replicate reads (EvCall call_liked_me_count) ++ tail))
            ∧ length (liked_ids (replicate reads (EvCall call_liked_me_count) ++ tail))
              = length (omap liked_user
                          (replicate reads (EvCall call_liked_me_count) ++ tail))).
  { intros tail H1 H2. rewrite liked_ids_app, omap_app, Hids, Hlikes, H1, H2.
    split; [constructor|done]. }
  destruct Hr1 as [-> | ->].
  2:{ eexists (_ ++ [_]). cbn [fst snd emit trace]. rewrite Ht1, <- app_assoc.
      split; [reflexivity|]. destruct (Hquiet [EvLog ERROR msg_liked_me_error]) as [? ?];
        [done..|]. split; [done|]. split; [done|]. by intros stats [= <-]. }
  destruct (total_available stats1 =? 0).
  { destruct (update_cached_trace 0 w1) as (tail & Ht & Hi & Ho).
    exists (replicate reads (EvCall call_liked_me_count) ++ tail).
    cbn [fst snd]. rewrite Ht, Ht1, <- app_assoc. split; [done|].
    destruct (Hquiet tail Hi Ho) as [? ?]. split; [done|]. split; [done|].
    by intros stats [= <-]. }
  destruct (page_loop_general (trace w1) fuel 0 ∅ w1 stats1)
    as (processed' & ((evs & Ht & Hnd & Hlen & _) & Hp & Hm & Hl & Hb) & _ & _).
  { split; [|cbn [snd]; rewrite Hp1, Hm1, Hl1, Hu1; lia].
    exists []. rewrite app_nil_r. split; [done|]. split; [constructor|].
    split; [done|]. by intros id Hid%elem_of_nil. }
  destruct (page_loop _ _ _ _ _ _ _ _ (w1, stats1)) as [[w2 stats2] r2].
  cbn [fst snd] in *.
  assert (Hin2 : in_bounds config stats2) by (unfold in_bounds; lia).
  assert (Hall : ∀ tail, liked_ids tail = [] → omap liked_user tail = [] →
            NoDup (liked_ids (replicate reads (EvCall call_liked_me_count)
                              ++ evs ++ tail))
            ∧ length (liked_ids (replicate reads (EvCall call_liked_me_count)
                                 ++ evs ++ tail))
              = length (omap liked_user
                          (replicate reads (EvCall call_liked_me_count) ++ evs ++ tail))).
  { intros tail H1 H2.
    rewrite !liked_ids_app, !omap_app, Hids, Hlikes, H1, H2, !app_nil_r. done. }
  destruct r2 as [[]| |].
  - destruct (update_cached_trace
                (Z.max 0 (total_available stats2 - users_processed stats2)) w2)
      as (tail & Ht' & Hi & Ho).
    exists (replicate reads (EvCall call_liked_me_count) ++ evs ++ tail).
    cbn [fst snd]. rewrite Ht', Ht, Ht1, <- !app_assoc. split; [done|].
    destruct (Hall tail Hi Ho) as [? ?]. split; [done|]. split; [done|].
    by intros stats [= <-].
  - exists (replicate reads (EvCall call_liked_me_count) ++ evs
            ++ [EvLog ERROR msg_liked_me_error]).
    cbn [fst snd emit trace]. rewrite Ht, Ht1, <- !app_assoc. split; [done|].
    destruct (Hall [EvLog ERROR msg_liked_me_error]) as [? ?]; [done..|].
    split; [done|]. split; [done|]. by intros stats [= <-].
  - exists (replicate reads (EvCall call_liked_me_count) ++ evs ++ []).
    cbn [fst snd]. rewrite app_nil_r, Ht, Ht1, <- !app_assoc. split; [done|].
    destruct (Hall []) as [H1 H2]; [done..|]. rewrite app_nil_r in H1, H2.
    split; [done|]. split; [done|]. done.
Qed.

End BatchExtras.

Section BatchTheorems.
Import Bot Observed Tally.

(** X17.  The counters of a batch run, in any environment: never a pass, no more
    matches than likes, no more likes than users processed, and no more
    likes than the maximum of the session (one like at least is sent when
    the maximum is below 1). *)
Theorem batch_counters_in_bounds (env : Env) (config : Config)
    (account_id session_id session_end_time : Z) (fuel : nat) (w : World)
    (stats : Stats) :
  (process_all_liked_me_enhanced env config account_id session_id session_end_time
     fuel w).2 = Returns stats →
  passes_sent stats = 0
  ∧ 0 <= matches_gained stats <= likes_sent stats
  ∧ likes_sent stats <= users_processed stats
  ∧ likes_sent stats <= Z.max 1 (max_likes_per_session config).
Proof.
  intros Hrun.
  destruct (process_all_general env config account_id session_id session_end_time fuel w)
    as (_ & _ & _ & _ & Hstats).
  exact (Hstats stats Hrun).
Qed.

Lemma batch_counters_in_bounds_witness :
  ∃ stats,
    (process_all_liked_me_enhanced Sample.env Sample.config 1 1 1 1 Sample.world).2
    = Returns stats
    ∧ passes_sent stats = 0
    ∧ 0 <= matches_gained stats <= likes_sent stats
    ∧ likes_sent stats <= users_processed stats
    ∧ likes_sent stats <= Z.max 1 (max_likes_per_session Sample.config).
Proof.
  eexists. split; [by vm_compute|].
  apply (batch_counters_in_bounds Sample.env Sample.config 1 1 1 1 Sample.world).
  by vm_compute.
Defined.

(** X18.  In any environment, whatever pages the service sends and however the
    run ends, the like calls of one batch run are on users that have an
    identifier, and no identifier is liked twice. *)
Theorem no_user_liked_twice (env : Env) (config : Config)
    (account_id session_id session_end_time : Z) (fuel : nat) (w : World) :
  ∃ evs,
    trace (process_all_liked_me_enhanced env config account_id session_id
             session_end_time fuel w).1 = trace w ++ evs
    ∧ NoDup (liked_ids evs)
    ∧ length (liked_ids evs) = length (omap liked_user evs).
Proof.
  destruct (process_all_general env config account_id session_id session_end_time fuel w)
    as (evs & Ht & Hnd & Hlen & _).
  by exists evs.
Qed.

(** X19.  The page loop ends: when the count that the service reports is never
    above [bound], [bound + 2] turns are enough for the run to return its
    counters. *)
Theorem batch_run_returns (env : Env) (config : Config)
    (account_id session_id session_end_time : Z) (fuel : nat) (w : World)
    (bound : Z) :
  (∀ n count, liked_me_count_reply env n = answers (Some count) → count <= bound) →
  (Z.to_nat bound + 2 <= fuel)%nat →
  ∃ stats,
    (process_all_liked_me_enhanced env config account_id session_id session_end_time
       fuel w).2 = Returns stats.
Proof.
  intros Hbound Hfuel. rewrite process_all_unfold.
  destruct (count_loop_general env (Z.to_nat (randint env (now w) 1 3)) w no_stats)
    as (w1 & stats1 & r1 & reads & -> & Hr1 & _ & _ & Hu1 & _ & _ & _ & Hta1).
  destruct Hr1 as [-> | ->]; [|by eexists].
  destruct (total_available stats1 =? 0); [by eexists|].
  pose proof (page_loop_in_fuel env config account_id session_id session_end_time
                fuel 0 ∅ w1 stats1) as Hloop.
  destruct (page_loop _ _ _ _ _ _ _ _ (w1, stats1)) as [[w2 stats2] [[]| |]];
    [by eexists|by eexists|].
  exfalso. apply Hloop; [|done]. cbn [no_stats users_processed total_available] in *.
  destruct Hta1 as [Hta|[n Hn]]; [rewrite Hta, Hu1; lia|].
  apply Hbound in Hn. lia.
Qed.

Lemma batch_run_returns_witness :
  ∃ stats,
    (process_all_liked_me_enhanced Sample.env Sample.config 1 1 1 27 Sample.world).2
    = Returns stats.
Proof.
  apply (batch_run_returns Sample.env Sample.config 1 1 1 27 Sample.world 25).
  - intros n count [= <-]. lia.
  - vm_compute. lia.
Defined.

Lemma count_loop_zero (env : Env) todo :
  (∀ n, liked_me_count_reply env n = answers None
        ∨ liked_me_count_reply env n = answers (Some 0)) →
  ∀ w stats,
  total_available stats = 0 →
  ∃ w' stats',
    count_loop env todo (w, stats) = ((w', stats'), Returns tt)
    ∧ trace w' = trace w ++ replicate todo (EvCall call_liked_me_count)
    ∧ db w' = db w
    ∧ total_available stats' = 0
    ∧ users_processed stats' = users_processed stats
    ∧ likes_sent stats' = likes_sent stats.
Proof.
  intros Hzero. induction todo as [|todo IH]; intros w stats Hta.
  - exists w, stats. cbn [count_loop replicate]. by rewrite app_nil_r.
  - rewrite count_loop_step.
    set (w1 := emit (EvCall call_liked_me_count) w).
    destruct (Hzero (now w)) as [-> | ->];
      match goal with |- context [count_loop env todo (w1, ?st)] =>
        destruct (IH w1 st) as (w' & stats' & -> & Ht & Hd & Hta' & Hu & Hl); [done|]
      end;
      exists w', stats'; rewrite Ht; subst w1; cbn [emit trace replicate];
      rewrite <- app_assoc; done.
Qed.

(** X20.  A count that the service leaves unanswered is taken as zero: when
    every read of the count answers [None] or 0, no page is fetched, no like
    is sent, and the cached count of the account is set to 0. *)
Theorem unanswered_count_resets_cache (env : Env) (config : Config)
    (account_id session_id session_end_time : Z) (fuel : nat) (w : World)
    (row : StatusRow) :
  (∀ n, liked_me_count_reply env n = answers None
        ∨ liked_me_count_reply env n = answers (Some 0)) →
  (∀ n, db_available env n = true) →
  account_status (db w) !! account_id = Some row →
  ∃ w' stats,
    process_all_liked_me_enhanced env config account_id session_id session_end_time
      fuel w = (w', Returns stats)
    ∧ trace w' = trace w ++ replicate (Z.to_nat (randint env (now w) 1 3))
                              (EvCall call_liked_me_count)
    ∧ likes_sent stats = 0
    ∧ users_processed stats = 0
    ∧ account_status (db w') !! account_id = Some (set_liked_me_count 0 row).
Proof.
  intros Hzero Hdb Hrow. rewrite process_all_unfold.
  destruct (count_loop_zero env (Z.to_nat (randint env (now w) 1 3)) Hzero w no_stats)
    as (w1 & stats1 & -> & Ht & Hd & Hta & Hu & Hl); [done|].
  rewrite Hta. cbn [Z.eqb]. unfold _update_cached_liked_count. rewrite Hdb.
  eexists _, _. split; [reflexivity|]. cbn [with_db with_status trace db account_status].
  rewrite Ht, Hd, Hu, Hl, lookup_alter_eq, Hrow. done.
Qed.

Lemma unanswered_count_resets_cache_witness :
  ∃ w' stats,
    process_all_liked_me_enhanced Scenario.env_count_unanswered Sample.config 1 1 1 1
      Sample.world = (w', Returns stats)
    ∧ trace w' = trace Sample.world
                 ++ replicate (Z.to_nat (randint Scenario.env_count_unanswered
                                           (now Sample.world) 1 3))
                      (EvCall call_liked_me_count)
    ∧ likes_sent stats = 0
    ∧ users_processed stats = 0
    ∧ account_status (db w') !! 1 = Some (set_liked_me_count 0 Sample.status_row).
Proof.
  apply (unanswered_count_resets_cache Scenario.env_count_unanswered Sample.config
           1 1 1 1 Sample.world Sample.status_row).
  - intros n. left. reflexivity.
  - intros n. reflexivity.
  - reflexivity.
Defined.

End BatchTheorems.

(** ** Queue batch processor, the session maximum *)

Section BatchAttempts.
Import Bot Observed Tally.
Context (env : Env) (config : Config) (account_id session_id session_end_time : Z).
Hypothesis Hrun : ∀ n, running_at env n = true.
Hypothesis Hclock : ∀ n, clock env n < session_end_time.
Hypothesis Hdb : ∀ n, db_available env n = true.
Hypothesis Hlike : ∀ n u, ∃ r, like_user env n u = answers r.










End BatchAttempts.

Section BatchClaim.
Import Bot Observed Tally.




End BatchClaim.

(** ** Request-pattern executor, further *)

Section ExecutorExtras.
Import Bot Observed Quiet.
Context (env : Env) (config : Config).

Lemma only_logs_emit e :
  liked_user e = None → requests_of [e] = [] → only_logs (emit e).
Proof.
  intros He Hr w. split; [done|]. split; [done|]. exists [e]. split; [done|].
  cbn [omap list_omap]. by rewrite He.
Qed.

Lemma requests_of_app a b : requests_of (a ++ b) = requests_of a ++ requests_of b.
Proof. apply omap_app. Qed.

Lemma only_logs_compose f g : only_logs f → only_logs g → only_logs (fun w => g (f w)).
Proof.
  intros Hf Hg w. destruct (Hf w) as (Hd1 & Hc1 & evs1 & Ht1 & Ho1 & Hr1).
  destruct (Hg (f w)) as (Hd2 & Hc2 & evs2 & Ht2 & Ho2 & Hr2).
  split; [congruence|]. split; [congruence|].
  exists (evs1 ++ evs2).
  rewrite Ht2, Ht1, <- app_assoc, omap_app, requests_of_app, Ho1, Ho2, Hr1, Hr2. done.
Qed.

Lemma only_logs_adaptive_delay delay_type context factor :
  only_logs (adaptive_delay env config delay_type context factor).
Proof.
  unfold adaptive_delay. intros w.
  destruct (context_given context && default false (detailed_logging config)).
  - apply (only_logs_compose (emit _) (emit _)); by apply only_logs_emit.
  - by apply only_logs_emit.
Qed.

Lemma only_logs_timing account_id session_id request_type ms ok triple position :
  only_logs (_log_request_timing env account_id session_id request_type ms ok triple
               position).
Proof.
  intros w. unfold _log_request_timing.
  destruct (db_available env (now w)); by apply only_logs_emit.
Qed.

Abbreviation all_succeed := (∀ n endpoint method, request_ok env n endpoint method = true).

Lemma counted_refl st : counted all_succeed st st.
Proof.
  split; [done|]. split; [done|]. split; [done|]. split; [|done].
  exists []. rewrite app_nil_r. cbn. repeat split; lia.
Qed.

Lemma counted_trans st1 st2 st3 :
  counted all_succeed st1 st2 → counted all_succeed st2 st3 → counted all_succeed st1 st3.
Proof.
  intros (Hd1 & Hc1 & Hs1 & (e1 & Ht1 & Ho1 & Hm1 & Hl1 & He1) & Hq1)
         (Hd2 & Hc2 & Hs2 & (e2 & Ht2 & Ho2 & Hm2 & Hl2 & He2) & Hq2).
  split; [congruence|]. split; [congruence|]. split; [congruence|]. split.
  - exists (e1 ++ e2).
    rewrite Ht2, Ht1, <- app_assoc, omap_app, requests_of_app, length_app, Ho1, Ho2.
    repeat split; try done; lia.
  - intros Hq. rewrite Hq2, Hq1; done.
Qed.

Lemma counted_only_logs f w results :
  only_logs f → counted all_succeed (w, results) (f w, results).
Proof.
  intros Hf. destruct (Hf w) as (Hd & Hc & evs & Ht & Ho & Hr).
  split; [done|]. split; [done|]. split; [done|]. split; [|done].
  exists evs. cbn [fst snd]. rewrite Hr. cbn [length]. repeat split; try done; lia.
Qed.

Lemma counted_then f st w results :
  counted all_succeed st (w, results) → only_logs f →
  counted all_succeed st (f w, results).
Proof.
  intros H Hf. eapply counted_trans; [exact H|]. by apply counted_only_logs.
Qed.

Lemma counted_request w results results' endpoint method :
  success results' = success results →
  requests_made results' = requests_made results + 1 →
  length (timings results') = S (length (timings results)) →
  0 <= errors results' - errors results <= 1 →
  (all_succeed → errors results' = errors results) →
  counted all_succeed (w, results) (emit (EvRequest endpoint method) w, results').
Proof.
  intros Hs Hm Hl He Hq.
  split; [done|]. split; [done|]. split; [done|]. split; [|done].
  exists [EvRequest endpoint method].
  cbn [fst snd requests_of omap list_omap length emit trace].
  repeat split; try done; lia.
Qed.

Lemma repeat_body_counted p account_id session_id repeat st :
  counted all_succeed st (repeat_body env config p account_id session_id repeat st).
Proof.
  destruct st as [w results]. unfold repeat_body.
  destruct (request_ok env (now w) (endpoint p) (method p)) eqn:Eok; cbn [negb].
  - destruct (repeat <? repeat_count p - 1);
      [apply counted_then; [|apply only_logs_adaptive_delay]|];
      (destruct (default false (log_request_timings config));
       [apply counted_then; [|apply only_logs_timing]|]);
      apply counted_request; cbn [success requests_made timings errors];
      rewrite ?length_app; cbn [length]; lia || done.
  - assert (Hne : all_succeed → False) by (intros Hq; by rewrite Hq in Eok).
    destruct (repeat <? repeat_count p - 1);
      [apply counted_then; [|apply only_logs_adaptive_delay]|];
      (apply counted_then; [|by destruct (critical p); apply only_logs_emit]);
      (destruct (default false (log_request_timings config));
       [apply counted_then; [|apply only_logs_timing]|]);
      apply counted_request; cbn [success requests_made timings errors];
      rewrite ?length_app; cbn [length]; lia || done.
Qed.

Lemma repeat_loop_counted p account_id session_id todo :
  ∀ repeat st,
  counted all_succeed st (repeat_loop env config p account_id session_id todo repeat st).
Proof.
  induction todo as [|todo IH]; intros repeat st; [apply counted_refl|].
  cbn [repeat_loop]. destruct (negb _); [apply counted_refl|].
  eapply counted_trans; [apply repeat_body_counted|apply IH].
Qed.

Lemma pattern_body_counted patterns p account_id session_id st :
  counted all_succeed st (pattern_body env config patterns p account_id session_id st).
Proof.
  unfold pattern_body.
  pose proof (repeat_loop_counted p account_id session_id
                (Z.to_nat (repeat_count p)) 0 st) as H1.
  destruct (repeat_loop _ _ _ _ _ _ _ _) as [w results].
  destruct (negb _); [|exact H1].
  apply counted_then; [exact H1|apply only_logs_adaptive_delay].
Qed.

Lemma pattern_loop_counted patterns account_id session_id todo :
  ∀ st,
  counted all_succeed st (pattern_loop env config patterns todo account_id session_id st).
Proof.
  induction todo as [|p todo IH]; intros st; [apply counted_refl|].
  cbn [pattern_loop]. destruct (negb _); [apply counted_refl|].
  eapply counted_trans; [apply pattern_body_counted|apply IH].
Qed.

Lemma execute_request_pattern_counted table pattern_name patterns account_id session_id w :
  table !! pattern_name = Some patterns →
  ∃ w1 results evs,
    execute_request_pattern env config table pattern_name account_id session_id w
    = (w1, pattern_results results)
    ∧ trace w1 = trace w ++ evs
    ∧ db w1 = db w
    ∧ omap liked_user evs = []
    ∧ requests_made results = Z.of_nat (length (requests_of evs))
    ∧ length (timings results) = length (requests_of evs)
    ∧ 0 <= errors results <= requests_made results
    ∧ request_count (current_session w1)
      = request_count (current_session w) + requests_made results
    ∧ error_count (current_session w1)
      = error_count (current_session w) + errors results
    ∧ start_time (current_session w1) = start_time (current_session w)
    ∧ phase (current_session w1) = phase (current_session w)
    ∧ success results = true
    ∧ (all_succeed → errors results = 0).
Proof.
  intros Hlookup. unfold execute_request_pattern. rewrite Hlookup.
  pose proof (pattern_loop_counted patterns account_id session_id patterns
                (w, {| success := true; requests_made := 0; errors := 0; timings := [] |}))
    as (Hd & Hc & Hs & (evs & Ht & Ho & Hm & Hl & He) & Hq).
  destruct (pattern_loop _ _ _ _ _ _ _) as [w1 results].
  cbn [fst snd success requests_made errors timings length] in *.
  eexists _, _, evs. split; [reflexivity|].
  cbn [with_session db current_session trace start_time phase request_count error_count].
  rewrite Hc. repeat split; try done; lia.
Qed.

End ExecutorExtras.

Section ExecutorTheorems.
Import Bot Observed Quiet.

Lemma execute_request_pattern_quiet (env : Env) (config : Config)
    (table : gmap string (list RequestPattern)) (pattern_name : string)
    (patterns : list RequestPattern) (account_id session_id : Z) (w : World) :
  (∀ n endpoint method, request_ok env n endpoint method = true) →
  table !! pattern_name = Some patterns →
  ∃ w1 results,
    execute_request_pattern env config table pattern_name account_id session_id w
    = (w1, pattern_results results)
    ∧ success results = true
    ∧ errors results = 0
    ∧ db w1 = db w
    ∧ start_time (current_session w1) = start_time (current_session w)
    ∧ phase (current_session w1) = phase (current_session w)
    ∧ ∃ evs, trace w1 = trace w ++ evs ∧ omap liked_user evs = [].
Proof.
  intros Hok Hlookup.
  destruct (execute_request_pattern_counted env config table pattern_name patterns
              account_id session_id w Hlookup)
    as (w1 & results & evs & Hrun & Ht & Hd & Ho & _ & _ & _ & _ & _ & Hst & Hph & Hs & Hq).
  exists w1, results. rewrite Hq by done. repeat split; try done. by exists evs.
Qed.

(** X21.  The counters of the executor follow the wire: for a pattern of
    the table, in any environment and whenever the stop flag is set, the
    requests counted are the requests made, each has its timing, the
    errors are no more than the requests (and none when every request
    succeeds), the counters of the session grow by these numbers, and no
    like is sent. *)
Theorem executor_counts_what_it_sends (env : Env) (config : Config)
    (table : gmap string (list RequestPattern)) (pattern_name : string)
    (patterns : list RequestPattern) (account_id session_id : Z) (w : World) :
  table !! pattern_name = Some patterns →
  ∃ w1 results evs,
    execute_request_pattern env config table pattern_name account_id session_id w
    = (w1, pattern_results results)
    ∧ trace w1 = trace w ++ evs
    ∧ omap liked_user evs = []
    ∧ requests_made results = Z.of_nat (length (requests_of evs))
    ∧ length (timings results) = length (requests_of evs)
    ∧ 0 <= errors results <= requests_made results
    ∧ request_count (current_session w1)
      = request_count (current_session w) + requests_made results
    ∧ error_count (current_session w1)
      = error_count (current_session w) + errors results
    ∧ ((∀ n endpoint method, request_ok env n endpoint method = true) →
       errors results = 0).
Proof.
  intros Hlookup.
  destruct (execute_request_pattern_counted env config table pattern_name patterns
              account_id session_id w Hlookup)
    as (w1 & results & evs & Hrun & Ht & Hd & Ho & Hm & Hl & He & Hrc & Hec & _ & _ & _ & Hq).
  exists w1, results, evs. repeat split; try done; lia.
Qed.

Lemma executor_counts_what_it_sends_witness :
  ∃ w1 results evs,
    execute_request_pattern Sample.env Sample.config REQUEST_PATTERNS "startup" 1 1
      Sample.world = (w1, pattern_results results)
    ∧ trace w1 = trace Sample.world ++ evs
    ∧ omap liked_user evs = []
    ∧ requests_made results = Z.of_nat (length (requests_of evs))
    ∧ length (timings results) = length (requests_of evs)
    ∧ 0 <= errors results <= requests_made results
    ∧ request_count (current_session w1)
      = request_count (current_session Sample.world) + requests_made results
    ∧ error_count (current_session w1)
      = error_count (current_session Sample.world) + errors results
    ∧ ((∀ n endpoint method, request_ok Sample.env n endpoint method = true) →
       errors results = 0).
Proof.
  apply (executor_counts_what_it_sends Sample.env Sample.config REQUEST_PATTERNS
           "startup" (default [] (REQUEST_PATTERNS !! "startup")) 1 1 Sample.world).
  by vm_compute.
Defined.

End ExecutorTheorems.

(** ** Session orchestrator, further *)

Section OrchestratorExtras.
Import Bot Observed Quiet.

Lemma end_session_effect (env : Env) (config : Config) (account_id session_id : Z)
    (stats : Stats) (w : World) (started : Z) (srow : SessionRow) (arow : AccountRow) :
  (∀ n, db_available env n = true) →
  start_time (current_session w) = Some started →
  enhanced_sessions (db w) !! session_id = Some srow →
  accounts (db w) !! account_id = Some arow →
  let w' := end_enhanced_session env config account_id session_id stats w in
  current_session w' = current_session w
  ∧ trace w' = trace w
  ∧ (∃ srow', enhanced_sessions (db w') !! session_id = Some srow'
              ∧ is_Some (row_session_end srow')
              ∧ row_requests_made srow' = request_count (current_session w))
  ∧ (∃ arow', accounts (db w') !! account_id = Some arow'
              ∧ acct_status arow' = acct_status arow
              ∧ acct_total_requests arow'
                = acct_total_requests arow + request_count (current_session w)).
Proof.
  intros Hdb Hstarted Hsrow Harow w'. subst w'. unfold end_enhanced_session.
  rewrite Hstarted, Hdb. cbn [with_db db current_session trace enhanced_sessions accounts].
  rewrite !lookup_alter_eq, Hsrow, Harow. cbn [fmap option_fmap option_map].
  split; [done|]. split; [done|]. split; eexists; (split; [reflexivity|]); by eauto.
Qed.

Lemma mark_banned_effect (env : Env) (account_id : Z) (w : World) (arow : AccountRow) :
  (∀ n, db_available env n = true) →
  accounts (db w) !! account_id = Some arow →
  let w' := _mark_account_banned env account_id w in
  current_session w' = current_session w
  ∧ trace w' = trace w ++ [EvHelper "_mark_account_banned"]
  ∧ enhanced_sessions (db w') = enhanced_sessions (db w)
  ∧ (∃ arow', accounts (db w') !! account_id = Some arow'
              ∧ acct_status arow' = "banned"%string
              ∧ acct_total_requests arow' = acct_total_requests arow).
Proof.
  intros Hdb Harow w'. subst w'. unfold _mark_account_banned. rewrite Hdb.
  cbn [emit with_db with_accounts db current_session trace enhanced_sessions accounts].
  rewrite lookup_alter_eq, Harow. cbn [fmap option_fmap option_map].
  split; [done|]. split; [done|]. split; [done|]. by eexists.
Qed.

(** X23.  An account whose profile shows no Gold subscription: when the
    database works, the client is there and every request of the startup
    pattern succeeds, the run marks the account as banned and sends no
    like; the session is closed, and, closed twice (by the branch and by
    the [finally] clause), it adds its requests twice to the total of the
    account. *)
Theorem non_gold_account_is_banned (env : Env) (config : Config)
    (table : gmap string (list RequestPattern)) (patterns : list RequestPattern)
    (fuel : nat) (account : Account) (w : World) (p : ProfileData) (row : AccountRow) :
  let session_id := sessions_sequence (db w) + 1 in
  let w' := (process_single_account_enhanced env config table fuel account w).1 in
  (∀ n, db_available env n = true) →
  0 <= sessions_sequence (db w) →
  initialize_api env (now (start_enhanced_session env (id account) w).1) = true →
  table !! "startup" = Some patterns →
  (∀ n endpoint method, request_ok env n endpoint method = true) →
  (∀ n, profile env n = answers (Some p)) →
  is_gold p = false →
  accounts (db w) !! id account = Some row →
  ∃ session_row account_row,
    enhanced_sessions (db w') !! session_id = Some session_row
    ∧ is_Some (row_session_end session_row)
    ∧ accounts (db w') !! id account = Some account_row
    ∧ acct_status account_row = "banned"%string
    ∧ acct_total_requests account_row
      = acct_total_requests row + 2 * row_requests_made session_row
    ∧ omap liked_user (trace w') = omap liked_user (trace w).
Proof.
  intros sid w' Hdb Hseq Hapi Hlookup Hok Hprofile Hgold Hrow.
  assert (Hrun : ∃ w1 stats1 srow arow,
    w' = end_enhanced_session env config (id account) sid stats1
           (end_enhanced_session env config (id account) sid stats1
              (_mark_account_banned env (id account) (emit (EvCall call_profile) w1)))
    ∧ is_Some (start_time (current_session w1))
    ∧ enhanced_sessions (db w1) !! sid = Some srow
    ∧ accounts (db w1) !! id account = Some arow
    ∧ acct_total_requests arow = acct_total_requests row
    ∧ omap liked_user (trace w1) = omap liked_user (trace w)).
  { subst w'. unfold process_single_account_enhanced.
    assert (Hstart : start_enhanced_session env (id account) w
                     = ((start_enhanced_session env (id account) w).1, sid)).
    { unfold start_enhanced_session. cbn [with_session now trace]. by rewrite Hdb. }
    rewrite Hstart. destruct (Z.eqb_spec sid 0) as [H0|_]; [subst sid; lia|].
    rewrite Hapi. cbn [negb].
    unfold catch, session_body.
    rewrite bindM_unfold. unfold on_world at 1, modify. cbv beta iota. cbn [fst snd].
    set (s0 := session_entry env account w).
    assert (Hs0 : phase (current_session s0.1) = STARTUP
                  ∧ is_Some (start_time (current_session s0.1))
                  ∧ trace s0.1 = trace w ++ [EvCall call_initialize]
                  ∧ (∃ srow, enhanced_sessions (db s0.1) !! sid = Some srow)
                  ∧ (∃ arow, accounts (db s0.1) !! id account = Some arow
                             ∧ acct_total_requests arow = acct_total_requests row)).
    { subst s0. unfold session_entry, start_enhanced_session.
      cbn [with_session now trace fst]. rewrite Hdb.
      cbn [fst with_db with_session emit trace db current_session phase start_time
           request_count enhanced_sessions accounts].
      split; [done|]. split; [by eexists|]. split; [done|].
      split; [eexists; apply lookup_insert_eq|].
      rewrite lookup_alter_eq, Hrow. by eexists. }
    destruct Hs0 as (Hphase & Hstarted & Htrace & [srow Hsrow] & [arow [Harow Htotal]]).
    destruct s0 as [w0 stats0]. cbn [fst snd] in *.
    assert (Htrans : transition_session_phase env config STARTUP (id account) w0 = w0).
    { unfold transition_session_phase. rewrite Hphase. by rewrite bool_decide_eq_true_2. }
    rewrite Htrans.
    destruct (execute_request_pattern_quiet env config table "startup" patterns
                (id account) sid w0 Hok Hlookup)
      as (w1 & results & Hexec & Hsucc & Herr & Hdb1 & Hst1 & Hph1 & evs1 & Htr1 & Hlk1).
    rewrite bindM_unfold. cbn [fst snd]. rewrite Hexec.
    rewrite !bindM_unfold. unfold on_stats at 1 2, modify. cbv beta iota. cbn [fst snd].
    rewrite Hsucc, Herr. cbn [negb orb]. change (2 <? 0) with false. cbv iota.
    rewrite bindM_unfold. cbv beta iota. cbn [fst snd].
    rewrite (bindM_unfold (call (profile env) call_profile)).
    change (call (profile env) call_profile ?s)
      with ((emit (EvCall call_profile) s.1, s.2), of_reply (profile env (now s.1))).
    cbn [fst snd]. rewrite Hprofile. cbn [of_reply]. rewrite Hgold. cbn [negb].
    rewrite (bindM_unfold (on_world _)). unfold on_world at 1, modify, finish.
    cbv beta iota. cbn [fst snd].
    eexists w1, _, srow, arow. split; [reflexivity|].
    rewrite Hst1, Hdb1, Htr1, Htrace, !omap_app, Hlk1.
    cbn [omap list_omap liked_user]. by rewrite !app_nil_r. }
  destruct Hrun as (w1 & stats1 & srow & arow & -> & [started Hstarted] & Hsrow & Harow
                    & Htotal & Hlikes).
  destruct (mark_banned_effect env (id account) (emit (EvCall call_profile) w1) arow Hdb Harow)
    as (Hcs2 & Htr2 & Hse2 & arow2 & Harow2 & Hbanned2 & Htotal2).
  set (w2 := _mark_account_banned env (id account) (emit (EvCall call_profile) w1)) in *.
  assert (Hstarted2 : start_time (current_session w2) = Some started) by by rewrite Hcs2.
  assert (Hsrow2 : enhanced_sessions (db w2) !! sid = Some srow) by by rewrite Hse2.
  destruct (end_session_effect env config (id account) sid stats1 w2 started srow arow2
              Hdb Hstarted2 Hsrow2 Harow2)
    as (Hcs3 & Htr3 & (srow3 & Hsrow3 & _ & _) & arow3 & Harow3 & Hbanned3 & Htotal3).
  set (w3 := end_enhanced_session env config (id account) sid stats1 w2) in *.
  assert (Hstarted3 : start_time (current_session w3) = Some started) by by rewrite Hcs3.
  destruct (end_session_effect env config (id account) sid stats1 w3 started srow3 arow3
              Hdb Hstarted3 Hsrow3 Harow3)
    as (Hcs4 & Htr4 & (srow4 & Hsrow4 & Hend4 & Hmade4) & arow4 & Harow4 & Hbanned4 & Htotal4).
  exists srow4, arow4. split; [done|]. split; [done|]. split; [done|].
  split; [congruence|]. split.
  - rewrite Htotal4, Htotal3, Htotal2, Htotal, Hmade4, Hcs3. lia.
  - rewrite Htr4, Htr3, Htr2. cbn [emit trace]. rewrite !omap_app.
    cbn [omap list_omap liked_user]. by rewrite !app_nil_r.
Qed.

Lemma non_gold_account_is_banned_witness :
  ∃ session_row account_row,
    enhanced_sessions
      (db (process_single_account_enhanced Scenario.env_free_account Sample.config
             REQUEST_PATTERNS 1 Sample.account Sample.world).1)
      !! (sessions_sequence (db Sample.world) + 1) = Some session_row
    ∧ is_Some (row_session_end session_row)
    ∧ accounts
        (db (process_single_account_enhanced Scenario.env_free_account Sample.config
               REQUEST_PATTERNS 1 Sample.account Sample.world).1)
        !! id Sample.account = Some account_row
    ∧ acct_status account_row = "banned"%string
    ∧ acct_total_requests account_row
      = acct_total_requests Sample.account_row + 2 * row_requests_made session_row
    ∧ omap liked_user
        (trace (process_single_account_enhanced Scenario.env_free_account Sample.config
                  REQUEST_PATTERNS 1 Sample.account Sample.world).1)
      = omap liked_user (trace Sample.world).
Proof.
  apply (non_gold_account_is_banned Scenario.env_free_account Sample.config
           REQUEST_PATTERNS (default [] (REQUEST_PATTERNS !! "startup")) 1
           Sample.account Sample.world
           {| is_gold := false; gold_expires_at := None |} Sample.account_row).
  - intros n. reflexivity.
  - by vm_compute.
  - reflexivity.
  - by vm_compute.
  - intros n endpoint method. reflexivity.
  - intros n. reflexivity.
  - reflexivity.
  - reflexivity.
Defined.

Lemma session_always_closed_witness :
  ∃ row t,
    enhanced_sessions
      (db (process_single_account_enhanced Sample.env Sample.config REQUEST_PATTERNS 1
             Sample.account Sample.world).1)
    = <[sessions_sequence (db Sample.world) + 1 := row]>
        (enhanced_sessions (db Sample.world))
    ∧ row_account_id row = id Sample.account
    ∧ row_session_end row = Some (clock Sample.env t).
Proof.
  apply (session_always_closed Sample.env Sample.config REQUEST_PATTERNS 1
           Sample.account Sample.world).
  - by vm_compute.
  - intros n. reflexivity.
  - by vm_compute.
Defined.

(** X24.  When the database cannot be reached as the session starts, the
    run ends there: it returns, the only event is the error line of
    [start_enhanced_session], so no call goes to the service, and the
    database is as it was. *)
Theorem database_down_at_start_stops_run (env : Env) (config : Config)
    (table : gmap string (list RequestPattern)) (fuel : nat) (account : Account)
    (w : World) :
  db_available env (now w) = false →
  ∃ w',
    process_single_account_enhanced env config table fuel account w = (w', Returns tt)
    ∧ trace w' = trace w ++ [EvLog ERROR (msg_database_error "start_enhanced_session")]
    ∧ db w' = db w
    ∧ start_time (current_session w') = Some (clock env (now w)).
Proof.
  intros Hdown. unfold process_single_account_enhanced, start_enhanced_session.
  change (now (with_session ?f w)) with (now w). rewrite Hdown. cbn [Z.eqb].
  by eexists.
Qed.

Lemma database_down_at_start_stops_run_witness :
  ∃ w',
    process_single_account_enhanced Scenario.env_database_down Sample.config
      REQUEST_PATTERNS 1 Sample.account Sample.world = (w', Returns tt)
    ∧ trace w' = trace Sample.world
                 ++ [EvLog ERROR (msg_database_error "start_enhanced_session")]
    ∧ db w' = db Sample.world
    ∧ start_time (current_session w')
      = Some (clock Scenario.env_database_down (now Sample.world)).
Proof.
  apply (database_down_at_start_stops_run Scenario.env_database_down Sample.config
           REQUEST_PATTERNS 1 Sample.account Sample.world).
  reflexivity.
Defined.

End OrchestratorExtras.

(** ** The wire client *)

Section WireFacts.
Import Wire.

Lemma sends_app a b : sends (a ++ b) = sends a ++ sends b.
Proof. apply omap_app. Qed.

Lemma sleeps_app a b : sleeps (a ++ b) = sleeps a ++ sleeps b.
Proof. apply omap_app. Qed.

Lemma backoff_idle attempt st : idle st (backoff attempt st).
Proof.
  unfold backoff. destruct (attempt <? 3 - 1).
  - split; [by eexists [_]|done].
  - split; [exists []; by rewrite app_nil_r|done].
Qed.

Lemma on_exception_spec env attempt st :
  idle st (on_exception attempt st).1
  ∧ ((on_exception attempt st).2 = returns_None → refused env (on_exception attempt st).1.1)
  ∧ (∀ response, (on_exception attempt st).2 ≠ returns_response response).
Proof.
  unfold on_exception. cbn [consecutive_errors max_consecutive_errors with_consecutive_errors].
  destruct (_ <=? _); cbn [fst snd].
  - split; [split; [exists []; by rewrite app_nil_r|done]|]. split; [by left|done].
  - split.
    + destruct (backoff_idle attempt (with_consecutive_errors (consecutive_errors st.1 + 1) st.1, st.2))
        as (He & Hc & Hm). by split.
    + split; done.
Qed.

Lemma cache_untouched (response : HttpResponse) (url : string) (code : Z)
    (self : Client) (trace : list Event) :
  code ≠ 200 →
  match last_modified response return State with
  | Some value =>
      if code =? 200 then (with_cache <[url := value]> self, trace) else (self, trace)
  | None => (self, trace)
  end = (self, trace).
Proof.
  intros Hcode. destruct (last_modified response); [|done].
  by rewrite (proj2 (Z.eqb_neq code 200) Hcode).
Qed.

Lemma attempt_body_spec env method url attempt st :
  let r := attempt_body env method url attempt st in
  (∃ tail, r.1.2 = st.2 ++ EvSend method url (if_modified_since_of st.1 method url) :: tail
           ∧ sends tail = [])
  ∧ max_consecutive_errors r.1.1 = max_consecutive_errors st.1
  ∧ match r.2 with
    | returns_response response => answered env url r.1.1 response
    | returns_None => refused env r.1.1
    | next_attempt => last_modified_cache r.1.1 = last_modified_cache st.1
    end.
Proof.
  cbv zeta. unfold attempt_body. fold (if_modified_since_of st.1 method url).
  set (send := EvSend method url (if_modified_since_of st.1 method url)).
  destruct st as [self trace]. cbn [fst snd].
  assert (Hexc : ∀ self' : Client,
            last_modified_cache self' = last_modified_cache self →
            max_consecutive_errors self' = max_consecutive_errors self →
            let r := on_exception attempt (self', trace ++ [send]) in
            (∃ tail, r.1.2 = trace ++ send :: tail ∧ sends tail = [])
            ∧ max_consecutive_errors r.1.1 = max_consecutive_errors self
            ∧ match r.2 with
              | returns_response response => answered env url r.1.1 response
              | returns_None => refused env r.1.1
              | next_attempt => last_modified_cache r.1.1 = last_modified_cache self
              end).
  { intros self' Hc Hm r.
    destruct (on_exception_spec env attempt (self', trace ++ [send]))
      as (((evs & He & Hs) & Hc' & Hm') & Hnone & Hresp).
    fold r in He, Hc', Hm', Hnone, Hresp. cbn [fst snd] in *.
    split; [exists evs; by rewrite He, <- app_assoc|]. split; [congruence|].
    destruct (r.2) as [|response|] eqn:Er; [by apply Hnone|by destruct (Hresp response)|].
    congruence. }
  assert (Hback : ∀ self' : Client,
            last_modified_cache self' = last_modified_cache self →
            max_consecutive_errors self' = max_consecutive_errors self →
            (∃ tail, (backoff attempt (self', trace ++ [send])).2 = trace ++ send :: tail
                     ∧ sends tail = [])
            ∧ max_consecutive_errors (backoff attempt (self', trace ++ [send])).1
              = max_consecutive_errors self
            ∧ last_modified_cache (backoff attempt (self', trace ++ [send])).1
              = last_modified_cache self).
  { intros self' Hc Hm.
    destruct (backoff_idle attempt (self', trace ++ [send])) as ((evs & He & Hs) & Hc' & Hm').
    cbn [fst snd] in *.
    split; [exists evs; by rewrite He, <- app_assoc|]. split; congruence. }
  destruct (transport env (length trace)) as [| |[response|]] eqn:Esent.
  - apply Hback; done.
  - apply Hexc; done.
  - set (code := status_code response).
    set (self1 := with_status (if truth response then Some code else None) self).
    destruct (decide (code = 200)) as [H200|H200].
    { rewrite H200. cbn [Z.eqb Pos.eqb].
      destruct (last_modified response) as [value|] eqn:Elm; cbn [fst snd];
        (split; [by exists []|]); (split; [done|]);
        (split; [by exists (length trace)|]); fold code; rewrite H200;
        repeat split; try done;
        try (subst self1; cbn; by rewrite H200).
      - intros v Hv. rewrite Elm in Hv. injection Hv as <-. cbn. apply lookup_insert_eq.
      - intros v Hv. by rewrite Elm in Hv. }
    rewrite (cache_untouched response url code self1 (trace ++ [send]) H200).
    rewrite (proj2 (Z.eqb_neq code 200) H200).
    assert (Hans : (∃ tail, trace ++ [send] = trace ++ send :: tail ∧ sends tail = [])
                   ∧ max_consecutive_errors self1 = max_consecutive_errors self).
    { split; [by exists []|done]. }
    assert (Hok : code ≠ 401 → code ≠ 403 → code ≠ 429 → code < 500 →
                  answered env url self1 response).
    { intros. split; [by exists (length trace)|]. fold code. repeat split; try done. }
    destruct (Z.eqb_spec code 304); [cbn [fst snd]; destruct Hans; repeat split; try done; apply Hok; lia|].
    destruct (Z.eqb_spec code 400); [cbn [fst snd]; destruct Hans; repeat split; try done; apply Hok; lia|].
    assert (Href : code = 401 ∨ code = 403 → refused env self1).
    { intros Hcode. destruct (truth response) eqn:Et; [right|left].
      - exists (length trace), response. split; [done|]. split; [done|].
        split; [by fold code|]. subst self1. cbn. by rewrite ?Et.
      - subst self1. cbn. by rewrite ?Et. }
    destruct (Z.eqb_spec code 401); [cbn [fst snd]; destruct Hans; repeat split; try done; apply Href; by left|].
    destruct (Z.eqb_spec code 403); [cbn [fst snd]; destruct Hans; repeat split; try done; apply Href; by right|].
    destruct (Z.eqb_spec code 429).
    { destruct (retry_after response) as [[seconds|]|].
      - destruct (seconds <? 0); [apply Hexc; done|].
        cbn [fst snd sleep]. split; [eexists [_]; by rewrite <- app_assoc|]. done.
      - apply Hexc; done.
      - cbn [fst snd sleep]. split; [eexists [_]; by rewrite <- app_assoc|]. done. }
    destruct (Z.leb_spec 500 code); [apply Hback; done|].
    cbn [fst snd]. destruct Hans. repeat split; try done. apply Hok; lia.
  - apply Hexc; done.
Qed.

Lemma if_modified_since_of_cache (self self' : Client) method url :
  last_modified_cache self' = last_modified_cache self →
  if_modified_since_of self' method url = if_modified_since_of self method url.
Proof. intros Hc. unfold if_modified_since_of. by rewrite Hc. Qed.

Lemma attempt_loop_spec env method url todo :
  ∀ st,
  let r := attempt_loop env method url todo st in
  (∃ evs, r.1.2 = st.2 ++ evs
          ∧ (length (sends evs) <= length todo)%nat
          ∧ (todo ≠ [] → (1 <= length (sends evs))%nat)
          ∧ Forall (fun x => x = (method, url, if_modified_since_of st.1 method url))
                   (sends evs))
  ∧ max_consecutive_errors r.1.1 = max_consecutive_errors st.1
  ∧ match r.2 with
    | Some response => answered env url r.1.1 response
    | None => refused env r.1.1
    end.
Proof.
  induction todo as [|attempt todo IH]; intros st; cbv zeta.
  - cbn [attempt_loop fst snd]. split; [|split; [done|by left]].
    exists []. rewrite app_nil_r. cbn. repeat split; done || lia.
  - cbn [attempt_loop].
    destruct (attempt_body_spec env method url attempt st) as ((tail & Ht & Hs) & Hm & Hturn).
    set (ims := if_modified_since_of st.1 method url) in *.
    assert (Hone : ∀ st1 : State,
              st1.2 = st.2 ++ EvSend method url ims :: tail →
              ∃ evs, st1.2 = st.2 ++ evs
                     ∧ (length (sends evs) <= length (attempt :: todo))%nat
                     ∧ (attempt :: todo ≠ [] → (1 <= length (sends evs))%nat)
                     ∧ Forall (fun x => x = (method, url, ims)) (sends evs)).
    { intros st1 H1. exists (EvSend method url ims :: tail). split; [done|].
      change (EvSend method url ims :: tail) with ([EvSend method url ims] ++ tail).
      rewrite sends_app, Hs. cbn. repeat split; try lia. by repeat constructor. }
    destruct (attempt_body env method url attempt st) as [st1 [|response|]];
      cbn [fst snd] in *.
    + split; [by apply Hone|]. by split.
    + split; [by apply Hone|]. by split.
    + destruct (IH st1) as ((evs & He & Hlen & _ & Hall) & Hm' & Hres).
      split; [|split; [congruence|done]].
      exists ((EvSend method url ims :: tail) ++ evs).
      rewrite He, Ht, <- app_assoc. split; [done|].
      change (EvSend method url ims :: tail) with ([EvSend method url ims] ++ tail).
      rewrite !sends_app, Hs. cbn [sends omap list_omap app length].
      split; [lia|]. split; [lia|].
      constructor; [done|].
      by rewrite (if_modified_since_of_cache st.1 st1.1 method url Hturn) in Hall.
Qed.

Lemma _enforce_rate_limit_idle env st : idle st (_enforce_rate_limit env st).
Proof.
  unfold _enforce_rate_limit. destruct (negb _); cbn [fst snd sleep].
  - split; [by eexists [_]|done].
  - split; [exists []; by rewrite app_nil_r|done].
Qed.

Lemma _make_request_spec env method url st :
  let r := _make_request env method url st in
  (∃ evs, r.1.2 = st.2 ++ evs
          ∧ (1 <= length (sends evs) <= 3)%nat
          ∧ Forall (fun x => x = (method, url, if_modified_since_of st.1 method url))
                   (sends evs))
  ∧ max_consecutive_errors r.1.1 = max_consecutive_errors st.1
  ∧ match r.2 with
    | Some response => answered env url r.1.1 response
    | None => refused env r.1.1
    end.
Proof.
  cbv zeta. unfold _make_request.
  destruct (_enforce_rate_limit_idle env st) as ((evs0 & He0 & Hs0) & Hc0 & Hm0).
  destruct (attempt_loop_spec env method url [0; 1; 2] (_enforce_rate_limit env st))
    as ((evs & He & Hlen & Hone & Hall) & Hm & Hres).
  split; [|split; [congruence|done]].
  exists (evs0 ++ evs). rewrite He, He0, <- app_assoc, sends_app, Hs0. cbn [app length] in *.
  split; [done|]. split; [split; [by apply Hone|done]|].
  by rewrite (if_modified_since_of_cache st.1 _ method url Hc0) in Hall.
Qed.

(** X25.  Whatever the transport does, a call of [_make_request] sends the
    request once at least and three times at most, every time with the
    [If-Modified-Since] value that the cache had at the start.  A response
    that is returned was given by the transport, has a status other than
    401, 403, 429 and below 500, and leaves its status in
    [_last_response_status] ([None] for a response that is false).  When
    [None] is returned, [_last_response_status] is set: to [None], or to
    the 401 or 403 of an answer of the transport. *)
Theorem make_request_outcome (env : Env) (method url : string) (st : State) :
  let r := _make_request env method url st in
  (∃ evs, r.1.2 = st.2 ++ evs
          ∧ (1 <= length (sends evs) <= 3)%nat
          ∧ Forall (fun x => x = (method, url, if_modified_since_of st.1 method url))
                   (sends evs))
  ∧ match r.2 with
    | Some response => answered env url r.1.1 response
    | None => refused env r.1.1
    end.
Proof.
  destruct (_make_request_spec env method url st) as (Hevs & _ & Hres). by split.
Qed.


Lemma attempt_body_server_error env method url attempt st response :
  transport env (length st.2) = gives (Some response) →
  500 <= status_code response →
  attempt_body env method url attempt st
  = (backoff attempt
       (with_status (if truth response then Some (status_code response) else None) st.1,
        st.2 ++ [EvSend method url (if_modified_since_of st.1 method url)]),
     next_attempt).
Proof.
  intros Hsent Hcode. unfold attempt_body. rewrite Hsent.
  rewrite (cache_untouched response url (status_code response)) by lia.
  repeat match goal with
  | |- context [status_code response =? ?n] =>
      rewrite (proj2 (Z.eqb_neq (status_code response) n)) by lia
  end.
  by rewrite (proj2 (Z.leb_le 500 (status_code response)) Hcode).
Qed.



(** X27.  A service that answers with a status of 500 or more every time:
    the request is sent three times, with pauses of 1 and 2 seconds
    between the attempts and none after the last; [None] is returned and
    [_last_response_status] is reset to [None], so the status of the server
    error is lost; the count of consecutive errors stays as it was. *)
Theorem server_errors_back_off_and_give_up (env : Env) (method url : string)
    (st : State) (response : HttpResponse) :
  (∀ n, transport env n = gives (Some response)) →
  500 <= status_code response →
  let st0 := _enforce_rate_limit env st in
  let send := EvSend method url (if_modified_since_of st.1 method url) in
  _make_request env method url st
  = ((with_status None st0.1,
      st0.2 ++ [send; EvSleep (inject_Z 1); send; EvSleep (inject_Z 2); send]), None).
Proof.
  intros Hsent Hcode. cbv zeta. unfold _make_request.
  destruct (_enforce_rate_limit_idle env st) as (_ & Hc0 & _).
  rewrite <- (if_modified_since_of_cache st.1 _ method url Hc0).
  destruct (_enforce_rate_limit env st) as [self trace]. cbn [fst snd].
  cbn [attempt_loop].
  rewrite (attempt_body_server_error env method url 0 _ response) by done.
  rewrite (attempt_body_server_error env method url 1 _ response) by done.
  rewrite (attempt_body_server_error env method url 2 _ response) by done.
  unfold backoff.
  change (0 <? 3 - 1) with true. change (1 <? 3 - 1) with true.
  change (2 <? 3 - 1) with false. change (2 ^ 0) with 1. change (2 ^ 1) with 2.
  cbv iota. unfold sleep, if_modified_since_of. cbn [fst snd last_modified_cache with_status].
  by rewrite <- !app_assoc.
Qed.

Lemma server_errors_back_off_and_give_up_witness :
  _make_request WireSamples.env_server_down "POST" "/v2/buckets" (new_client, [])
  = ((with_status None (_enforce_rate_limit WireSamples.env_server_down (new_client, [])).1,
      (_enforce_rate_limit WireSamples.env_server_down (new_client, [])).2
      ++ [EvSend "POST" "/v2/buckets" None; EvSleep (inject_Z 1);
          EvSend "POST" "/v2/buckets" None; EvSleep (inject_Z 2);
          EvSend "POST" "/v2/buckets" None]),
     None).
Proof.
  apply (server_errors_back_off_and_give_up WireSamples.env_server_down "POST" "/v2/buckets"
           (new_client, []) WireSamples.bad_gateway).
  - intros n. reflexivity.
  - by vm_compute.
Defined.

(** X28.  The cache of [Last-Modified] values round-trips: after a call
    that returned a response of status 200 with a [Last-Modified] header,
    every request of a following [GET] call to the same URL, whatever the
    transport does then, carries this value as [If-Modified-Since]. *)
Theorem last_modified_is_sent_back (env env' : Env) (method method' url : string)
    (st st1 : State) (response : HttpResponse) (value : string) :
  _make_request env method url st = (st1, Some response) →
  status_code response = 200 →
  last_modified response = Some value →
  upper method' = "GET"%string →
  ∃ evs,
    (_make_request env' method' url st1).1.2 = st1.2 ++ evs
    ∧ (1 <= length (sends evs))%nat
    ∧ Forall (fun x => x = (method', url, Some value)) (sends evs).
Proof.
  intros Hrun Hcode Hlm Hget.
  destruct (_make_request_spec env method url st) as (_ & _ & Hres).
  rewrite Hrun in Hres. cbn [fst snd] in Hres.
  destruct Hres as (_ & _ & _ & _ & _ & _ & H200).
  destruct (H200 Hcode) as [_ Hcache]. specialize (Hcache value Hlm).
  destruct (_make_request_spec env' method' url st1) as ((evs & He & [Hlen _] & Hall) & _).
  exists evs. split; [done|]. split; [done|].
  unfold if_modified_since_of in Hall. by rewrite Hget, Hcache in Hall.
Qed.

Lemma last_modified_is_sent_back_witness :
  ∃ evs,
    (_make_request WireSamples.env_server_down "get" "/v2/profile"
       (_make_request WireSamples.env_fresh "GET" "/v2/profile" (new_client, [])).1).1.2
    = (_make_request WireSamples.env_fresh "GET" "/v2/profile" (new_client, [])).1.2 ++ evs
    ∧ (1 <= length (sends evs))%nat
    ∧ Forall (fun x => x = ("get"%string, "/v2/profile"%string, Some "Tue, 03 Nov 2026"%string))
             (sends evs).
Proof.
  apply (last_modified_is_sent_back WireSamples.env_fresh WireSamples.env_server_down
           "GET" "get" "/v2/profile" (new_client, [])
           (_make_request WireSamples.env_fresh "GET" "/v2/profile" (new_client, [])).1
           WireSamples.fresh_profile "Tue, 03 Nov 2026").
  - reflexivity.
  - reflexivity.
  - reflexivity.
  - reflexivity.
Defined.

(** X29.  Once the count of consecutive errors is one below its maximum,
    a call whose first attempt raises (an exception other than a timeout)
    is not retried: one request is sent, no pause follows, the count goes
    up by one, and [None] is returned with [_last_response_status] reset to
    [None]. *)
Theorem error_streak_stops_retries (env : Env) (method url : string) (st : State) :
  let st0 := _enforce_rate_limit env st in
  transport env (length st0.2) = raises_Exception →
  max_consecutive_errors st.1 <= consecutive_errors st.1 + 1 →
  _make_request env method url st
  = ((with_status None (with_consecutive_errors (consecutive_errors st.1 + 1) st0.1),
      st0.2 ++ [EvSend method url (if_modified_since_of st.1 method url)]), None).
Proof.
  cbv zeta. intros Hsent Hmax. unfold _make_request.
  destruct (_enforce_rate_limit_idle env st) as (_ & Hc0 & Hm0).
  assert (He0 : consecutive_errors (_enforce_rate_limit env st).1 = consecutive_errors st.1).
  { unfold _enforce_rate_limit. by destruct (negb _). }
  rewrite <- (if_modified_since_of_cache st.1 _ method url Hc0).
  destruct (_enforce_rate_limit env st) as [self trace]. cbn [fst snd] in *.
  cbn [attempt_loop]. unfold attempt_body. cbn [fst snd]. rewrite Hsent.
  unfold on_exception.
  cbn [fst snd consecutive_errors max_consecutive_errors with_consecutive_errors].
  rewrite Hm0, He0, (proj2 (Z.leb_le _ _) Hmax). reflexivity.
Qed.

Lemma error_streak_stops_retries_witness :
  _make_request WireSamples.env_broken "GET" "/v2/profile" (WireSamples.weary_client, [])
  = ((with_status None
        (with_consecutive_errors (consecutive_errors WireSamples.weary_client + 1)
           (_enforce_rate_limit WireSamples.env_broken (WireSamples.weary_client, [])).1),
      (_enforce_rate_limit WireSamples.env_broken (WireSamples.weary_client, [])).2
      ++ [EvSend "GET" "/v2/profile"
            (if_modified_since_of WireSamples.weary_client "GET" "/v2/profile")]), None).
Proof.
  apply (error_streak_stops_retries WireSamples.env_broken "GET" "/v2/profile"
           (WireSamples.weary_client, [])).
  - reflexivity.
  - by vm_compute.
Defined.

End WireFacts.
